(** * The thesis-roadmap pipeline of thesis-planner-backend

    A shallow embedding of [src/utils/generateThesisRoadmap.ts]: the JSON
    extraction and repair helper, the three literature adapters with their
    fallback chain, the gateway to the generative-text service and the
    orchestrator, followed by the properties proved about them.

    Modelling conventions.
    - A JavaScript string is the list of its UTF-16 code units.
    - A value of TypeScript type [any] that arrives over HTTP is a [jsval]:
      JSON data plus [undefined].
    - An [async] function is a computation over the trace of console output
      and network requests that either returns or throws; an awaited call is
      a bind.  A network call is answered by the [World], which may depend on
      everything that happened before and may throw.  Calls that never settle
      are outside the model.

    The embedding goes on with the HTTP controller that calls the pipeline
    ([controllers/thesisController.ts]) and with the authentication
    handlers ([controllers/authController.ts], [models/User.ts] and the
    [authenticateUser] middleware), whose libraries are oracles of their
    own world. *)

From Stdlib Require Import Ascii String.
From Stdlib Require Import List NArith ZArith Bool Lia.
From Stdlib Require Import Permutation Sorted.
Import ListNotations.

Set Implicit Arguments.
Set Warnings "-register-all".

(* ================================================================== *)
(** * JavaScript strings *)
(* ================================================================== *)

Definition char := N.
Definition jsstring := list char.

(** An ASCII literal as a JavaScript string. *)
Definition js (s : string) : jsstring :=
  map N_of_ascii (list_ascii_of_string s).

Definition LF : char := 10%N.
Definition DQUOTE : char := 34%N.
Definition SQUOTE : char := 39%N.
Definition COLON : char := 58%N.
Definition BACKSLASH : char := 92%N.
Definition BACKTICK : char := 96%N.

(** [LineTerminator]: LF, CR, LS, PS. *)
Definition isLineTerminator (c : char) : bool :=
  ((c =? 10) || (c =? 13) || (c =? 0x2028) || (c =? 0x2029))%N.

(** [WhiteSpace] or [LineTerminator]: the set that both the regular
    expression class [\s] and [String.prototype.trim] use. *)
Definition isWhiteSpace (c : char) : bool :=
  (isLineTerminator c
   || (c =? 9) || (c =? 11) || (c =? 12) || (c =? 32) || (c =? 0xA0)
   || (c =? 0x1680) || ((0x2000 <=? c) && (c <=? 0x200A))
   || (c =? 0x202F) || (c =? 0x205F) || (c =? 0x3000) || (c =? 0xFEFF))%N.

Fixpoint dropWhile (p : char -> bool) (s : jsstring) : jsstring :=
  match s with
  | [] => []
  | c :: s' => if p c then dropWhile p s' else s
  end.

Fixpoint takeWhile (p : char -> bool) (s : jsstring) : jsstring :=
  match s with
  | [] => []
  | c :: s' => if p c then c :: takeWhile p s' else []
  end.

(** [s.startsWith(p)]. *)
Fixpoint startsWith (p s : jsstring) : bool :=
  match p, s with
  | [], _ => true
  | _ :: _, [] => false
  | a :: p', b :: s' => (a =? b)%N && startsWith p' s'
  end.

(** [s.includes(p)]. *)
Fixpoint includes (p s : jsstring) : bool :=
  startsWith p s ||
  match s with
  | [] => false
  | _ :: s' => includes p s'
  end.

(** [s.substring(0, n)]. *)
Definition substring0 (n : nat) (s : jsstring) : jsstring := firstn n s.

Definition trimStart (s : jsstring) : jsstring := dropWhile isWhiteSpace s.

(** Removes the longest suffix made of white space only. *)
Fixpoint trimEnd (s : jsstring) : jsstring :=
  match s with
  | [] => []
  | c :: s' => if forallb isWhiteSpace s then [] else c :: trimEnd s'
  end.

(** [s.trim()]. *)
Definition trim (s : jsstring) : jsstring := trimEnd (trimStart s).

(** [a.join(sep)] for an array of strings. *)
Fixpoint join (sep : jsstring) (xs : list jsstring) : jsstring :=
  match xs with
  | [] => []
  | [x] => x
  | x :: xs' => x ++ sep ++ join sep xs'
  end.

(** [s.split(sep)] for a one-character separator: always at least one piece. *)
Fixpoint split (sep : char) (s : jsstring) : list jsstring :=
  match s with
  | [] => [[]]
  | c :: s' =>
      if (c =? sep)%N then [] :: split sep s'
      else match split sep s' with
           | piece :: pieces => (c :: piece) :: pieces
           | [] => [[c]]
           end
  end.

(* ------------------------------------------------------------------ *)
(** ** The regular expressions of [extractAndParseJson]

    Each replacement the function performs is written out as the scan the
    regular expression engine makes: candidates are tried from the left, and
    at each start position the pattern's own greedy or lazy choices are
    followed with their backtracking. *)
(* ------------------------------------------------------------------ *)

(** Case-insensitive comparison against an ASCII pattern character (flag
    [i] without flag [u]: both sides are upper-cased, and a non-ASCII code
    unit never canonicalises to an ASCII one). *)
Definition canonicalize (c : char) : char :=
  (if (97 <=? c) && (c <=? 122) then c - 32 else c)%N.

Fixpoint startsWithCI (p s : jsstring) : bool :=
  match p, s with
  | [], _ => true
  | _ :: _, [] => false
  | a :: p', b :: s' => (canonicalize a =? canonicalize b)%N && startsWithCI p' s'
  end.

Definition fenceJson : jsstring := js "```json".
Definition fence : jsstring := js "```".

(** [s.replace(/^```json\s*/im, '')].  With flag [m] the anchor holds at the
    start of the input and after every line terminator; [atLineStart] says
    whether it holds at the head of [s].  Only the first match is replaced;
    it takes the marker and the longest run of white space after it. *)
Fixpoint removeStartFence (atLineStart : bool) (s : jsstring) : jsstring :=
  match s with
  | [] => []
  | c :: s' =>
      if atLineStart && startsWithCI fenceJson s
      then dropWhile isWhiteSpace (skipn (length fenceJson) s)
      else c :: removeStartFence (isLineTerminator c) s'
  end.

(** The end-of-line anchor [$] under flag [m]. *)
Definition atLineEnd (s : jsstring) : bool :=
  match s with
  | [] => true
  | c :: _ => isLineTerminator c
  end.

(** A match of [\s*```$] that starts at the head of [s]: what follows it.
    The greedy [\s*] takes the whole run of white space; a shorter run is
    followed by white space, never by a backtick, so backtracking into it
    cannot succeed. *)
Definition endFenceHere (s : jsstring) : option jsstring :=
  let r := dropWhile isWhiteSpace s in
  if startsWith fence r && atLineEnd (skipn (length fence) r)
  then Some (skipn (length fence) r)
  else None.

(** [s.replace(/\s*```$/im, '')]: the leftmost match is removed. *)
Fixpoint removeEndFence (s : jsstring) : jsstring :=
  match endFenceHere s with
  | Some rest => rest
  | None =>
      match s with
      | [] => []
      | c :: s' => c :: removeEndFence s'
      end
  end.

(** [group1.replace(/(?<!\\)\n/g, '\\n')]: every line feed that is not
    directly preceded by a backslash becomes the two characters backslash,
    [n].  The look-behind reads the subject string, so [prev] is the
    original preceding character. *)
Fixpoint escapeNewlinesAfter (prev : option char) (s : jsstring) : jsstring :=
  match s with
  | [] => []
  | c :: s' =>
      (if (c =? LF)%N && negb (match prev with
                               | Some p => (p =? BACKSLASH)%N
                               | None => false
                               end)
       then [BACKSLASH; 110%N]
       else [c]) ++ escapeNewlinesAfter (Some c) s'
  end.

Definition escapeNewlines (group1 : jsstring) : jsstring :=
  escapeNewlinesAfter None group1.

(** The tail [((\\Q|[^Q])*?)Q] of the first repair pattern (Q standing for
    the double quote), read from just after the opening quote: the captured
    group and the text after the closing quote.  The lazy star tries the closing quote first; otherwise it
    takes backslash-quote as one unit, or else one character that is not a
    quote.  When taking backslash-quote leads to no match, the engine
    backtracks: the backslash alone is taken and the quote closes. *)
Fixpoint doubleQuotedTail (s : jsstring) : option (jsstring * jsstring) :=
  match s with
  | [] => None
  | c :: s1 =>
      if (c =? DQUOTE)%N then Some ([], s1)
      else
        match s1 with
        | d :: s2 =>
            if (c =? BACKSLASH)%N && (d =? DQUOTE)%N then
              match doubleQuotedTail s2 with
              | Some (g, rest) => Some (c :: d :: g, rest)
              | None => Some ([c], s2)
              end
            else
              match doubleQuotedTail s1 with
              | Some (g, rest) => Some (c :: g, rest)
              | None => None
              end
        | [] => None
        end
  end.

(** The tail of the second repair pattern: a greedy run of characters other
    than the single quote, captured, then the closing single quote. *)
Fixpoint singleQuotedTail (s : jsstring) : option (jsstring * jsstring) :=
  match s with
  | [] => None
  | c :: s1 =>
      if (c =? SQUOTE)%N then Some ([], s1)
      else
        match singleQuotedTail s1 with
        | Some (g, rest) => Some (c :: g, rest)
        | None => None
        end
  end.

(** A match of [:\s*Q(...)Q] starting at a colon, [afterColon] being the
    text after it: the captured group and the text after the match. *)
Definition quotedValueHere (quote : char)
    (tail : jsstring -> option (jsstring * jsstring))
    (afterColon : jsstring) : option (jsstring * jsstring) :=
  match dropWhile isWhiteSpace afterColon with
  | q :: body => if (q =? quote)%N then tail body else None
  | [] => None
  end.

(** [s.replace(/:\s*Q(...)Q/g, (match, group1) => `: Q${repaired}Q`)].
    Matches are found from the left and do not overlap; [skip] counts the
    characters of the current match that are still to be passed over. *)
Fixpoint replaceQuotedValues (quote : char)
    (tail : jsstring -> option (jsstring * jsstring))
    (skip : nat) (s : jsstring) : jsstring :=
  match s with
  | [] => []
  | c :: s' =>
      match skip with
      | S k => replaceQuotedValues quote tail k s'
      | O =>
          if (c =? COLON)%N then
            match quotedValueHere quote tail s' with
            | Some (group1, rest) =>
                let repairedValue := escapeNewlines group1 in
                js ": " ++ [quote] ++ repairedValue ++ [quote]
                  ++ replaceQuotedValues quote tail (length s' - length rest) s'
            | None => c :: replaceQuotedValues quote tail 0 s'
            end
          else c :: replaceQuotedValues quote tail 0 s'
      end
  end.

(** Lines 94--101: the double-quote pass, then the single-quote pass. *)
Definition cleanedString (jsonString : jsstring) : jsstring :=
  replaceQuotedValues SQUOTE singleQuotedTail 0
    (replaceQuotedValues DQUOTE doubleQuotedTail 0 jsonString).

(** Lines 64--67: both fences removed, then trimmed. *)
Definition stripFences (rawString : jsstring) : jsstring :=
  trim (removeEndFence (removeStartFence true rawString)).

(* ================================================================== *)
(** * JavaScript values and JSON *)
(* ================================================================== *)

(** A JSON number, kept as the exact decimal it was written as:
    [(-1)^negative * mantissa * 10^exponent].  JavaScript rounds it to a
    binary64; what the program and the properties observe of a number is
    read off that rounding. *)
Record number := mkNumber {
  negative : bool;
  mantissa : N;
  exponent : Z
}.

Definition numberOfN (n : N) : number := mkNumber false n 0.

(** The binary64 nearest to the decimal is [0] (or [-0]): the mantissa is
    zero, or the magnitude is at most [2^-1075], half the least subnormal. *)
Definition numberIsZero (n : number) : bool :=
  (mantissa n =? 0)%N ||
  ((exponent n <? 0)%Z &&
   (Z.of_N (mantissa n) * 2 ^ 1075 <=? 10 ^ (- exponent n))%Z).

(** The binary64 nearest to the positive rational [num / den], ties to
    even: [Some (m, e)] is [m * 2^e] with [m < 2^53] and [-1074 <= e];
    [None] is [Infinity].  The quotient lies between [2^(l-1)] and
    [2^(l+1)], which leaves two candidates for the exponent. *)
Definition nearestBinary64 (num den : Z) : option (Z * Z) :=
  let l := (Z.log2 num - Z.log2 den)%Z in
  let atLeast :=
    (if 0 <=? l then den * 2 ^ l <=? num else den <=? num * 2 ^ (- l))%Z in
  let e := Z.max (-1074) (if atLeast then l - 52 else l - 53) in
  let n := (if 0 <=? e then num else num * 2 ^ (- e))%Z in
  let d := (if 0 <=? e then den * 2 ^ e else den)%Z in
  let q := (n / d)%Z in
  let r := (n mod d)%Z in
  let m := (if (d <? 2 * r) || ((d =? 2 * r) && Z.odd q) then q + 1 else q)%Z in
  let e := (if m =? 2 ^ 53 then e + 1 else e)%Z in
  let m := (if m =? 2 ^ 53 then 2 ^ 52 else m)%Z in
  if (971 <? e)%Z then None else Some (m, e).

(** The number JavaScript holds for the decimal is an integer that is not
    negative: it is zero, or the decimal is positive and its binary64 is
    finite and integral. *)
Definition numberIsNonNegInteger (n : number) : bool :=
  if (mantissa n =? 0)%N then true
  else
    let num := (if 0 <=? exponent n
                then Z.of_N (mantissa n) * 10 ^ exponent n
                else Z.of_N (mantissa n))%Z in
    let den := (if 0 <=? exponent n then 1 else 10 ^ (- exponent n))%Z in
    match nearestBinary64 num den with
    | None => false
    | Some (m, e) =>
        (m =? 0)%Z
        || (negb (negative n) && ((0 <=? e)%Z || (m mod 2 ^ (- e) =? 0)%Z))
    end.

Inductive jsval :=
| VUndefined
| VNull
| VBool (b : bool)
| VNum (n : number)
| VStr (s : jsstring)
| VArr (elements : list jsval)
| VObj (properties : list (jsstring * jsval)).

Definition jsstring_eqb (a b : jsstring) : bool :=
  (length a =? length b)%nat && startsWith a b.

(** [ToBoolean]. *)
Definition truthy (v : jsval) : bool :=
  match v with
  | VUndefined | VNull => false
  | VBool b => b
  | VNum n => negb (numberIsZero n)
  | VStr s => negb (jsstring_eqb s [])
  | VArr _ | VObj _ => true
  end.

(** [a || b] and [a ?? b] on values. *)
Definition or_else (a b : jsval) : jsval := if truthy a then a else b.

Definition isNullish (v : jsval) : bool :=
  match v with
  | VUndefined | VNull => true
  | _ => false
  end.

Definition nullish_else (a b : jsval) : jsval := if isNullish a then b else a.

(** Own properties of an object, as an association list in creation order.
    Assigning to an existing key keeps its place. *)
Fixpoint lookup (props : list (jsstring * jsval)) (k : jsstring) : option jsval :=
  match props with
  | [] => None
  | (k', v) :: rest => if jsstring_eqb k' k then Some v else lookup rest k
  end.

Fixpoint setProperty (props : list (jsstring * jsval)) (k : jsstring) (v : jsval)
  : list (jsstring * jsval) :=
  match props with
  | [] => [(k, v)]
  | (k', v') :: rest =>
      if jsstring_eqb k' k then (k', v) :: rest
      else (k', v') :: setProperty rest k v
  end.

(* ------------------------------------------------------------------ *)
(** ** Exceptions and outcomes *)
(* ------------------------------------------------------------------ *)

(** What the program can see thrown: [Error] objects, the run time's
    [TypeError] and [SyntaxError], and the HTTP client's error, which
    carries the response (status and body) when one was received. *)
Inductive exn :=
| Error (message : jsstring)
| TypeError (message : jsstring)
| SyntaxError (message : jsstring)
| AxiosError (message : jsstring) (response : option (N * jsval)).

(** [error.message]. *)
Definition messageOf (e : exn) : jsstring :=
  match e with
  | Error m | TypeError m | SyntaxError m | AxiosError m _ => m
  end.

Inductive outcome (A : Type) :=
| Return (a : A)
| Throw (e : exn).

Arguments Return {A} a.
Arguments Throw {A} e.

Definition obind {A B} (o : outcome A) (k : A -> outcome B) : outcome B :=
  match o with
  | Return a => k a
  | Throw e => Throw e
  end.

Declare Scope outcome_scope.
Delimit Scope outcome_scope with outcome.
Notation "x <- c ;; k" := (obind c (fun x => k))
  (at level 61, c at next level, right associativity) : outcome_scope.

(** [xs.map(f)] with a callback that may throw. *)
Fixpoint mapOutcome {A B} (f : A -> outcome B) (xs : list A) : outcome (list B) :=
  match xs with
  | [] => Return []
  | x :: xs' =>
      obind (f x) (fun y => obind (mapOutcome f xs') (fun ys => Return (y :: ys)))
  end.

(** The message text of the run time's errors is engine specific; the
    program never inspects it. *)
Definition readOfNullish : exn :=
  TypeError (js "Cannot read properties of undefined").
Definition notAFunction : exn :=
  TypeError (js "is not a function").

(** [o.k] for the property names the program reads.  Reading from
    [undefined] or [null] throws; a primitive or an array has none of the
    names read here except [length]. *)
Definition get (o : jsval) (k : jsstring) : outcome jsval :=
  match o with
  | VUndefined | VNull => Throw readOfNullish
  | VObj props =>
      Return (match lookup props k with Some v => v | None => VUndefined end)
  | VArr xs =>
      Return (if jsstring_eqb k (js "length")
              then VNum (numberOfN (N.of_nat (length xs))) else VUndefined)
  | VStr s =>
      Return (if jsstring_eqb k (js "length")
              then VNum (numberOfN (N.of_nat (length s))) else VUndefined)
  | VBool _ | VNum _ => Return VUndefined
  end.

(** [o?.k]. *)
Definition getOpt (o : jsval) (k : jsstring) : outcome jsval :=
  if isNullish o then Return VUndefined else get o k.

(** [x === 0] for a number read from the data. *)
Definition isNumberZero (v : jsval) : bool :=
  match v with
  | VNum n => numberIsZero n
  | _ => false
  end.

(** [String(v)], as template literals and [Array.prototype.join] convert a
    value.  [numberToString] is the run time's [Number::toString] (the
    shortest decimal that reads back as the same binary64). *)
Fixpoint toString (numberToString : number -> jsstring) (v : jsval) : jsstring :=
  match v with
  | VUndefined => js "undefined"
  | VNull => js "null"
  | VBool true => js "true"
  | VBool false => js "false"
  | VNum n => numberToString n
  | VStr s => s
  | VArr xs =>
      join (js ",")
        (map (fun x => if isNullish x then [] else toString numberToString x) xs)
  | VObj _ => js "[object Object]"
  end.

(** [xs.join(sep)]: [undefined] and [null] elements print as nothing. *)
Definition joinValues (numberToString : number -> jsstring)
    (sep : jsstring) (xs : list jsval) : jsstring :=
  join sep (map (fun x => if isNullish x then [] else toString numberToString x) xs).

(** Property enumeration order ([for...in], [JSON.stringify]): array-index
    keys first, in ascending numeric order, then the other keys in creation
    order. *)
Definition isDigit (c : char) : bool := ((48 <=? c) && (c <=? 57))%N.

Definition digitsValue (ds : jsstring) : N :=
  fold_left (fun acc d => (acc * 10 + (d - 48))%N) ds 0%N.

(** A canonical numeric string below [2^32 - 1]. *)
Definition arrayIndex (k : jsstring) : option N :=
  match k with
  | [] => None
  | c :: rest =>
      if forallb isDigit k
         && (negb (c =? 48)%N || (length rest =? 0)%nat)
         && (length k <=? 10)%nat
         && (digitsValue k <? 4294967295)%N
      then Some (digitsValue k) else None
  end.

Fixpoint insertByIndex {A} (i : N) (x : A) (sorted : list (N * A)) : list (N * A) :=
  match sorted with
  | [] => [(i, x)]
  | (j, y) :: rest =>
      if (i <? j)%N then (i, x) :: sorted else (j, y) :: insertByIndex i x rest
  end.

Definition ownProperties {A} (props : list (jsstring * A)) : list (jsstring * A) :=
  let indexed :=
    fold_left
      (fun acc kv => match arrayIndex (fst kv) with
                     | Some i => insertByIndex i kv acc
                     | None => acc
                     end) props [] in
  map snd indexed
  ++ filter (fun kv => match arrayIndex (fst kv) with
                       | Some _ => false
                       | None => true
                       end) props.

Module JSON.

(** *** [JSON.parse] *)

Inductive parsed (A : Type) :=
| Parsed (a : A) (rest : jsstring)
| Malformed
| OutOfFuel.

Arguments Parsed {A} a rest.
Arguments Malformed {A}.
Arguments OutOfFuel {A}.

(** JSON white space: space, tab, line feed, carriage return. *)
Definition isJsonWs (c : char) : bool :=
  ((c =? 32) || (c =? 9) || (c =? 10) || (c =? 13))%N.

Definition skipWs (s : jsstring) : jsstring := dropWhile isJsonWs s.

Definition hexValue (c : char) : option N :=
  (if (48 <=? c) && (c <=? 57) then Some (c - 48)
   else if (97 <=? c) && (c <=? 102) then Some (c - 87)
   else if (65 <=? c) && (c <=? 70) then Some (c - 55)
   else None)%N.

Definition simpleEscape (e : char) : option char :=
  (if e =? 34 then Some 34        (* quote *)
   else if e =? 92 then Some 92   (* backslash *)
   else if e =? 47 then Some 47   (* solidus *)
   else if e =? 98 then Some 8    (* b *)
   else if e =? 102 then Some 12  (* f *)
   else if e =? 110 then Some 10  (* n *)
   else if e =? 114 then Some 13  (* r *)
   else if e =? 116 then Some 9   (* t *)
   else None)%N.

(** The characters of a string literal after its opening quote, decoded,
    and the text after its closing quote.  A control character below U+0020
    may only appear escaped. *)
Fixpoint stringBody (s : jsstring) : option (jsstring * jsstring) :=
  match s with
  | [] => None
  | c :: r =>
      if (c =? DQUOTE)%N then Some ([], r)
      else if (c =? BACKSLASH)%N then
        match r with
        | [] => None
        | e :: r1 =>
            if (e =? 117)%N then
              match r1 with
              | h1 :: h2 :: h3 :: h4 :: r2 =>
                  match hexValue h1, hexValue h2, hexValue h3, hexValue h4 with
                  | Some a, Some b, Some c', Some d =>
                      match stringBody r2 with
                      | Some (str, rest) =>
                          Some ((((a * 16 + b) * 16 + c') * 16 + d)%N :: str, rest)
                      | None => None
                      end
                  | _, _, _, _ => None
                  end
              | _ => None
              end
            else
              match simpleEscape e with
              | Some ch =>
                  match stringBody r1 with
                  | Some (str, rest) => Some (ch :: str, rest)
                  | None => None
                  end
              | None => None
              end
        end
      else if (c <? 32)%N then None
      else
        match stringBody r with
        | Some (str, rest) => Some (c :: str, rest)
        | None => None
        end
  end.

(** A number literal: an optional minus sign; an integer part that is [0]
    or starts with a non-zero digit; an optional fraction of a point and one
    or more digits; an optional exponent of [e] or [E], an optional sign and
    one or more digits. *)
Definition numberLiteral (s : jsstring) : option (number * jsstring) :=
  let (neg, s1) := match s with
                   | c :: r => if (c =? 45)%N then (true, r) else (false, s)
                   | [] => (false, s)
                   end in
  let int := takeWhile isDigit s1 in
  let s2 := dropWhile isDigit s1 in
  match int with
  | [] => None
  | d :: more =>
      if (d =? 48)%N && negb (length more =? 0)%nat then None
      else
        let frac_rest :=
          match s2 with
          | c :: r =>
              if (c =? 46)%N then
                match takeWhile isDigit r with
                | [] => None
                | fs => Some (fs, dropWhile isDigit r)
                end
              else Some ([], s2)
          | [] => Some ([], s2)
          end in
        match frac_rest with
        | None => None
        | Some (frac, s3) =>
            let exp_rest :=
              match s3 with
              | c :: r =>
                  if (c =? 101)%N || (c =? 69)%N then
                    let (eneg, r1) :=
                      match r with
                      | sg :: r' =>
                          if (sg =? 45)%N then (true, r')
                          else if (sg =? 43)%N then (false, r')
                          else (false, r)
                      | [] => (false, r)
                      end in
                    match takeWhile isDigit r1 with
                    | [] => None
                    | es =>
                        let e := Z.of_N (digitsValue es) in
                        Some ((if eneg then - e else e)%Z, dropWhile isDigit r1)
                    end
                  else Some (0%Z, s3)
              | [] => Some (0%Z, s3)
              end in
            match exp_rest with
            | None => None
            | Some (e, rest) =>
                Some (mkNumber neg (digitsValue (int ++ frac))
                        (e - Z.of_nat (length frac))%Z, rest)
            end
        end
  end.

Definition ofOption {A} (o : option (A * jsstring)) : parsed A :=
  match o with
  | Some (a, rest) => Parsed a rest
  | None => Malformed
  end.

Fixpoint value (fuel : nat) (s : jsstring) {struct fuel} : parsed jsval :=
  match fuel with
  | O => OutOfFuel
  | S fuel' =>
      match skipWs s with
      | [] => Malformed
      | c :: r =>
          if (c =? 123)%N then                       (* left brace *)
            match skipWs r with
            | c' :: r' =>
                if (c' =? 125)%N then Parsed (VObj []) r'
                else match members fuel' [] r with
                     | Parsed props rest => Parsed (VObj props) rest
                     | Malformed => Malformed
                     | OutOfFuel => OutOfFuel
                     end
            | [] => Malformed
            end
          else if (c =? 91)%N then                   (* left bracket *)
            match skipWs r with
            | c' :: r' =>
                if (c' =? 93)%N then Parsed (VArr []) r'
                else match elements fuel' [] r with
                     | Parsed xs rest => Parsed (VArr xs) rest
                     | Malformed => Malformed
                     | OutOfFuel => OutOfFuel
                     end
            | [] => Malformed
            end
          else if (c =? DQUOTE)%N then
            match stringBody r with
            | Some (str, rest) => Parsed (VStr str) rest
            | None => Malformed
            end
          else if startsWith (js "true") (c :: r) then Parsed (VBool true) (skipn 4 (c :: r))
          else if startsWith (js "false") (c :: r) then Parsed (VBool false) (skipn 5 (c :: r))
          else if startsWith (js "null") (c :: r) then Parsed VNull (skipn 4 (c :: r))
          else
            match numberLiteral (c :: r) with
            | Some (n, rest) => Parsed (VNum n) rest
            | None => Malformed
            end
      end
  end

with elements (fuel : nat) (acc : list jsval) (s : jsstring) {struct fuel}
  : parsed (list jsval) :=
  match fuel with
  | O => OutOfFuel
  | S fuel' =>
      match value fuel' s with
      | Parsed v r =>
          match skipWs r with
          | c :: r' =>
              if (c =? 44)%N then elements fuel' (acc ++ [v]) r'
              else if (c =? 93)%N then Parsed (acc ++ [v]) r'
              else Malformed
          | [] => Malformed
          end
      | Malformed => Malformed
      | OutOfFuel => OutOfFuel
      end
  end

with members (fuel : nat) (acc : list (jsstring * jsval)) (s : jsstring) {struct fuel}
  : parsed (list (jsstring * jsval)) :=
  match fuel with
  | O => OutOfFuel
  | S fuel' =>
      match skipWs s with
      | q :: r =>
          if (q =? DQUOTE)%N then
            match stringBody r with
            | Some (k, r1) =>
                match skipWs r1 with
                | c :: r2 =>
                    if (c =? COLON)%N then
                      match value fuel' r2 with
                      | Parsed v r3 =>
                          match skipWs r3 with
                          | c' :: r4 =>
                              if (c' =? 44)%N then members fuel' (setProperty acc k v) r4
                              else if (c' =? 125)%N then Parsed (setProperty acc k v) r4
                              else Malformed
                          | [] => Malformed
                          end
                      | Malformed => Malformed
                      | OutOfFuel => OutOfFuel
                      end
                    else Malformed
                | [] => Malformed
                end
            | None => Malformed
            end
          else Malformed
      | [] => Malformed
      end
  end.

(** Every call of [value] consumes a character before it recurses, so twice
    the length of the text (plus one) is fuel enough; see
    [JSON_parse_fuel_enough]. *)
Definition fuelFor (text : jsstring) : nat := 2 * length text + 1.

Definition syntaxError : exn := SyntaxError (js "Unexpected token in JSON").

(** [JSON.parse(text)]: one value, surrounded by white space only. *)
Definition parse (text : jsstring) : outcome jsval :=
  match value (fuelFor text) text with
  | Parsed v rest =>
      if forallb isJsonWs rest then Return v else Throw syntaxError
  | Malformed | OutOfFuel => Throw syntaxError
  end.

(** *** [JSON.stringify] *)

Definition hexDigit (n : N) : char := (if n <? 10 then 48 + n else 87 + n)%N.

Definition unicodeEscape (c : char) : jsstring :=
  js "\u" ++ [hexDigit (c / 4096 mod 16); hexDigit (c / 256 mod 16);
              hexDigit (c / 16 mod 16); hexDigit (c mod 16)]%N.

Definition isLeadSurrogate (c : char) : bool := ((0xD800 <=? c) && (c <=? 0xDBFF))%N.
Definition isTrailSurrogate (c : char) : bool := ((0xDC00 <=? c) && (c <=? 0xDFFF))%N.

(** [QuoteJSONString] without the surrounding quotes. *)
Fixpoint quoteBody (s : jsstring) : jsstring :=
  match s with
  | [] => []
  | c :: r =>
      if (c =? 8)%N then js "\b" ++ quoteBody r
      else if (c =? 9)%N then js "\t" ++ quoteBody r
      else if (c =? 10)%N then js "\n" ++ quoteBody r
      else if (c =? 12)%N then js "\f" ++ quoteBody r
      else if (c =? 13)%N then js "\r" ++ quoteBody r
      else if (c =? DQUOTE)%N then [BACKSLASH; DQUOTE] ++ quoteBody r
      else if (c =? BACKSLASH)%N then [BACKSLASH; BACKSLASH] ++ quoteBody r
      else if (c <? 32)%N then unicodeEscape c ++ quoteBody r
      else if isLeadSurrogate c then
        match r with
        | d :: r' =>
            if isTrailSurrogate d then c :: d :: quoteBody r'
            else unicodeEscape c ++ quoteBody r
        | [] => unicodeEscape c
        end
      else if isTrailSurrogate c then unicodeEscape c ++ quoteBody r
      else c :: quoteBody r
  end.

Definition quote (s : jsstring) : jsstring := [DQUOTE] ++ quoteBody s ++ [DQUOTE].

(** [SerializeJSONProperty]: [None] is the [undefined] result.  [gap] is
    the indentation unit ([nil] for the compact form) and [indent] the
    current indentation. *)
Fixpoint serialize (numberToString : number -> jsstring)
    (gap indent : jsstring) (v : jsval) : option jsstring :=
  match v with
  | VUndefined => None
  | VNull => Some (js "null")
  | VBool true => Some (js "true")
  | VBool false => Some (js "false")
  | VNum n => Some (numberToString n)
  | VStr s => Some (quote s)
  | VArr xs =>
      let stepback := indent in
      let indent := indent ++ gap in
      let partial :=
        map (fun x => match serialize numberToString gap indent x with
                      | Some str => str
                      | None => js "null"
                      end) xs in
      Some (match partial with
            | [] => js "[]"
            | _ =>
                match gap with
                | [] => js "[" ++ join (js ",") partial ++ js "]"
                | _ => js "[" ++ [LF] ++ indent
                         ++ join (js "," ++ [LF] ++ indent) partial
                         ++ [LF] ++ stepback ++ js "]"
                end
            end)
  | VObj props =>
      let stepback := indent in
      let indent := indent ++ gap in
      let serialized :=
        map (fun kv => (fst kv, serialize numberToString gap indent (snd kv)))
          props in
      let partial :=
        flat_map
          (fun kv => match snd kv with
                     | Some str =>
                         [quote (fst kv) ++ js ":"
                            ++ match gap with [] => [] | _ => js " " end ++ str]
                     | None => []
                     end) (ownProperties serialized) in
      Some (match partial with
            | [] => js "{}"
            | _ =>
                match gap with
                | [] => js "{" ++ join (js ",") partial ++ js "}"
                | _ => js "{" ++ [LF] ++ indent
                         ++ join (js "," ++ [LF] ++ indent) partial
                         ++ [LF] ++ stepback ++ js "}"
                end
            end)
  end.

(** [JSON.stringify(v)] and [JSON.stringify(v, null, 2)] for a value that
    is not [undefined]. *)
Definition stringify (numberToString : number -> jsstring) (v : jsval) : jsstring :=
  match serialize numberToString [] [] v with
  | Some s => s
  | None => js "undefined"
  end.

Definition stringifyIndent2 (numberToString : number -> jsstring) (v : jsval)
  : jsstring :=
  match serialize numberToString (js "  ") [] v with
  | Some s => s
  | None => js "undefined"
  end.

End JSON.

(* ================================================================== *)
(** * Effects: console output, network requests, exceptions *)
(* ================================================================== *)

Inductive level := LOG | WARN | ERROR.

(** The response envelope of the generative-text service.  [axios] types
    the body as [any]; the model gives it the shape the gateway reads, with
    every part optional.  The text payload is kept as the value that was
    sent: the gateway tests it for truthiness and hands it on, whatever its
    type. *)
Module Gemini.

Record Part := { text : jsval }.

Record Content := { parts : option (list Part) }.

Record Candidate := {
  finishReason : option jsstring;
  content : option Content
}.

Record PromptFeedback := {
  blockReason : option jsstring;
  safetyRatings : jsval
}.

Record Response := {
  promptFeedback : option PromptFeedback;
  candidates : option (list Candidate)
}.

End Gemini.

(** One argument of a [console] call, or one piece of a template literal:
    literal text, an interpolated string, value, number or error object. *)
Inductive logArg :=
| Text (s : jsstring)
| Json (v : jsval)
| Count (n : N)
| Thrown (e : exn)
| Candidate (c : Gemini.Candidate).

Record request := {
  req_method : jsstring;
  req_url : jsstring;
  req_body : jsval;
  req_params : list (jsstring * jsval);
  req_headers : list (jsstring * jsstring);
  req_timeout : option N
}.

Inductive event :=
| Console (l : level) (args : list logArg)
| Request (r : request).

Definition trace := list event.

(** Everything outside the program.  The two HTTP calls answer from the
    history so far and the request, with [response.data] or an exception;
    the environment holds the two keys; the run time supplies number
    printing and what [invertAbstract] makes of an index that is not of its
    declared type. *)
Record World := {
  axios_get : trace -> request -> outcome jsval;
  axios_post : trace -> request -> outcome (option Gemini.Response);
  env_CORE_API_KEY : option jsstring;
  env_GOOGLE_API_KEY : jsstring;
  numberToString : number -> jsstring;
  invertAbstractUntyped : jsval -> outcome jsstring
}.

(** The prompt templates of [PromptGenerator]: pure interpolation of their
    arguments into fixed text.  The text is a parameter; nothing below
    depends on it. *)
Module PromptGenerator.

Record Templates := {
  stepByStep : jsstring -> jsstring;
  rankPapers : jsstring -> jsstring -> jsstring;
  methodology : jsstring -> jsstring;
  researchGaps : jsstring -> jsstring -> jsstring;
  prosCons : jsstring -> jsstring -> jsstring
}.

End PromptGenerator.

(** A computation that appends to the trace and returns or throws. *)
Definition M (A : Type) := trace -> outcome A * trace.

Definition ret {A} (a : A) : M A := fun t => (Return a, t).

Definition throw {A} (e : exn) : M A := fun t => (Throw e, t).

Definition bind {A B} (m : M A) (k : A -> M B) : M B :=
  fun t =>
    match m t with
    | (Return a, t') => k a t'
    | (Throw e, t') => (Throw e, t')
    end.

(** [try { m } catch (e) { handler e }]: what [m] did before it threw stays
    done. *)
Definition tryCatch {A} (m : M A) (handler : exn -> M A) : M A :=
  fun t =>
    match m t with
    | (Return a, t') => (Return a, t')
    | (Throw e, t') => handler e t'
    end.

Definition lift {A} (o : outcome A) : M A := fun t => (o, t).

Definition console (l : level) (args : list logArg) : M unit :=
  fun t => (Return tt, t ++ [Console l args]).

Declare Scope M_scope.
Delimit Scope M_scope with M.
Notation "x <- c ;; k" := (bind c (fun x => k))
  (at level 61, c at next level, right associativity) : M_scope.
Notation "c ;; k" := (bind c (fun _ => k))
  (at level 61, right associativity) : M_scope.

(** The requests a trace records, in order. *)
Fixpoint requestsOf (t : trace) : list request :=
  match t with
  | [] => []
  | Request r :: t' => r :: requestsOf t'
  | Console _ _ :: t' => requestsOf t'
  end.

(* ================================================================== *)
(** * Robust JSON parsing helper (lines 58--133) *)
(* ================================================================== *)

Local Open Scope M_scope.

(** The guard of lines 70--72. *)
Definition looksLikePlainText (jsonString : jsstring) : bool :=
  negb (startsWith (js "[") jsonString)
  && negb (startsWith (js "{") jsonString)
  && ((length jsonString <? 200)%nat
      && (includes (js "error") jsonString || includes (js "sorry") jsonString)).

(** Lines 81--132: the strict parse, and on failure the repair pass and a
    second strict parse. *)
Definition parseWithRepair (jsonString context : jsstring) : M jsval :=
  tryCatch (lift (JSON.parse jsonString))
    (fun initialError =>
       console WARN [Text (js "[Parser] Initial JSON.parse failed for "); Text context;
                     Text (js ". Attempting cleaning. Error: ");
                     Text (messageOf initialError)] ;;
       tryCatch
         (let cleanedString := cleanedString jsonString in
          (if jsstring_eqb cleanedString jsonString
           then console WARN [Text (js "[Parser] Newline cleaning did not modify the string for ");
                              Text context; Text (js ". The error might be different.")]
           else console LOG [Text (js "[Parser] Attempting parse after newline cleaning for ");
                             Text context; Text (js ".")]) ;;
          lift (JSON.parse cleanedString))
         (fun cleaningError =>
            console ERROR [Text (js "[Parser] JSON.parse failed even after cleaning for ");
                           Text context; Text (js ". Error: ");
                           Text (messageOf cleaningError)] ;;
            console ERROR [Text (js "[Parser] Final problematic string slice for ");
                           Text context; Text (js ": ");
                           Text (substring0 500 jsonString)] ;;
            ret VNull)).

(** The parameter is declared [string | undefined | null]; the type is
    erased at run time, and the callers pass what the gateway handed them.
    A truthy value that is not a string has no [replace] method: the call
    of line 64 throws, outside every [try] of the helper. *)
Definition extractAndParseJson (rawString : jsval) (context : jsstring)
  : M jsval :=
  if negb (truthy rawString) then
    console WARN [Text (js "[Parser] No raw string provided for context: ");
                  Text context] ;;
    ret VNull
  else
    match rawString with
    | VStr rawString =>
        let jsonString := stripFences rawString in
        if looksLikePlainText jsonString then
          console WARN [Text (js "[Parser] Raw string for "); Text context;
                        Text (js " looks like plain text/error, not JSON: ");
                        Text (substring0 100 jsonString); Text (js "...")] ;;
          ret VNull
        else parseWithRepair jsonString context
    | _ => throw notAFunction
    end.

(* ================================================================== *)
(** * Paper fetching (lines 235--316) *)
(* ================================================================== *)

(** The fields hold whatever the provider sent when it sent something
    truthy: the adapters do not check the declared field types. *)
Record ResearchPaper := {
  title : jsval;
  url : jsval;
  paperLink : jsval;
  abstract : jsval;
  citationCount : jsval;
  authors : jsval
}.

Definition SEMANTIC_SCHOLAR_API : jsstring :=
  js "https://api.semanticscholar.org/graph/v1/paper/search".
Definition OPENALEX_API : jsstring := js "https://api.openalex.org/works".
Definition CORE_API : jsstring := js "https://api.core.ac.uk/v3/search/works".
Definition CORE_API_KEY_PLACEHOLDER : jsstring := js "YOUR_CORE_API_KEY".
Definition MAX_RESULTS : jsval := VNum (numberOfN 10).

(* ------------------------------------------------------------------ *)
(** ** [invertAbstract] (lines 269--274) *)
(* ------------------------------------------------------------------ *)

(** [map[pos] = word] on the position-to-word object. *)
Fixpoint assign (map : list (Z * jsstring)) (pos : Z) (word : jsstring)
  : list (Z * jsstring) :=
  match map with
  | [] => [(pos, word)]
  | (p, w) :: rest =>
      if (p =? pos)%Z then (p, word) :: rest else (p, w) :: assign rest pos word
  end.

(** [map[pos]]. *)
Fixpoint wordAt (map : list (Z * jsstring)) (pos : Z) : option jsstring :=
  match map with
  | [] => None
  | (p, w) :: rest => if (p =? pos)%Z then Some w else wordAt rest pos
  end.

(** [xs.sort((a, b) => a - b)]: a stable sort by the sign of [a - b]. *)
Fixpoint insertSorted (a : Z) (sorted : list Z) : list Z :=
  match sorted with
  | [] => [a]
  | b :: rest => if (a <? b)%Z then a :: sorted else b :: insertSorted a rest
  end.

Definition sortNumeric (xs : list Z) : list Z :=
  fold_left (fun sorted a => insertSorted a sorted) xs [].

(** The loop of line 272: every word, in enumeration order, writes itself
    at each of its positions. *)
Definition positionMap (invertedIndex : list (jsstring * list Z))
  : list (Z * jsstring) :=
  fold_left
    (fun map entry =>
       fold_left (fun map pos => assign map pos (fst entry)) (snd entry) map)
    invertedIndex [].

(** [invertedIndex] lists the own properties in enumeration order; [None]
    stands for a falsy argument.  [Object.keys(map)] is taken in creation
    order: the numeric sort that follows makes its order immaterial. *)
Definition invertAbstract (invertedIndex : option (list (jsstring * list Z)))
  : jsstring :=
  match invertedIndex with
  | None => js "No abstract available"
  | Some entries =>
      let map := positionMap entries in
      join (js " ")
        (List.map (fun pos => match wordAt map pos with
                              | Some word => word
                              | None => []
                              end)
           (sortNumeric (List.map fst map)))
  end.

(** A position as [invertAbstract] is declared to receive it: a number
    whose value is an integer that binary64 holds exactly. *)
Definition asPosition (v : jsval) : option Z :=
  match v with
  | VNum n =>
      if (mantissa n =? 0)%N then Some 0%Z
      else if (0 <=? exponent n)%Z && (exponent n <=? 16)%Z then
        let z := (Z.of_N (mantissa n) * 10 ^ exponent n)%Z in
        if (z <=? 2 ^ 53)%Z then Some (if negative n then (- z)%Z else z) else None
      else None
  | _ => None
  end.

Fixpoint allSome {A} (xs : list (option A)) : option (list A) :=
  match xs with
  | [] => Some []
  | Some x :: rest =>
      match allSome rest with
      | Some ys => Some (x :: ys)
      | None => None
      end
  | None :: _ => None
  end.

(** A payload of the declared type [Record<string, number[]>], its entries
    in [for...in] order. *)
Definition asInvertedIndex (v : jsval) : option (list (jsstring * list Z)) :=
  match v with
  | VObj props =>
      allSome
        (List.map
           (fun kv => match snd kv with
                      | VArr positions =>
                          match allSome (List.map asPosition positions) with
                          | Some ps => Some (fst kv, ps)
                          | None => None
                          end
                      | _ => None
                      end) (ownProperties props))
  | _ => None
  end.

(* ------------------------------------------------------------------ *)
(** ** The result object and the orchestrator's local variables *)
(* ------------------------------------------------------------------ *)

Record ThesisRoadmapOutput := {
  thesisDescription : jsstring;
  stepByStep : jsval;
  relatedPapers : jsval;
  methodology : jsval;
  researchGapAnalysis : jsval;
  prosAndCons : jsval;
  error : option jsstring
}.

(** The [let] variables of lines 144--149.  The five raw texts are
    declared [string | null]; they hold what the stages returned. *)
Module Locals.

Record t := {
  stepByStepRaw : jsval;
  rankedPapersRaw : jsval;
  methodologyRaw : jsval;
  researchGapAnalysisRaw : jsval;
  prosAndConsRaw : jsval;
  relatedPapers : list ResearchPaper
}.

Definition initial : t :=
  {| stepByStepRaw := VNull; rankedPapersRaw := VNull; methodologyRaw := VNull;
     researchGapAnalysisRaw := VNull; prosAndConsRaw := VNull;
     relatedPapers := [] |}.

End Locals.

(** The body of the [try] block: a computation over the trace and the
    local variables.  When it throws, the variables keep what was assigned
    before. *)
Definition Body (A : Type) := Locals.t -> trace -> outcome A * Locals.t * trace.

Definition bodyRet {A} (a : A) : Body A := fun vars t => (Return a, vars, t).

Definition bodyBind {A B} (m : Body A) (k : A -> Body B) : Body B :=
  fun vars t =>
    match m vars t with
    | (Return a, vars', t') => k a vars' t'
    | (Throw e, vars', t') => (Throw e, vars', t')
    end.

(** [x = await m]: run [m], then assign its result. *)
Definition awaitInto {A} (m : Locals.t -> M A) (store : A -> Locals.t -> Locals.t)
  : Body unit :=
  fun vars t =>
    match m vars t with
    | (Return a, t') => (Return tt, store a vars, t')
    | (Throw e, t') => (Throw e, vars, t')
    end.

(** A step that reads the variables and assigns none. *)
Definition run {A} (m : Locals.t -> M A) : Body A :=
  fun vars t =>
    match m vars t with
    | (Return a, t') => (Return a, vars, t')
    | (Throw e, t') => (Throw e, vars, t')
    end.

Declare Scope body_scope.
Delimit Scope body_scope with body.
Notation "x <- c ;; k" := (bodyBind c (fun x => k))
  (at level 61, c at next level, right associativity) : body_scope.
Notation "c ;; k" := (bodyBind c (fun _ => k))
  (at level 61, right associativity) : body_scope.

Section Pipeline.

Variable W : World.
Variable PG : PromptGenerator.Templates.

(** [axios.get(url, config)]: the request is recorded and the world
    answers with [response.data]. *)
Definition axiosGet (r : request) : M jsval :=
  fun t => (axios_get W t r, t ++ [Request r]).

Definition axiosPost (r : request) : M (option Gemini.Response) :=
  fun t => (axios_post W t r, t ++ [Request r]).

(** [invertAbstract(paper.abstract_inverted_index)] on a truthy payload. *)
Definition invertAbstractOf (index : jsval) : outcome jsstring :=
  match asInvertedIndex index with
  | Some entries => Return (invertAbstract (Some entries))
  | None => invertAbstractUntyped W index
  end.

(** [xs?.map(f).join(", ")]: [undefined] when [xs] is nullish, a
    [TypeError] when [xs] is anything else without a [map] method. *)
Definition mapJoin (f : jsval -> outcome jsval) (keep : jsval -> bool)
    (xs : jsval) : outcome jsval :=
  match xs with
  | VUndefined | VNull => Return VUndefined
  | VArr elements =>
      obind (mapOutcome f elements)
        (fun ys => Return (VStr (joinValues (numberToString W) (js ", ")
                                   (filter keep ys))))
  | _ => Throw notAFunction
  end.

Local Open Scope outcome_scope.

(** The callback of line 240. *)
Definition semanticScholarPaper (paper : jsval) : outcome ResearchPaper :=
  title <- get paper (js "title") ;;
  url <- get paper (js "url") ;;
  abstract <- get paper (js "abstract") ;;
  citationCount <- get paper (js "citationCount") ;;
  authors <- get paper (js "authors") ;;
  names <- mapJoin (fun a => get a (js "name")) (fun _ => true) authors ;;
  Return {| title := or_else title (VStr (js "Untitled"));
            url := or_else url (VStr []);
            paperLink := or_else url (VStr []);
            abstract := or_else abstract (VStr (js "No abstract available"));
            citationCount := or_else citationCount (VNum (numberOfN 0));
            authors := or_else names (VStr (js "Unknown authors")) |}.

(** [paper.id.split('/').pop()]. *)
Definition lastSegment (id : jsval) : outcome jsstring :=
  match id with
  | VStr s => Return (last (split 47%N s) [])
  | VUndefined | VNull => Throw readOfNullish
  | _ => Throw notAFunction
  end.

(** The callback of line 256. *)
Definition openAlexPaper (paper : jsval) : outcome ResearchPaper :=
  display_name <- get paper (js "display_name") ;;
  id <- get paper (js "id") ;;
  url <- (if truthy id
          then seg <- lastSegment id ;;
               Return (VStr (js "https://openalex.org/" ++ seg))
          else Return (VStr [])) ;;
  primary_location <- get paper (js "primary_location") ;;
  landing_page_url <- getOpt primary_location (js "landing_page_url") ;;
  pdf_url <- (if truthy landing_page_url then Return VUndefined
              else getOpt primary_location (js "pdf_url")) ;;
  index <- get paper (js "abstract_inverted_index") ;;
  abstract <- (if truthy index
               then text <- invertAbstractOf index ;; Return (VStr text)
               else Return (VStr (js "No abstract available"))) ;;
  cited_by_count <- get paper (js "cited_by_count") ;;
  authorships <- get paper (js "authorships") ;;
  names <- mapJoin
             (fun a => author <- get a (js "author") ;;
                       getOpt author (js "display_name"))
             truthy authorships ;;
  Return {| title := or_else display_name (VStr (js "Untitled"));
            url := url;
            paperLink := or_else landing_page_url (or_else pdf_url (VStr []));
            abstract := abstract;
            citationCount := or_else cited_by_count (VNum (numberOfN 0));
            authors := or_else names (VStr (js "Unknown authors")) |}.

(** [xs?.join(", ")]. *)
Definition joinOpt (xs : jsval) : outcome jsval :=
  match xs with
  | VUndefined | VNull => Return VUndefined
  | VArr elements =>
      Return (VStr (joinValues (numberToString W) (js ", ") elements))
  | _ => Throw notAFunction
  end.

(** The callback of line 280. *)
Definition corePaper (paper : jsval) : outcome ResearchPaper :=
  title <- get paper (js "title") ;;
  doi <- get paper (js "doi") ;;
  downloadUrl <- get paper (js "downloadUrl") ;;
  abstract <- get paper (js "abstract") ;;
  citationCount <- get paper (js "citationCount") ;;
  authors <- get paper (js "authors") ;;
  names <- joinOpt authors ;;
  let doiUrl := VStr (js "https://doi.org/" ++ toString (numberToString W) doi) in
  Return {| title := or_else title (VStr (js "Untitled"));
            url := if truthy doi then doiUrl else or_else downloadUrl (VStr []);
            paperLink := or_else downloadUrl
                           (if truthy doi then doiUrl else VStr []);
            abstract := or_else abstract (VStr (js "No abstract available"));
            citationCount := nullish_else citationCount (VNum (numberOfN 0));
            authors := or_else names (VStr (js "Unknown authors")) |}.

Local Close Scope outcome_scope.

(** The three-way test every adapter makes on the list it was sent:
    a non-empty array is mapped; something truthy whose [length] is [0]
    gives no papers; anything else is an invalid format. *)
Definition normalizeResults (provider : jsstring)
    (toPaper : jsval -> outcome ResearchPaper) (results : jsval)
  : M (list ResearchPaper) :=
  match results with
  | VArr (first :: more) => lift (mapOutcome toPaper (first :: more))
  | _ =>
      if truthy results
         && match get results (js "length") with
            | Return len => isNumberZero len
            | Throw _ => false
            end
      then console LOG [Text provider; Text (js " returned 0 results.")] ;;
           ret []
      else throw (Error (js "Invalid data format received from " ++ provider))
  end.

Definition getRequest (url : jsstring) (params : list (jsstring * jsval))
    (headers : list (jsstring * jsstring)) : request :=
  {| req_method := js "GET"; req_url := url; req_body := VUndefined;
     req_params := params; req_headers := headers; req_timeout := None |}.

Definition fetchFromSemanticScholar (query : jsstring) : M (list ResearchPaper) :=
  data <- axiosGet
            (getRequest SEMANTIC_SCHOLAR_API
               [(js "query", VStr query);
                (js "fields", VStr (js "title,url,abstract,citationCount,authors"));
                (js "limit", MAX_RESULTS)] []) ;;
  results <- lift (get data (js "data")) ;;
  normalizeResults (js "Semantic Scholar") semanticScholarPaper results.

Definition fetchFromOpenAlex (query : jsstring) : M (list ResearchPaper) :=
  data <- axiosGet
            (getRequest OPENALEX_API
               [(js "search", VStr query); (js "per_page", MAX_RESULTS)] []) ;;
  results <- lift (get data (js "results")) ;;
  normalizeResults (js "OpenAlex") openAlexPaper results.

(** Line 14: [process.env.CORE_API_KEY || "YOUR_CORE_API_KEY"]. *)
Definition CORE_API_KEY : jsstring :=
  match env_CORE_API_KEY W with
  | Some key => if jsstring_eqb key [] then CORE_API_KEY_PLACEHOLDER else key
  | None => CORE_API_KEY_PLACEHOLDER
  end.

Definition fetchFromCORE (query : jsstring) : M (list ResearchPaper) :=
  if jsstring_eqb CORE_API_KEY []
     || jsstring_eqb CORE_API_KEY CORE_API_KEY_PLACEHOLDER
  then console WARN [Text (js "CORE API Key not configured.")] ;; ret []
  else
    data <- axiosGet
              (getRequest CORE_API
                 [(js "q", VStr query); (js "limit", MAX_RESULTS)]
                 [(js "Authorization", js "Bearer " ++ CORE_API_KEY)]) ;;
    results <- lift (get data (js "results")) ;;
    normalizeResults (js "CORE") corePaper results.

Record PaperProvider := {
  name : jsstring;
  fetchFunction : jsstring -> M (list ResearchPaper)
}.

Definition providers : list PaperProvider :=
  [ {| name := js "Semantic Scholar"; fetchFunction := fetchFromSemanticScholar |};
    {| name := js "OpenAlex"; fetchFunction := fetchFromOpenAlex |};
    {| name := js "CORE"; fetchFunction := fetchFromCORE |} ].

(** The [catch] block of lines 306--313: it only logs. *)
Definition logFetchError (provider : PaperProvider) (err : exn) : M unit :=
  match err with
  | AxiosError _ (Some (status, data)) =>
      (if jsstring_eqb (name provider) (js "Semantic Scholar") && (status =? 429)%N
       then console WARN [Text (js "Rate limit hit for "); Text (name provider);
                          Text (js ". Falling back...")]
       else ret tt) ;;
      console ERROR [Text (js "Error fetching from "); Text (name provider);
                     Text (js ":"); Text (js "Status "); Count status;
                     Text (js ": "); Json data]
  | _ =>
      console ERROR [Text (js "Error fetching from "); Text (name provider);
                     Text (js ":"); Text (messageOf err)]
  end.

(** One turn of the loop of lines 300--314: [Some results] is the early
    [return results]; [None] goes on to the next provider. *)
Definition attempt (provider : PaperProvider) (thesisDescription : jsstring)
  : M (option (list ResearchPaper)) :=
  console LOG [Text (js "Attempting to fetch from "); Text (name provider);
               Text (js "...")] ;;
  tryCatch
    (results <- fetchFunction provider thesisDescription ;;
     if (0 <? length results)%nat
     then console LOG [Text (js "Successfully fetched ");
                       Count (N.of_nat (length results));
                       Text (js " papers from "); Text (name provider);
                       Text (js ".")] ;;
          ret (Some results)
     else console LOG [Text (name provider);
                       Text (js " returned successfully but found 0 relevant papers.")] ;;
          ret None)
    (fun err => logFetchError provider err ;; ret None).

Fixpoint fallbackChain (remaining : list PaperProvider)
    (thesisDescription : jsstring) : M (list ResearchPaper) :=
  match remaining with
  | [] =>
      console WARN [Text (js "All paper providers failed or returned no results.")] ;;
      ret []
  | provider :: rest =>
      found <- attempt provider thesisDescription ;;
      match found with
      | Some results => ret results
      | None => fallbackChain rest thesisDescription
      end
  end.

Definition fetchRelatedPapers (thesisDescription : jsstring)
  : M (list ResearchPaper) :=
  fallbackChain providers thesisDescription.

(* ================================================================== *)
(** * The gateway to the generative-text service (lines 378--454) *)
(* ================================================================== *)

Definition GEMINI_URL : jsstring :=
  js "https://generativelanguage.googleapis.com/v1beta/models/gemini-1.5-flash-latest:generateContent".

Definition geminiRequest (prompt : jsstring) : request :=
  {| req_method := js "POST";
     req_url := GEMINI_URL;
     req_body :=
       VObj [(js "contents",
              VArr [VObj [(js "role", VStr (js "user"));
                          (js "parts", VArr [VObj [(js "text", VStr prompt)]])]]);
             (js "generationConfig",
              VObj [(js "temperature", VNum (mkNumber false 6 (-1)));
                    (js "responseMimeType", VStr (js "application/json"))])];
     req_params := [(js "key", VStr (env_GOOGLE_API_KEY W))];
     req_headers := [(js "Content-Type", js "application/json")];
     req_timeout := Some 60000%N |}.

(** A string that is present and not empty. *)
Definition truthyString (s : option jsstring) : option jsstring :=
  match s with
  | Some (c :: r) => Some (c :: r)
  | _ => None
  end.

(** [response.data.promptFeedback?.blockReason]. *)
Definition blockReasonOf (data : Gemini.Response) : option jsstring :=
  match Gemini.promptFeedback data with
  | Some feedback => Gemini.blockReason feedback
  | None => None
  end.

(** [candidate.content?.parts?.[0]?.text]. *)
Definition textOf (candidate : Gemini.Candidate) : jsval :=
  match Gemini.content candidate with
  | Some content =>
      match Gemini.parts content with
      | Some (part :: _) => Gemini.text part
      | _ => VUndefined
      end
  | None => VUndefined
  end.

(** The label every failure of the gateway leaves with. *)
Definition gatewayError (context : jsstring) : exn :=
  Error (js "Failed to get response from AI for " ++ context ++ js ".").

(** Lines 411--447: the checks on the envelope, in order. *)
Definition checkEnvelope (data : option Gemini.Response) (context : jsstring)
  : M jsval :=
  match data with
  | None =>
      console ERROR [Text (js "Error calling Gemini API for "); Text context;
                     Text (js ": No response data received.")] ;;
      throw (Error (js "Empty response from Gemini API"))
  | Some data =>
      match truthyString (blockReasonOf data) with
      | Some reason =>
          console ERROR [Text (js "Error calling Gemini API for "); Text context;
                         Text (js ": Prompt blocked. Reason: "); Text reason] ;;
          console ERROR [Text (js "Safety Ratings: ");
                         Json (match Gemini.promptFeedback data with
                               | Some feedback => Gemini.safetyRatings feedback
                               | None => VUndefined
                               end)] ;;
          throw (Error (js "AI request blocked due to safety settings: " ++ reason))
      | None =>
          match Gemini.candidates data with
          | None | Some [] =>
              console ERROR [Text (js "Error calling Gemini API for "); Text context;
                             Text (js ": No candidates received. Finish Reason: ");
                             Text (js "UNKNOWN")] ;;
              throw (Error (js "No response generated by AI. Reason: UNKNOWN"))
          | Some (candidate :: _) =>
              match truthyString (Gemini.finishReason candidate) with
              | Some reason =>
                  if jsstring_eqb reason (js "STOP") then ret tt
                  else console WARN [Text (js "Gemini API for "); Text context;
                                     Text (js " finished with reason: "); Text reason;
                                     Text (js ". Output might be incomplete.")]
              | None => ret tt
              end ;;
              if truthy (textOf candidate) then
                let rawText := textOf candidate in
                ret rawText
              else
                console ERROR [Text (js "Error calling Gemini API for "); Text context;
                               Text (js ": Missing text content in response candidate.")] ;;
                console ERROR [Text (js "Received candidate: "); Candidate candidate] ;;
                throw (Error (js "Invalid response structure from Gemini API (missing text)"))
          end
      end
  end.

(** The first argument after the label in the [catch] block's log call. *)
Definition describeFailure (error : exn) : logArg :=
  match error with
  | AxiosError message (Some (_, data)) =>
      if truthy data then Json data else Text message
  | _ => Text (messageOf error)
  end.

Definition callGemini (prompt context : jsstring) : M jsval :=
  console LOG [Text (js "Calling Gemini API for: "); Text context] ;;
  tryCatch
    (data <- axiosPost (geminiRequest prompt) ;;
     checkEnvelope data context)
    (fun error =>
       console ERROR [Text (js "Error calling Gemini API for "); Text context;
                      Text (js ":"); describeFailure error] ;;
       throw (gatewayError context)).

(* ================================================================== *)
(** * The stages that use the papers (lines 322--375) *)
(* ================================================================== *)

(** [error.message || error]. *)
Definition messageOrError (error : exn) : logArg :=
  match messageOf error with
  | [] => Thrown error
  | message => Text message
  end.

Definition paperDetails (p : ResearchPaper) : jsval :=
  VObj [(js "title", title p); (js "abstract", abstract p); (js "url", url p);
        (js "paperLink", paperLink p); (js "citationCount", citationCount p);
        (js "authors", authors p)].

Definition errorMarker (message : jsstring) : jsval :=
  VObj [(js "error", VStr message)].

(** Lines 328--334: the prompt of the ranking stage. *)
Definition rankPrompt (thesisDescription : jsstring) (papers : list ResearchPaper)
  : jsstring :=
  let paperDetailsJson :=
    JSON.stringifyIndent2 (numberToString W) (VArr (map paperDetails papers)) in
  PromptGenerator.rankPapers PG thesisDescription paperDetailsJson.

Definition rankingFailed : jsstring :=
  JSON.stringify (numberToString W)
    (VArr [errorMarker (js "Failed to prepare data for research ranking.")]).

Definition rankAndSummarizePapersLLM (thesisDescription : jsstring)
    (papers : list ResearchPaper) : M jsval :=
  tryCatch
    (let prompt := rankPrompt thesisDescription papers in
     callGemini prompt (js "rank and summarize papers"))
    (fun error =>
       console ERROR [Text (js "Error preparing data for rankAndSummarizePapersLLM:");
                      messageOrError error] ;;
       ret (VStr rankingFailed)).

Definition SEPARATOR : jsstring := [LF; LF] ++ js "---" ++ [LF; LF].

(** [relatedPapers.map((paper) => paper.abstract).join(SEPARATOR)]. *)
Definition joinAbstracts (relatedPapers : list ResearchPaper) : jsstring :=
  joinValues (numberToString W) SEPARATOR (map abstract relatedPapers).

(** The test [!Array.isArray(relatedPapers)] of line 347 cannot hold: the
    argument is the list the orchestrator holds. *)
Definition gapPrompt (relatedPapers : list ResearchPaper)
    (thesisDescription : jsstring) : jsstring :=
  let abstracts := joinAbstracts relatedPapers in
  PromptGenerator.researchGaps PG abstracts thesisDescription.

Definition gapAnalysisFailed : jsstring :=
  JSON.stringify (numberToString W)
    (errorMarker (js "Failed to prepare data for research gap analysis.")).

Definition generateResearchGapAnalysisLLM (relatedPapers : list ResearchPaper)
    (thesisDescription : jsstring) : M jsval :=
  tryCatch
    (let prompt := gapPrompt relatedPapers thesisDescription in
     callGemini prompt (js "research gap analysis"))
    (fun error =>
       console ERROR [Text (js "Error preparing data for generateResearchGapAnalysisLLM:");
                      messageOrError error] ;;
       ret (VStr gapAnalysisFailed)).

Definition prosConsPrompt (relatedPapers : list ResearchPaper)
    (thesisDescription : jsstring) : jsstring :=
  let abstracts := joinAbstracts relatedPapers in
  PromptGenerator.prosCons PG abstracts thesisDescription.

Definition prosConsFailed : jsstring :=
  JSON.stringify (numberToString W)
    (errorMarker (js "Failed to prepare data for pros and cons analysis.")).

Definition generateProsAndConsLLM (relatedPapers : list ResearchPaper)
    (thesisDescription : jsstring) : M jsval :=
  tryCatch
    (let prompt := prosConsPrompt relatedPapers thesisDescription in
     callGemini prompt (js "pros and cons"))
    (fun error =>
       console ERROR [Text (js "Error preparing data for generateProsAndConsLLM:");
                      messageOrError error] ;;
       ret (VStr prosConsFailed)).

(* ================================================================== *)
(** * The orchestrator (lines 143--226) *)
(* ================================================================== *)

(** [[!a && "label", ...].filter(Boolean).join(', ')]. *)
Definition errorDetails (sections : list (jsval * jsstring)) : jsstring :=
  join (js ", ")
    (map snd (filter (fun section => negb (truthy (fst section))) sections)).

(** Lines 152--211. *)
Definition tryBlock (thesisDescription : jsstring) : Body ThesisRoadmapOutput :=
  (awaitInto
     (fun _ => callGemini (PromptGenerator.stepByStep PG thesisDescription)
                 (js "step-by-step guide"))
     (fun raw vars =>
        {| Locals.stepByStepRaw := raw;
           Locals.rankedPapersRaw := Locals.rankedPapersRaw vars;
           Locals.methodologyRaw := Locals.methodologyRaw vars;
           Locals.researchGapAnalysisRaw := Locals.researchGapAnalysisRaw vars;
           Locals.prosAndConsRaw := Locals.prosAndConsRaw vars;
           Locals.relatedPapers := Locals.relatedPapers vars |}) ;;
   awaitInto
     (fun _ => fetchRelatedPapers thesisDescription)
     (fun papers vars =>
        {| Locals.stepByStepRaw := Locals.stepByStepRaw vars;
           Locals.rankedPapersRaw := Locals.rankedPapersRaw vars;
           Locals.methodologyRaw := Locals.methodologyRaw vars;
           Locals.researchGapAnalysisRaw := Locals.researchGapAnalysisRaw vars;
           Locals.prosAndConsRaw := Locals.prosAndConsRaw vars;
           Locals.relatedPapers := papers |}) ;;
   awaitInto
     (fun vars => rankAndSummarizePapersLLM thesisDescription
                    (Locals.relatedPapers vars))
     (fun raw vars =>
        {| Locals.stepByStepRaw := Locals.stepByStepRaw vars;
           Locals.rankedPapersRaw := raw;
           Locals.methodologyRaw := Locals.methodologyRaw vars;
           Locals.researchGapAnalysisRaw := Locals.researchGapAnalysisRaw vars;
           Locals.prosAndConsRaw := Locals.prosAndConsRaw vars;
           Locals.relatedPapers := Locals.relatedPapers vars |}) ;;
   awaitInto
     (fun _ => callGemini (PromptGenerator.methodology PG thesisDescription)
                 (js "methodology"))
     (fun raw vars =>
        {| Locals.stepByStepRaw := Locals.stepByStepRaw vars;
           Locals.rankedPapersRaw := Locals.rankedPapersRaw vars;
           Locals.methodologyRaw := raw;
           Locals.researchGapAnalysisRaw := Locals.researchGapAnalysisRaw vars;
           Locals.prosAndConsRaw := Locals.prosAndConsRaw vars;
           Locals.relatedPapers := Locals.relatedPapers vars |}) ;;
   awaitInto
     (fun vars => generateResearchGapAnalysisLLM (Locals.relatedPapers vars)
                    thesisDescription)
     (fun raw vars =>
        {| Locals.stepByStepRaw := Locals.stepByStepRaw vars;
           Locals.rankedPapersRaw := Locals.rankedPapersRaw vars;
           Locals.methodologyRaw := Locals.methodologyRaw vars;
           Locals.researchGapAnalysisRaw := raw;
           Locals.prosAndConsRaw := Locals.prosAndConsRaw vars;
           Locals.relatedPapers := Locals.relatedPapers vars |}) ;;
   awaitInto
     (fun vars => generateProsAndConsLLM (Locals.relatedPapers vars)
                    thesisDescription)
     (fun raw vars =>
        {| Locals.stepByStepRaw := Locals.stepByStepRaw vars;
           Locals.rankedPapersRaw := Locals.rankedPapersRaw vars;
           Locals.methodologyRaw := Locals.methodologyRaw vars;
           Locals.researchGapAnalysisRaw := Locals.researchGapAnalysisRaw vars;
           Locals.prosAndConsRaw := raw;
           Locals.relatedPapers := Locals.relatedPapers vars |}) ;;
   run (fun _ => console LOG [Text (js "--- Parsing LLM Responses ---")]) ;;
   parsedStepByStep <-
     run (fun vars => extractAndParseJson (Locals.stepByStepRaw vars)
                        (js "stepByStep")) ;;
   parsedRankedPapers <-
     run (fun vars => extractAndParseJson (Locals.rankedPapersRaw vars)
                        (js "relatedPapers (ranked)")) ;;
   parsedMethodology <-
     run (fun vars => extractAndParseJson (Locals.methodologyRaw vars)
                        (js "methodology")) ;;
   parsedResearchGaps <-
     run (fun vars => extractAndParseJson (Locals.researchGapAnalysisRaw vars)
                        (js "researchGapAnalysis")) ;;
   parsedProsCons <-
     run (fun vars => extractAndParseJson (Locals.prosAndConsRaw vars)
                        (js "prosAndCons")) ;;
   run (fun _ => console LOG [Text (js "--- Parsing Complete ---")]) ;;
   if negb (truthy parsedStepByStep) || negb (truthy parsedRankedPapers)
      || negb (truthy parsedMethodology) || negb (truthy parsedResearchGaps)
      || negb (truthy parsedProsCons)
   then
     run (fun _ => console ERROR
            [Text (js "One or more sections failed to parse correctly from LLM response.")]) ;;
     bodyRet
       {| thesisDescription := thesisDescription;
          stepByStep := parsedStepByStep;
          relatedPapers := parsedRankedPapers;
          methodology := parsedMethodology;
          researchGapAnalysis := parsedResearchGaps;
          prosAndCons := parsedProsCons;
          error :=
            Some (js "Failed to parse the following sections from the AI: "
                  ++ errorDetails
                       [(parsedStepByStep, js "step-by-step guide");
                        (parsedRankedPapers, js "ranked papers");
                        (parsedMethodology, js "methodology");
                        (parsedResearchGaps, js "research gaps");
                        (parsedProsCons, js "pros and cons")]
                  ++ js ". The structure might be invalid.") |}
   else
     bodyRet
       {| thesisDescription := thesisDescription;
          stepByStep := parsedStepByStep;
          relatedPapers := parsedRankedPapers;
          methodology := parsedMethodology;
          researchGapAnalysis := parsedResearchGaps;
          prosAndCons := parsedProsCons;
          error := None |})%body.

(** Lines 213--225: the top-level [catch]. *)
Definition catchBlock (thesisDescription : jsstring) (vars : Locals.t)
    (err : exn) : M ThesisRoadmapOutput :=
  console ERROR [Text (js "Error generating thesis roadmap:"); messageOrError err] ;;
  onStepByStep <- extractAndParseJson (Locals.stepByStepRaw vars)
                    (js "stepByStep (on error)") ;;
  onRankedPapers <- extractAndParseJson (Locals.rankedPapersRaw vars)
                      (js "relatedPapers (on error)") ;;
  onMethodology <- extractAndParseJson (Locals.methodologyRaw vars)
                     (js "methodology (on error)") ;;
  onResearchGaps <- extractAndParseJson (Locals.researchGapAnalysisRaw vars)
                      (js "researchGapAnalysis (on error)") ;;
  onProsCons <- extractAndParseJson (Locals.prosAndConsRaw vars)
                  (js "prosAndCons (on error)") ;;
  ret {| thesisDescription := thesisDescription;
         stepByStep := onStepByStep;
         relatedPapers := onRankedPapers;
         methodology := onMethodology;
         researchGapAnalysis := onResearchGaps;
         prosAndCons := onProsCons;
         error :=
           Some (js "Failed to generate thesis roadmap: "
                 ++ match messageOf err with
                    | [] => js "Unknown error"
                    | message => message
                    end) |}.

Definition generateThesisRoadmap (thesisDescription : jsstring)
  : M ThesisRoadmapOutput :=
  fun t =>
    match tryBlock thesisDescription Locals.initial t with
    | (Return roadmap, _, t') => (Return roadmap, t')
    | (Throw err, vars, t') => catchBlock thesisDescription vars err t'
    end.

End Pipeline.

(* ================================================================== *)
(** * The HTTP controller ([controllers/thesisController.ts])

    [createThesisRoadmap] is the one caller of [generateThesisRoadmap]:
    the handler of [POST /api/thesis/generate]. *)
(* ================================================================== *)

(** What [res.status(code).json(body)] sends; [res.json(body)] alone sends
    with status 200. *)
Record response := {
  statusCode : N;
  payload : jsval
}.

(** A handler runs over the trace and the list of responses sent so far on
    its [res] object. *)
Definition Handler (A : Type) := list response -> M (A * list response).

(** On every path of the controller the response is the first one sent and
    its body is plain data, so that sending returns. *)
Definition respond (code : N) (body : jsval) : Handler unit :=
  fun sent => ret (tt, sent ++ [ {| statusCode := code; payload := body |} ]).

(** The object [generateThesisRoadmap] resolves with; the [error] key is
    there only on the paths that set it. *)
Definition roadmapObject (roadmap : ThesisRoadmapOutput) : jsval :=
  VObj ([(js "thesisDescription", VStr (thesisDescription roadmap));
         (js "stepByStep", stepByStep roadmap);
         (js "relatedPapers", relatedPapers roadmap);
         (js "methodology", methodology roadmap);
         (js "researchGapAnalysis", researchGapAnalysis roadmap);
         (js "prosAndCons", prosAndCons roadmap)]
        ++ match error roadmap with
           | Some message => [(js "error", VStr message)]
           | None => []
           end).

Section Controller.

Variable W : World.
Variable PG : PromptGenerator.Templates.

(** [req.body] is of type [any].  What [generateThesisRoadmap] does with
    an argument that is truthy and not a string lies outside its declared
    parameter type and is left open. *)
Variable generateThesisRoadmapUntyped : jsval -> M jsval.

Definition createThesisRoadmap (body : jsval) : Handler unit :=
  fun sent =>
    tryCatch
      (thesisDescription <- lift (get body (js "thesisDescription")) ;;
       if negb (truthy thesisDescription)
       then respond 400
              (VObj [(js "message", VStr (js "Thesis description is required"))]) sent
       else
         roadmap <- match thesisDescription with
                    | VStr topic =>
                        roadmap <- generateThesisRoadmap W PG topic ;;
                        ret (roadmapObject roadmap)
                    | other => generateThesisRoadmapUntyped other
                    end ;;
         respond 200 (VObj [(js "roadmap", roadmap)]) sent)
      (fun error =>
         console ERROR [Text (js "Error generating thesis roadmap:"); Thrown error] ;;
         respond 500
           (VObj [(js "message", VStr (js "Failed to generate thesis roadmap"))]) sent).

End Controller.

(* ================================================================== *)
(** * Authentication ([controllers/authController.ts], [models/User.ts]
      and the [authenticateUser] middleware)

    The handlers are glue between Express, Mongoose, bcrypt and
    jsonwebtoken.  Those libraries are part of the world: each of their
    calls is answered by an oracle that may depend on what happened before
    and may throw.  What is modelled is the control flow of the handlers:
    which calls they make, in which order, and what they send. *)
(* ================================================================== *)

Module Auth.

(** A stored user document, and the document [new User({ ... })] builds. *)
Record User := {
  id : jsstring;
  storedPassword : jsval
}.

Record NewUser := {
  username : jsval;
  email : jsval;
  password : jsval
}.

(** The options of [res.cookie] at lines 57--62. *)
Record CookieOptions := {
  httpOnly : bool;
  secure : bool;
  sameSite : jsstring;
  maxAge : N
}.

Inductive logArg :=
| Text (s : jsstring)
| Value (v : jsval)
| Document (user : option User)
| Flag (b : bool).

(** What a handler does to the outside: console output, a database query
    or insert, a cookie set or cleared, a JSON response with its status
    (the body holds a [message] and, in one place, the caught error), and a
    call of [next]. *)
Inductive event :=
| Log (args : list logArg)
| FindOne (email : jsval)
| Insert (doc : NewUser)
| Cookie (name value : jsstring) (options : CookieOptions)
| ClearCookie (name : jsstring)
| Json (status : N) (message : jsstring) (caught : option exn)
| Next (error : option exn).

(** The trace of a request, and whether its response has been sent. *)
Record state := {
  events : list event;
  headersSent : bool
}.

Record World := {
  (** Mongoose: the query, the validation that [save] starts with, its
      change tracking, and the insert that [save] ends with. *)
  User_findOne : list event -> jsval -> outcome (option User);
  validate : list event -> NewUser -> outcome unit;
  isModified_password : NewUser -> bool;
  insertOne : list event -> NewUser -> outcome unit;
  (** bcrypt. *)
  bcrypt_genSalt : list event -> N -> outcome jsstring;
  bcrypt_hash : list event -> jsval -> jsstring -> outcome jsstring;
  bcrypt_compare : list event -> jsval -> jsval -> outcome bool;
  (** jsonwebtoken, with the secret it is given. *)
  jwt_sign : list event -> jsstring -> option jsstring -> outcome jsstring;
  jwt_verify : list event -> jsval -> option jsstring -> outcome jsval;
  (** Express: what [res.json] does on a response that was already sent
      (Express 4 throws). *)
  json_again : outcome unit;
  (** The environment. *)
  env_JWT_SECRET : option jsstring;
  env_NODE_ENV : option jsstring
}.

Definition M (A : Type) := state -> outcome A * state.

Definition ret {A} (a : A) : M A := fun s => (Return a, s).

Definition throw {A} (e : exn) : M A := fun s => (Throw e, s).

Definition bind {A B} (m : M A) (k : A -> M B) : M B :=
  fun s =>
    match m s with
    | (Return a, s') => k a s'
    | (Throw e, s') => (Throw e, s')
    end.

Definition tryCatch {A} (m : M A) (handler : exn -> M A) : M A :=
  fun s =>
    match m s with
    | (Return a, s') => (Return a, s')
    | (Throw e, s') => handler e s'
    end.

Definition lift {A} (o : outcome A) : M A := fun s => (o, s).

Definition emit (e : event) : M unit :=
  fun s => (Return tt, {| events := events s ++ [e]; headersSent := headersSent s |}).

(** A call of a library: it is answered from the history. *)
Definition ask {A} (oracle : list event -> outcome A) : M A :=
  fun s => (oracle (events s), s).

Declare Scope auth_scope.
Delimit Scope auth_scope with auth.
Notation "x <- c ;; k" := (bind c (fun x => k))
  (at level 61, c at next level, right associativity) : auth_scope.
Notation "c ;; k" := (bind c (fun _ => k))
  (at level 61, right associativity) : auth_scope.

Local Open Scope auth_scope.

Section Handlers.

Variable W : World.

(** [res.status(code).json({ message })], or with the caught error beside
    the message.  The first response of a request is sent; a later one
    reaches nobody. *)
Definition json (status : N) (message : jsstring) (caught : option exn) : M unit :=
  fun s =>
    if headersSent s
    then (json_again W, s)
    else (Return tt,
          {| events := events s ++ [Json status message caught]; headersSent := true |}).

(** [User.findOne({ email })]. *)
Definition findOne (email : jsval) : M (option User) :=
  emit (FindOne email) ;; ask (fun history => User_findOne W history email).

(** ** [models/User.ts] *)

(** The [pre-save] hook of lines 19--29: [next()] lets the save go on
    with the document as it then is, [next(error)] makes it fail. *)
Definition preSave (doc : NewUser) : M NewUser :=
  if negb (isModified_password W doc) then ret doc
  else
    tryCatch
      (salt <- ask (fun history => bcrypt_genSalt W history 10) ;;
       hash <- ask (fun history => bcrypt_hash W history (password doc) salt) ;;
       ret {| username := username doc; email := email doc;
              password := VStr hash |})
      (fun error => throw error).

(** [user.save()]: Mongoose validates against the schema, runs the hook,
    and inserts. *)
Definition save (doc : NewUser) : M unit :=
  ask (fun history => validate W history doc) ;;
  hashed <- preSave doc ;;
  emit (Insert hashed) ;;
  ask (fun history => insertOne W history hashed).

(** [comparePassword] of lines 32--35. *)
Definition comparePassword (user : User) (candidatePassword : jsval) : M bool :=
  emit (Log [Text (js "Comparing:"); Value candidatePassword;
             Value (storedPassword user)]) ;;
  ask (fun history =>
         bcrypt_compare W history candidatePassword (storedPassword user)).

(** ** [controllers/authController.ts] *)

(** Lines 6--8. *)
Definition generateToken (userId : jsstring) : M jsstring :=
  ask (fun history => jwt_sign W history userId (env_JWT_SECRET W)).

(** Lines 11--31.  Neither [if] returns: the handler goes on after it has
    answered. *)
Definition registerUser (body : jsval) : M unit :=
  tryCatch
    (username <- lift (get body (js "username")) ;;
     email <- lift (get body (js "email")) ;;
     password <- lift (get body (js "password")) ;;
     (if negb (truthy username) || negb (truthy email) || negb (truthy password)
      then json 400 (js "All fields are required.") None
      else ret tt) ;;
     existingUser <- findOne email ;;
     match existingUser with
     | Some _ => json 400 (js "User already exists.") None
     | None => ret tt
     end ;;
     save {| username := username; email := email; password := password |} ;;
     json 201 (js "User registered successfully!") None)
    (fun error => emit (Next (Some error))).

Definition cookieOptions : CookieOptions :=
  {| httpOnly := true;
     secure := match env_NODE_ENV W with
               | Some mode => jsstring_eqb mode (js "production")
               | None => false
               end;
     sameSite := js "strict";
     maxAge := 3600000 |}.

(** Lines 34--69.  [res.cookie] comes before any response of the handler:
    it finds the response as the handler did. *)
Definition loginUser (body : jsval) : M unit :=
  tryCatch
    (emit (Log [Text (js "Login attempt:"); Value body]) ;;
     email <- lift (get body (js "email")) ;;
     password <- lift (get body (js "password")) ;;
     user <- findOne email ;;
     emit (Log [Text (js "User found:"); Document user]) ;;
     match user with
     | None => json 400 (js "Invalid credentials.") None
     | Some user =>
         isMatch <- comparePassword user password ;;
         emit (Log [Text (js "Password match:"); Flag isMatch]) ;;
         if negb isMatch then json 400 (js "Invalid credentials.") None
         else
           token <- generateToken (id user) ;;
           emit (Cookie (js "token") token cookieOptions) ;;
           json 200 (js "Login successful") None
     end)
    (fun error => json 500 (js "Server error") (Some error)).

(** Lines 72--75. *)
Definition logoutUser : M unit :=
  emit (ClearCookie (js "token")) ;;
  json 200 (js "User logged out successfully!") None.

(** ** The [authenticateUser] middleware

    It is synchronous and what it throws leaves it.  The result is the
    user id it attached to the request, if it did. *)
Definition authenticateUser (cookies : jsval) : M (option jsval) :=
  token <- lift (get cookies (js "token")) ;;
  (if negb (truthy token)
   then json 401 (js "Not authorized, token missing") None
   else ret tt) ;;
  tryCatch
    (decoded <- ask (fun history => jwt_verify W history token (env_JWT_SECRET W)) ;;
     user <- lift (get decoded (js "id")) ;;
     emit (Next None) ;;
     ret (Some user))
    (fun _ =>
       json 401 (js "Not authorized, token invalid") None ;;
       ret None).

End Handlers.

(** A request starts with nothing done and nothing sent. *)
Definition fresh : state := {| events := []; headersSent := false |}.

End Auth.

(* ================================================================== *)
(** * Definitions used to state the properties *)
(* ================================================================== *)

(** The values of the declared type [string | undefined | null] of the
    helper's parameter. *)
Inductive maybeString :=
| Null
| Undefined
| Str (s : jsstring).

Definition valueOf (rawString : maybeString) : jsval :=
  match rawString with
  | Null => VNull
  | Undefined => VUndefined
  | Str s => VStr s
  end.

(** A value the helper can take: a string, or anything falsy. *)
Definition stringOrFalsy (v : jsval) : bool :=
  match v with
  | VStr _ => true
  | _ => negb (truthy v)
  end.

(** What [extractAndParseJson] returns, when it returns, as a function of
    its input. *)
Definition extracted (rawString : jsval) : jsval :=
  match rawString with
  | VStr [] => VNull
  | VStr s =>
      let jsonString := stripFences s in
      if looksLikePlainText jsonString then VNull
      else match JSON.parse jsonString with
           | Return v => v
           | Throw _ =>
               match JSON.parse (cleanedString jsonString) with
               | Return v => v
               | Throw _ => VNull
               end
           end
  | _ => VNull
  end.

(** The truncated text of the specification: an array whose one object is
    followed by a comma and the closing bracket. *)
Definition truncatedExample : jsstring :=
  js "[{" ++ [DQUOTE] ++ js "a" ++ [DQUOTE] ++ js ":1,]".

(** A fenced text: one opening marker line, the text, one closing marker
    line. *)
Definition fenced (s : jsstring) : jsstring :=
  fenceJson ++ [LF] ++ s ++ [LF] ++ fence.

(** A text that already ends in a fence line. *)
Definition alreadyFenced : jsstring := js "[1]" ++ [LF] ++ fence.

(* ------------------------------------------------------------------ *)
(** ** Texts built from string-valued members, for the repair pass *)
(* ------------------------------------------------------------------ *)

(** The lazy tail of the first repair pattern, started on [content]
    followed by a closing quote, stops at that quote: [content] holds no
    quote other than in backslash-quote pairs as the pattern reads them,
    and the closing quote does not pair up with a backslash before it. *)
Fixpoint closesAtEnd (content : jsstring) : bool :=
  match content with
  | [] => true
  | c :: r =>
      if (c =? DQUOTE)%N then false
      else
        match r with
        | d :: r' =>
            if (c =? BACKSLASH)%N && (d =? DQUOTE)%N then closesAtEnd r'
            else closesAtEnd r
        | [] => negb (c =? BACKSLASH)%N
        end
  end.

(** No match of the first repair pattern starts inside [u]: after every
    colon of [u], and any white space, [u] goes on with a character that is
    not a double quote. *)
Fixpoint noValueStart (u : jsstring) : bool :=
  match u with
  | [] => true
  | c :: u' =>
      (if (c =? COLON)%N
       then match dropWhile isWhiteSpace u' with
            | q :: _ => negb (q =? DQUOTE)%N
            | [] => false
            end
       else true)
      && noValueStart u'
  end.

(** One member whose value is a string: the text before its colon, the
    white space between colon and opening quote, and what stands between
    the quotes. *)
Record stringMember := {
  before : jsstring;
  gap : jsstring;
  content : jsstring
}.

Definition delimited (m : stringMember) : bool :=
  noValueStart (before m) && forallb isWhiteSpace (gap m) && closesAtEnd (content m).

Fixpoint asWritten (members : list stringMember) (tail : jsstring) : jsstring :=
  match members with
  | [] => tail
  | m :: ms =>
      before m ++ COLON :: gap m ++ DQUOTE :: content m
        ++ DQUOTE :: asWritten ms tail
  end.

Fixpoint asRepaired (members : list stringMember) (tail : jsstring) : jsstring :=
  match members with
  | [] => tail
  | m :: ms =>
      before m ++ js ": " ++ DQUOTE :: escapeNewlines (content m)
        ++ DQUOTE :: asRepaired ms tail
  end.

(** The same text with the line feeds of every member value escaped
    beforehand. *)
Definition preEscaped (members : list stringMember) (tail : jsstring) : jsstring :=
  asWritten
    (map (fun m => {| before := before m; gap := gap m;
                      content := escapeNewlines (content m) |}) members)
    tail.

Definition notLineFeed (c : char) : bool := negb (c =? LF)%N.

(** What a pattern takes for the inside of a quoted span: between double
    quotes a run in which every double quote directly follows a backslash,
    between single quotes a run without single quote. *)
Fixpoint quotesEscaped (prev : option char) (g : jsstring) : bool :=
  match g with
  | [] => true
  | c :: r =>
      (negb (c =? DQUOTE)%N
       || match prev with
          | Some p => (p =? BACKSLASH)%N
          | None => false
          end)
      && quotesEscaped (Some c) r
  end.

Definition spanOf (quote : char) (g : jsstring) : bool :=
  if (quote =? DQUOTE)%N then quotesEscaped None g
  else forallb (fun c => negb (c =? quote)%N) g.

(** One pass of the repair as the specification words it: the text is read
    from the left; a character is kept as it is, or a colon, white space
    and a quoted span are rewritten to a colon, one space and the span with
    its line feeds escaped. *)
Inductive rewritten (quote : char) : jsstring -> jsstring -> Prop :=
| rewritten_end : rewritten quote [] []
| rewritten_keep (c : char) (s s' : jsstring) :
    rewritten quote s s' -> rewritten quote (c :: s) (c :: s')
| rewritten_value (w g rest rest' : jsstring) :
    forallb isWhiteSpace w = true ->
    spanOf quote g = true ->
    rewritten quote rest rest' ->
    rewritten quote (COLON :: w ++ quote :: g ++ quote :: rest)
      (js ": " ++ quote :: escapeNewlines g ++ quote :: rest').

(** After any white space at its start, the text does not go on with a
    single quote. *)
Definition noSingleQuoteAhead (u : jsstring) : bool :=
  match dropWhile isWhiteSpace u with
  | q :: _ => negb (q =? SQUOTE)%N
  | [] => true
  end.

(** No colon of the text is followed, after any white space, by a single
    quote: the second pattern has no match. *)
Fixpoint noSingleQuotedStart (u : jsstring) : bool :=
  match u with
  | [] => true
  | c :: u' =>
      (if (c =? COLON)%N then noSingleQuoteAhead u' else true)
      && noSingleQuotedStart u'
  end.

(** Sample texts for the repair pass: an object whose one value holds an
    escaped backslash followed by a line break, the line break being a
    parameter; an object with no space after its colon; the members of an
    object with a space after its colon; and the members of an object
    without that space whose value holds an apostrophe. *)
Definition afterEscapedBackslash (lineBreak : jsstring) : jsstring :=
  js "{" ++ [DQUOTE] ++ js "a" ++ [DQUOTE] ++ js ": " ++ [DQUOTE]
    ++ js "x\\" ++ lineBreak ++ js "y" ++ [DQUOTE] ++ js "}".

Definition noSpaceAfterColon : jsstring :=
  js "{" ++ [DQUOTE] ++ js "a" ++ [DQUOTE] ++ js ":" ++ [DQUOTE]
    ++ js "x" ++ [LF] ++ js "y" ++ [DQUOTE] ++ js "}".

Definition sampleMembers : list stringMember :=
  [ {| before := js "{" ++ [DQUOTE] ++ js "a" ++ [DQUOTE];
       gap := js " ";
       content := js "x" ++ [LF] ++ js "y" |} ].

Definition compactMembers : list stringMember :=
  [ {| before := js "{" ++ [DQUOTE] ++ js "a" ++ [DQUOTE];
       gap := [];
       content := js "it's" ++ [LF] ++ js "ok" |} ].

(** An inverted index lists, under each word, the positions at which the
    word stands in the text: no position is listed under two different
    words. *)
Definition oneWordPerPosition (entries : list (jsstring * list Z)) : Prop :=
  forall w1 ps1 w2 ps2 q,
    In (w1, ps1) entries -> In (w2, ps2) entries ->
    In q ps1 -> In q ps2 -> w1 = w2.

(** Position [q] is listed under word [w]. *)
Definition listedUnder (entries : list (jsstring * list Z)) (q : Z) (w : jsstring)
  : Prop :=
  exists ps, In (w, ps) entries /\ In q ps.

(** The index of the specification, in both key orders. *)
Definition quickFox : list (jsstring * list Z) :=
  [(js "quick", [0%Z]); (js "fox", [1%Z])].

Definition foxQuick : list (jsstring * list Z) :=
  [(js "fox", [1%Z]); (js "quick", [0%Z])].

(* ------------------------------------------------------------------ *)
(** ** The gateway's contract, as the specification words it *)
(* ------------------------------------------------------------------ *)

Inductive envelopeCheck :=
| MissingResponseData
| BlockedPrompt
| NoCandidates
| MissingTextPayload.

(** The envelope checks in the order the specification lists them: the
    first one that fails, if any.  The finish reason is not among them. *)
Definition firstFailedCheck (data : option Gemini.Response) : option envelopeCheck :=
  match data with
  | None => Some MissingResponseData
  | Some response =>
      match truthyString
              (match Gemini.promptFeedback response with
               | Some feedback => Gemini.blockReason feedback
               | None => None
               end) with
      | Some _ => Some BlockedPrompt
      | None =>
          match Gemini.candidates response with
          | None | Some [] => Some NoCandidates
          | Some (first :: _) =>
              if truthy
                   (match Gemini.content first with
                    | Some c =>
                        match Gemini.parts c with
                        | Some (part :: _) => Gemini.text part
                        | _ => VUndefined
                        end
                    | None => VUndefined
                    end)
              then None
              else Some MissingTextPayload
          end
      end
  end.

(** The first candidate and its text. *)
Definition firstCandidate (data : option Gemini.Response) : option Gemini.Candidate :=
  match data with
  | Some response =>
      match Gemini.candidates response with
      | Some (first :: _) => Some first
      | _ => None
      end
  | None => None
  end.

Definition firstCandidateText (data : option Gemini.Response) : jsval :=
  match firstCandidate data with
  | Some first =>
      match Gemini.content first with
      | Some c =>
          match Gemini.parts c with
          | Some (part :: _) => Gemini.text part
          | _ => VUndefined
          end
      | None => VUndefined
      end
  | None => VUndefined
  end.

(** What the diagnostic of each failed check says after the context. *)
Definition diagnosticOf (check : envelopeCheck) : jsstring :=
  match check with
  | MissingResponseData => js ": No response data received."
  | BlockedPrompt => js ": Prompt blocked. Reason: "
  | NoCandidates => js ": No candidates received. Finish Reason: "
  | MissingTextPayload => js ": Missing text content in response candidate."
  end.

(** A finish reason that is present and is not [STOP]. *)
Definition abnormalFinish (data : option Gemini.Response) : option jsstring :=
  match firstCandidate data with
  | Some first =>
      match truthyString (Gemini.finishReason first) with
      | Some reason => if jsstring_eqb reason (js "STOP") then None else Some reason
      | None => None
      end
  | None => None
  end.

(* ------------------------------------------------------------------ *)
(** ** What the fallback chain logs *)
(* ------------------------------------------------------------------ *)

Definition attempting (provider : PaperProvider) : event :=
  Console LOG [Text (js "Attempting to fetch from "); Text (name provider);
               Text (js "...")].

Definition fetched (provider : PaperProvider) (results : list ResearchPaper) : event :=
  Console LOG [Text (js "Successfully fetched "); Count (N.of_nat (length results));
               Text (js " papers from "); Text (name provider); Text (js ".")].

Definition exhausted : event :=
  Console WARN [Text (js "All paper providers failed or returned no results.")].

(** What the chain logs for a thrown error: one error line that names the
    provider and gives the message of the error, or the status and the body
    of the response when the HTTP client received one; before it, a
    warning when Semantic Scholar answered with status 429. *)
Definition errorLogged (provider : PaperProvider) (err : exn) : list event :=
  match err with
  | AxiosError _ (Some (status, data)) =>
      (if jsstring_eqb (name provider) (js "Semantic Scholar") && (status =? 429)%N
       then [Console WARN [Text (js "Rate limit hit for "); Text (name provider);
                           Text (js ". Falling back...")]]
       else [])
      ++ [Console ERROR [Text (js "Error fetching from "); Text (name provider);
                         Text (js ":"); Text (js "Status "); Count status;
                         Text (js ": "); Json data]]
  | _ =>
      [Console ERROR [Text (js "Error fetching from "); Text (name provider);
                      Text (js ":"); Text (messageOf err)]]
  end.

(** The trace after an attempt that gave no papers: an empty success is
    logged, and so is a thrown error. *)
Definition afterNoPapers (provider : PaperProvider)
    (result : outcome (list ResearchPaper)) (t : trace) : trace :=
  match result with
  | Return _ =>
      t ++ [Console LOG [Text (name provider);
                         Text (js " returned successfully but found 0 relevant papers.")]]
  | Throw err => t ++ errorLogged provider err
  end.

(** An envelope with one candidate that stopped normally and carries
    [payload] as its text. *)
Definition carrying (payload : jsval) : option Gemini.Response :=
  Some {| Gemini.promptFeedback := None;
          Gemini.candidates :=
            Some [ {| Gemini.finishReason := Some (js "STOP");
                      Gemini.content :=
                        Some {| Gemini.parts :=
                                  Some [ {| Gemini.text := payload |} ] |} |} ] |}.

Definition answering (text : jsstring) : option Gemini.Response :=
  carrying (VStr text).

(** A world with no network and no CORE key, in which the generative-text
    service always answers with the same text. *)
Definition offlineWorld : World :=
  {| axios_get := fun _ _ => Throw (AxiosError (js "Network Error") None);
     axios_post := fun _ _ => Return (answering (js "[1]"));
     env_CORE_API_KEY := None;
     env_GOOGLE_API_KEY := js "key";
     numberToString := fun _ => js "0";
     invertAbstractUntyped := fun _ => Throw notAFunction |}.

Definition plainTemplates : PromptGenerator.Templates :=
  {| PromptGenerator.stepByStep := fun topic => topic;
     PromptGenerator.rankPapers := fun topic details => topic ++ details;
     PromptGenerator.methodology := fun topic => topic;
     PromptGenerator.researchGaps := fun abstracts topic => abstracts ++ topic;
     PromptGenerator.prosCons := fun abstracts topic => abstracts ++ topic |}.

(* ------------------------------------------------------------------ *)
(** ** What the adapters promise about a paper *)
(* ------------------------------------------------------------------ *)

(** All six fields are present: none is [undefined]. *)
Definition complete (p : ResearchPaper) : Prop :=
  title p <> VUndefined /\ url p <> VUndefined /\ paperLink p <> VUndefined
  /\ abstract p <> VUndefined /\ citationCount p <> VUndefined
  /\ authors p <> VUndefined.

(** The provider's record has no such field. *)
Definition missing (paper : jsval) (field : jsstring) : Prop :=
  get paper field = Return VUndefined.

(** What the provider's record holds in a field. *)
Definition sourceValue (paper : jsval) (field : jsstring) : jsval :=
  match get paper field with
  | Return v => v
  | Throw _ => VUndefined
  end.

Definition isNonNegInteger (v : jsval) : bool :=
  match v with
  | VNum n => numberIsNonNegInteger n
  | _ => false
  end.

(** A world in which Semantic Scholar reports a paper with a citation count
    of minus one. *)
Definition minusOne : jsval := VNum (mkNumber true 1 0).

Definition negativeCountWorld : World :=
  {| axios_get := fun _ _ =>
       Return (VObj [(js "data", VArr [VObj [(js "citationCount", minusOne)]])]);
     axios_post := fun _ _ => Return (answering (js "[1]"));
     env_CORE_API_KEY := None;
     env_GOOGLE_API_KEY := js "key";
     numberToString := fun _ => js "0";
     invertAbstractUntyped := fun _ => Throw notAFunction |}.

(** The record holds nothing usable in a field: the field is missing, or
    its value is falsy ([null], the empty string, zero, [false]). *)
Definition absent (paper : jsval) (field : jsstring) : Prop :=
  truthy (sourceValue paper field) = false.

(** The relation between a provider's record and the paper made of it, per
    provider: the paper is complete; a field whose source is absent holds
    its documented default, and a title, link or abstract that is there is
    passed on as it is; the citation count is the provider's value when
    that is truthy (for CORE: neither [null] nor [undefined]) and [0]
    otherwise, hence a non-negative integer whenever the provider's value
    is missing or is one. *)
Definition normalizedFromSemanticScholar (paper : jsval) (p : ResearchPaper) : Prop :=
  complete p
  /\ title p = or_else (sourceValue paper (js "title")) (VStr (js "Untitled"))
  /\ url p = or_else (sourceValue paper (js "url")) (VStr [])
  /\ paperLink p = or_else (sourceValue paper (js "url")) (VStr [])
  /\ abstract p
       = or_else (sourceValue paper (js "abstract")) (VStr (js "No abstract available"))
  /\ (isNullish (sourceValue paper (js "authors")) = true ->
      authors p = VStr (js "Unknown authors"))
  /\ citationCount p
       = or_else (sourceValue paper (js "citationCount")) (VNum (numberOfN 0))
  /\ (missing paper (js "citationCount")
      \/ isNonNegInteger (sourceValue paper (js "citationCount")) = true ->
      isNonNegInteger (citationCount p) = true).

Definition normalizedFromOpenAlex (paper : jsval) (p : ResearchPaper) : Prop :=
  complete p
  /\ title p = or_else (sourceValue paper (js "display_name")) (VStr (js "Untitled"))
  /\ (absent paper (js "id") -> url p = VStr [])
  /\ (isNullish (sourceValue paper (js "primary_location")) = true ->
      paperLink p = VStr [])
  /\ (absent paper (js "abstract_inverted_index") ->
      abstract p = VStr (js "No abstract available"))
  /\ (isNullish (sourceValue paper (js "authorships")) = true ->
      authors p = VStr (js "Unknown authors"))
  /\ citationCount p
       = or_else (sourceValue paper (js "cited_by_count")) (VNum (numberOfN 0))
  /\ (missing paper (js "cited_by_count")
      \/ isNonNegInteger (sourceValue paper (js "cited_by_count")) = true ->
      isNonNegInteger (citationCount p) = true).

Definition normalizedFromCORE (paper : jsval) (p : ResearchPaper) : Prop :=
  complete p
  /\ title p = or_else (sourceValue paper (js "title")) (VStr (js "Untitled"))
  /\ (absent paper (js "doi") -> absent paper (js "downloadUrl") ->
      url p = VStr [] /\ paperLink p = VStr [])
  /\ abstract p
       = or_else (sourceValue paper (js "abstract")) (VStr (js "No abstract available"))
  /\ (isNullish (sourceValue paper (js "authors")) = true ->
      authors p = VStr (js "Unknown authors"))
  /\ citationCount p
       = nullish_else (sourceValue paper (js "citationCount")) (VNum (numberOfN 0))
  /\ (missing paper (js "citationCount")
      \/ isNonNegInteger (sourceValue paper (js "citationCount")) = true ->
      isNonNegInteger (citationCount p) = true).

(** A world in which Semantic Scholar reports one paper with no field at
    all. *)
Definition bareRecordWorld : World :=
  {| axios_get := fun _ _ => Return (VObj [(js "data", VArr [VObj []])]);
     axios_post := fun _ _ => Return (answering (js "[1]"));
     env_CORE_API_KEY := None;
     env_GOOGLE_API_KEY := js "key";
     numberToString := fun _ => js "0";
     invertAbstractUntyped := fun _ => Throw notAFunction |}.

(* ------------------------------------------------------------------ *)
(** ** What the orchestrator promises about its result *)
(* ------------------------------------------------------------------ *)

(** The result carries an error string that is not empty. *)
Definition reportsFailure (roadmap : ThesisRoadmapOutput) : Prop :=
  exists message, error roadmap = Some message /\ message <> [].

(** Each content field is what the extractor makes of the matching raw
    text: a parsed value or [null]. *)
Definition parsedFrom (vars : Locals.t) (roadmap : ThesisRoadmapOutput) : Prop :=
  stepByStep roadmap = extracted (Locals.stepByStepRaw vars)
  /\ relatedPapers roadmap = extracted (Locals.rankedPapersRaw vars)
  /\ methodology roadmap = extracted (Locals.methodologyRaw vars)
  /\ researchGapAnalysis roadmap = extracted (Locals.researchGapAnalysisRaw vars)
  /\ prosAndCons roadmap = extracted (Locals.prosAndConsRaw vars).

Definition someFieldNull (roadmap : ThesisRoadmapOutput) : Prop :=
  stepByStep roadmap = VNull \/ relatedPapers roadmap = VNull
  \/ methodology roadmap = VNull \/ researchGapAnalysis roadmap = VNull
  \/ prosAndCons roadmap = VNull.

(** Every raw text the variables hold is one the helper can take. *)
Definition rawTextsAreStrings (vars : Locals.t) : bool :=
  stringOrFalsy (Locals.stepByStepRaw vars)
  && stringOrFalsy (Locals.rankedPapersRaw vars)
  && stringOrFalsy (Locals.methodologyRaw vars)
  && stringOrFalsy (Locals.researchGapAnalysisRaw vars)
  && stringOrFalsy (Locals.prosAndConsRaw vars).

(** The generative-text service sends strings: whenever it answers, the
    text payload of the first candidate is a string, or is missing. *)
Definition textsAreStrings (W : World) : Prop :=
  forall (t : trace) (r : request) (data : option Gemini.Response),
    axios_post W t r = Return data ->
    stringOrFalsy (firstCandidateText data) = true.

(** The variables as the [try] block of a run leaves them. *)
Definition capturedBy (W : World) (PG : PromptGenerator.Templates)
    (topic : jsstring) (t : trace) : Locals.t :=
  snd (fst (tryBlock W PG topic Locals.initial t)).

(** The variables when the methodology stage starts: the step plan and the
    ranking are captured, nothing else yet. *)
Definition capturedBeforeMethodology (stepPlan ranking : jsval)
    (papers : list ResearchPaper) : Locals.t :=
  {| Locals.stepByStepRaw := stepPlan;
     Locals.rankedPapersRaw := ranking;
     Locals.methodologyRaw := VNull;
     Locals.researchGapAnalysisRaw := VNull;
     Locals.prosAndConsRaw := VNull;
     Locals.relatedPapers := papers |}.

(** The variables when all six stages have returned. *)
Definition capturedByAllStages (stepPlan ranking method gaps pros : jsval)
    (papers : list ResearchPaper) : Locals.t :=
  {| Locals.stepByStepRaw := stepPlan;
     Locals.rankedPapersRaw := ranking;
     Locals.methodologyRaw := method;
     Locals.researchGapAnalysisRaw := gaps;
     Locals.prosAndConsRaw := pros;
     Locals.relatedPapers := papers |}.

(** A world in which the literature is offline and the request issued after
    four others (the step plan, two literature searches and the ranking)
    fails: that request is the methodology stage's. *)
Definition methodologyFailsWorld : World :=
  {| axios_get := fun _ _ => Throw (AxiosError (js "Network Error") None);
     axios_post := fun t _ =>
       match length (requestsOf t) with
       | 4 => Throw (AxiosError (js "timeout of 60000ms exceeded") None)
       | _ => Return (answering (js "[1]"))
       end;
     env_CORE_API_KEY := None;
     env_GOOGLE_API_KEY := js "key";
     numberToString := fun _ => js "0";
     invertAbstractUntyped := fun _ => Throw notAFunction |}.

(** The number 42 as a text payload: a world in which the service always
    answers with it, and one in which the methodology request fails as
    well. *)
Definition fortyTwo : jsval := VNum (numberOfN 42).

Definition numericPayloadWorld : World :=
  {| axios_get := fun _ _ => Throw (AxiosError (js "Network Error") None);
     axios_post := fun _ _ => Return (carrying fortyTwo);
     env_CORE_API_KEY := None;
     env_GOOGLE_API_KEY := js "key";
     numberToString := fun _ => js "0";
     invertAbstractUntyped := fun _ => Throw notAFunction |}.

Definition numericPayloadThenFailureWorld : World :=
  {| axios_get := fun _ _ => Throw (AxiosError (js "Network Error") None);
     axios_post := fun t _ =>
       match length (requestsOf t) with
       | 4 => Throw (AxiosError (js "timeout of 60000ms exceeded") None)
       | _ => Return (carrying fortyTwo)
       end;
     env_CORE_API_KEY := None;
     env_GOOGLE_API_KEY := js "key";
     numberToString := fun _ => js "0";
     invertAbstractUntyped := fun _ => Throw notAFunction |}.

(* ------------------------------------------------------------------ *)
(** ** The requests a run issues *)
(* ------------------------------------------------------------------ *)

(** The request each adapter sends for a query (lines 236--238, 254 and
    278). *)
Definition semanticScholarRequest (query : jsstring) : request :=
  getRequest SEMANTIC_SCHOLAR_API
    [(js "query", VStr query);
     (js "fields", VStr (js "title,url,abstract,citationCount,authors"));
     (js "limit", MAX_RESULTS)] [].

Definition openAlexRequest (query : jsstring) : request :=
  getRequest OPENALEX_API
    [(js "search", VStr query); (js "per_page", MAX_RESULTS)] [].

Definition coreRequest (W : World) (query : jsstring) : request :=
  getRequest CORE_API
    [(js "q", VStr query); (js "limit", MAX_RESULTS)]
    [(js "Authorization", js "Bearer " ++ CORE_API_KEY W)].

(** The guard of line 277 lets the CORE adapter through. *)
Definition coreConfigured (W : World) : bool :=
  negb (jsstring_eqb (CORE_API_KEY W) []
        || jsstring_eqb (CORE_API_KEY W) CORE_API_KEY_PLACEHOLDER).

(** An adapter gave papers: it returned a list that is not empty. *)
Definition gavePapers (result : outcome (list ResearchPaper)) : bool :=
  match result with
  | Return (_ :: _) => true
  | _ => false
  end.

(** The literature searches a query can lead to, in the order of the
    fallback chain. *)
Definition searchRequests (W : World) (query : jsstring) : list request :=
  semanticScholarRequest query :: openAlexRequest query
    :: (if coreConfigured W then [coreRequest W query] else []).

(** The gateway requests of the five generative stages. *)
Definition stepPlanRequest (W : World) (PG : PromptGenerator.Templates)
    (topic : jsstring) : request :=
  geminiRequest W (PromptGenerator.stepByStep PG topic).

Definition rankingRequest (W : World) (PG : PromptGenerator.Templates)
    (topic : jsstring) (papers : list ResearchPaper) : request :=
  geminiRequest W (rankPrompt W PG topic papers).

Definition methodologyRequest (W : World) (PG : PromptGenerator.Templates)
    (topic : jsstring) : request :=
  geminiRequest W (PromptGenerator.methodology PG topic).

Definition gapRequest (W : World) (PG : PromptGenerator.Templates)
    (topic : jsstring) (papers : list ResearchPaper) : request :=
  geminiRequest W (gapPrompt W PG papers topic).

Definition prosConsRequest (W : World) (PG : PromptGenerator.Templates)
    (topic : jsstring) (papers : list ResearchPaper) : request :=
  geminiRequest W (prosConsPrompt W PG papers topic).

(** The five content fields of a result with the labels the orchestrator
    reports them under (lines 184--190). *)
Definition sections (roadmap : ThesisRoadmapOutput) : list (jsval * jsstring) :=
  [(stepByStep roadmap, js "step-by-step guide");
   (relatedPapers roadmap, js "ranked papers");
   (methodology roadmap, js "methodology");
   (researchGapAnalysis roadmap, js "research gaps");
   (prosAndCons roadmap, js "pros and cons")].

(** The index of a five-word text (the cat on the mat), its keys and
    positions in no particular order. *)
Definition theCatTheMat : list (jsstring * list Z) :=
  [(js "mat", [4%Z]); (js "the", [3%Z; 0%Z]); (js "on", [2%Z]); (js "cat", [1%Z])].

(* ------------------------------------------------------------------ *)
(** ** Links and lists of the adapters *)
(* ------------------------------------------------------------------ *)

Definition SLASH : char := 47%N.

Definition slashFree (s : jsstring) : bool :=
  forallb (fun c => negb (c =? SLASH)%N) s.

(** An OpenAlex work URL: empty, or the site followed by one path segment. *)
Definition openAlexUrl (u : jsval) : Prop :=
  u = VStr []
  \/ exists segment,
       u = VStr (js "https://openalex.org/" ++ segment) /\ slashFree segment = true.

(** The links of a CORE paper: [url] prefers the DOI, [paperLink] prefers
    the download URL, and the two differ only when the record has both. *)
Definition coreLinks (W : World) (paper : jsval) (p : ResearchPaper) : Prop :=
  let doi := sourceValue paper (js "doi") in
  let downloadUrl := sourceValue paper (js "downloadUrl") in
  let doiUrl := VStr (js "https://doi.org/" ++ toString (numberToString W) doi) in
  (truthy doi = true -> url p = doiUrl)
  /\ (truthy downloadUrl = true -> paperLink p = downloadUrl)
  /\ (truthy doi && truthy downloadUrl = false -> url p = paperLink p).

(** The records a provider sent: the list its answer to the request holds
    under [field], and no record when it did not answer with one. *)
Definition recordsOf (W : World) (t : trace) (r : request) (field : jsstring)
  : list jsval :=
  match axios_get W t r with
  | Return data =>
      match get data field with
      | Return (VArr items) => items
      | _ => []
      end
  | Throw _ => []
  end.

(** The provider answered the request with a body that holds the list
    [items] under [field]. *)
Definition answers (W : World) (t : trace) (r : request) (field : jsstring)
    (items : list jsval) : Prop :=
  exists data, axios_get W t r = Return data /\ get data field = Return (VArr items).

(** An adapter gives one paper for each record, or none at all. *)
Definition allOrNothing (items : list jsval) (result : outcome (list ResearchPaper))
  : Prop :=
  match result with
  | Return papers => length papers = length items
  | Throw _ => True
  end
  /\ (In VNull items \/ In VUndefined items -> exists e, result = Throw e).

(** A world in which every provider answers with the same one record, and
    a CORE key is configured. *)
Definition sampleRecord : jsval :=
  VObj [(js "id", VStr (js "https://openalex.org/W42"));
        (js "url", VStr (js "https://www.semanticscholar.org/paper/42"));
        (js "doi", VStr (js "10.1000/42"));
        (js "downloadUrl", VStr (js "https://core.ac.uk/download/42.pdf"))].

Definition catalogueWorld : World :=
  {| axios_get := fun _ _ =>
       Return (VObj [(js "data", VArr [sampleRecord]);
                     (js "results", VArr [sampleRecord])]);
     axios_post := fun _ _ => Return (answering (js "[1]"));
     env_CORE_API_KEY := Some (js "secret");
     env_GOOGLE_API_KEY := js "key";
     numberToString := fun _ => js "0";
     invertAbstractUntyped := fun _ => Throw notAFunction |}.

(** A world in which every provider answers with a well-formed record
    followed by [null]. *)
Definition poisonedWorld : World :=
  {| axios_get := fun _ _ =>
       Return (VObj [(js "data", VArr [sampleRecord; VNull]);
                     (js "results", VArr [sampleRecord; VNull])]);
     axios_post := fun _ _ => Return (answering (js "[1]"));
     env_CORE_API_KEY := Some (js "secret");
     env_GOOGLE_API_KEY := js "key";
     numberToString := fun _ => js "0";
     invertAbstractUntyped := fun _ => Throw notAFunction |}.

(** A fenced answer as a service may send it: the marker in capitals,
    carriage-return line-feed line ends, and an empty last line. *)
Definition crlfFenced : jsstring :=
  js "```JSON" ++ [13%N; LF] ++ js "[1]" ++ [13%N; LF] ++ fence ++ [LF].

(* ------------------------------------------------------------------ *)
(** ** Requests to the controller *)
(* ------------------------------------------------------------------ *)

(** The description a request body carries, if the body can be read. *)
Definition descriptionOf (body : jsval) : jsval :=
  sourceValue body (js "thesisDescription").

(** An untyped pipeline that is never reached by the sample request. *)
Definition unreached : jsval -> M jsval := fun _ => throw notAFunction.

(* ------------------------------------------------------------------ *)
(** ** The two kinds of request *)
(* ------------------------------------------------------------------ *)

(** A call of the generative-text service. *)
Definition gatewayCall (W : World) (r : request) : Prop :=
  req_method r = js "POST"
  /\ req_url r = GEMINI_URL
  /\ req_params r = [(js "key", VStr (env_GOOGLE_API_KEY W))]
  /\ req_headers r = [(js "Content-Type", js "application/json")]
  /\ req_timeout r = Some 60000%N.

(** A search of one of the three literature APIs. *)
Definition literatureSearch (r : request) : Prop :=
  req_method r = js "GET"
  /\ In (req_url r) [SEMANTIC_SCHOLAR_API; OPENALEX_API; CORE_API]
  /\ req_body r = VUndefined
  /\ req_timeout r = None.

(* ------------------------------------------------------------------ *)
(** ** A gateway that serves two stages only *)
(* ------------------------------------------------------------------ *)

(** Templates that begin each prompt with the name of its stage. *)
Definition labelledTemplates : PromptGenerator.Templates :=
  {| PromptGenerator.stepByStep := fun topic => js "plan:" ++ topic;
     PromptGenerator.rankPapers := fun topic details => js "rank:" ++ topic ++ details;
     PromptGenerator.methodology := fun topic => js "method:" ++ topic;
     PromptGenerator.researchGaps := fun abstracts topic => js "gaps:" ++ abstracts ++ topic;
     PromptGenerator.prosCons := fun abstracts topic => js "pros:" ++ abstracts ++ topic |}.

(** The prompt a gateway request carries. *)
Definition promptOf (r : request) : jsstring :=
  match req_body r with
  | VObj ((_, VArr [VObj [_; (_, VArr [VObj [(_, VStr prompt)]])]]) :: _) => prompt
  | _ => []
  end.

(** A world without literature in which the generative service answers
    the step-plan and the methodology request and is down for every other
    one. *)
Definition twoStagesWorld : World :=
  {| axios_get := fun _ _ => Throw (AxiosError (js "Network Error") None);
     axios_post := fun _ r =>
       if startsWith (js "plan:") (promptOf r) || startsWith (js "method:") (promptOf r)
       then Return (answering (js "[1]"))
       else Throw (AxiosError (js "Request failed with status code 503") None);
     env_CORE_API_KEY := None;
     env_GOOGLE_API_KEY := js "key";
     numberToString := fun _ => js "0";
     invertAbstractUntyped := fun _ => Throw notAFunction |}.

(* ------------------------------------------------------------------ *)
(** ** What a client of the authentication handlers receives *)
(* ------------------------------------------------------------------ *)

Module AuthSpec.

Import Auth.

(** The part of a trace that reaches the client: responses and cookies. *)
Definition reachesClient (e : event) : bool :=
  match e with
  | Json _ _ _ | Cookie _ _ _ | ClearCookie _ => true
  | _ => false
  end.

Definition clientSees (trace : list event) : list event := filter reachesClient trace.

(** What a run added to the trace it started from. *)
Definition since (before after : state) : list event :=
  skipn (length (events before)) (events after).

(** The three fields of a registration or login body. *)
Definition fieldOf (body : jsval) (name : jsstring) : jsval :=
  match get body name with
  | Return v => v
  | Throw _ => VUndefined
  end.

Definition submitted (body : jsval) : NewUser :=
  {| username := fieldOf body (js "username");
     email := fieldOf body (js "email");
     password := fieldOf body (js "password") |}.

Definition allFieldsGiven (body : jsval) : bool :=
  truthy (fieldOf body (js "username")) && truthy (fieldOf body (js "email"))
  && truthy (fieldOf body (js "password")).

(** A world in which all libraries work: the address is on file or not,
    the password matches or not. *)
Definition sampleUser : User :=
  {| id := js "u1"; storedPassword := VStr (js "$2b$10$hash") |}.

Definition libraries (onFile : option User) (matches : bool) : World :=
  {| User_findOne := fun _ _ => Return onFile;
     validate := fun _ _ => Return tt;
     isModified_password := fun _ => true;
     insertOne := fun _ _ => Return tt;
     bcrypt_genSalt := fun _ _ => Return (js "salt");
     bcrypt_hash := fun _ _ _ => Return (js "$2b$10$new");
     bcrypt_compare := fun _ _ _ => Return matches;
     jwt_sign := fun _ _ _ => Return (js "token-1");
     jwt_verify := fun _ _ _ => Return (VObj [(js "id", VStr (js "u1"))]);
     json_again := Throw (Error (js "Cannot set headers after they are sent to the client"));
     env_JWT_SECRET := Some (js "secret");
     env_NODE_ENV := Some (js "production") |}.

Definition credentials : jsval :=
  VObj [(js "username", VStr (js "ada")); (js "email", VStr (js "ada@example.org"));
        (js "password", VStr (js "pass phrase"))].

End AuthSpec.

(* ================================================================== *)
(** * Proofs *)
(* ================================================================== *)

Local Open Scope M_scope.
Unset Implicit Arguments.

#[local] Arguments N.eqb : simpl never.
#[local] Arguments N.leb : simpl never.
#[local] Arguments N.ltb : simpl never.
#[local] Arguments Z.eqb : simpl never.
#[local] Arguments Z.ltb : simpl never.
#[local] Arguments Z.leb : simpl never.

(** ** Fuel of the JSON reader *)

Lemma dropWhile_length (f : char -> bool) (s : jsstring) :
  length (dropWhile f s) <= length s.
Proof.
  induction s as [|c s IH]; cbn [dropWhile length]; [lia|].
  destruct (f c); cbn [length]; lia.
Qed.

Lemma dropWhile_takeWhile_length (f : char -> bool) (s : jsstring) :
  length (takeWhile f s) + length (dropWhile f s) = length s.
Proof.
  induction s as [|c s IH]; cbn [takeWhile dropWhile length]; [lia|].
  destruct (f c); cbn [length]; lia.
Qed.

Lemma skipWs_cons (s : jsstring) (c : char) (r : jsstring) :
  JSON.skipWs s = c :: r -> length r < length s.
Proof.
  intro H. pose proof (dropWhile_length JSON.isJsonWs s) as L.
  unfold JSON.skipWs in H. rewrite H in L. cbn [length] in L. lia.
Qed.

Lemma stringBody_progress (s str rest : jsstring) :
  JSON.stringBody s = Some (str, rest) -> length rest < length s.
Proof.
  remember (length s) as n eqn:Hn. revert s str rest Hn.
  induction n as [n IH] using lt_wf_ind. intros s str rest Hn H.
  destruct s as [|c r]; [discriminate|]. cbn [JSON.stringBody] in H.
  cbn [length] in Hn.
  destruct (c =? DQUOTE)%N; [inversion H; subst; cbn [length]; lia|].
  destruct (c =? BACKSLASH)%N.
  - destruct r as [|e r1]; [discriminate|].
    destruct (e =? 117)%N.
    + destruct r1 as [|h1 [|h2 [|h3 [|h4 r2]]]]; try discriminate.
      destruct (JSON.hexValue h1), (JSON.hexValue h2), (JSON.hexValue h3),
        (JSON.hexValue h4); try discriminate.
      destruct (JSON.stringBody r2) as [[str' rest']|] eqn:E; [|discriminate].
      inversion H; subst.
      apply (IH (length r2)) in E; [|cbn [length]; lia | reflexivity].
      cbn [length]. lia.
    + destruct (JSON.simpleEscape e); [|discriminate].
      destruct (JSON.stringBody r1) as [[str' rest']|] eqn:E; [|discriminate].
      inversion H; subst.
      apply (IH (length r1)) in E; [|cbn [length]; lia | reflexivity].
      cbn [length]. lia.
  - destruct (c <? 32)%N; [discriminate|].
    destruct (JSON.stringBody r) as [[str' rest']|] eqn:E; [|discriminate].
    inversion H; subst.
    apply (IH (length r)) in E; [|lia | reflexivity].
    cbn [length]. lia.
Qed.

Lemma numberLiteral_progress (s : jsstring) (n : number) (rest : jsstring) :
  JSON.numberLiteral s = Some (n, rest) -> length rest < length s.
Proof.
  unfold JSON.numberLiteral.
  set (sign := match s with
               | c :: r => if (c =? 45)%N then (true, r) else (false, s)
               | [] => (false, s)
               end).
  assert (Hs : length (snd sign) <= length s).
  { subst sign. destruct s as [|c r]; [cbn; lia|].
    destruct (c =? 45)%N; cbn [snd length]; lia. }
  destruct sign as [neg s1]. cbn [snd] in Hs.
  pose proof (dropWhile_takeWhile_length isDigit s1) as L1.
  destruct (takeWhile isDigit s1) as [|d more] eqn:Ei; [discriminate|].
  cbn [length] in L1.
  destruct ((d =? 48)%N && negb (length more =? 0)%nat); [discriminate|].
  intro H.
  assert (F : forall frac s3,
            match dropWhile isDigit s1 with
            | c :: r =>
                if (c =? 46)%N
                then match takeWhile isDigit r with
                     | [] => None
                     | fs => Some (fs, dropWhile isDigit r)
                     end
                else Some ([], dropWhile isDigit s1)
            | [] => Some ([], dropWhile isDigit s1)
            end = Some (frac, s3) ->
            length s3 <= length (dropWhile isDigit s1)).
  { intros frac s3. destruct (dropWhile isDigit s1) as [|c r].
    - intro X. inversion X. lia.
    - destruct (c =? 46)%N.
      + pose proof (dropWhile_length isDigit r).
        destruct (takeWhile isDigit r); [discriminate|].
        intro X. inversion X. subst. cbn [length]. lia.
      + intro X. inversion X. lia. }
  match type of H with
  | match ?fr with _ => _ end = _ => destruct fr as [[frac s3]|]; [|discriminate]
  end.
  specialize (F _ _ eq_refl).
  assert (G : forall e rest',
            match s3 with
            | c :: r =>
                if (c =? 101)%N || (c =? 69)%N
                then
                  let (eneg, r1) :=
                    match r with
                    | sg :: r' =>
                        if (sg =? 45)%N then (true, r')
                        else if (sg =? 43)%N then (false, r') else (false, r)
                    | [] => (false, r)
                    end in
                  match takeWhile isDigit r1 with
                  | [] => None
                  | es =>
                      Some ((if eneg then - Z.of_N (digitsValue es)
                             else Z.of_N (digitsValue es))%Z, dropWhile isDigit r1)
                  end
                else Some (0%Z, s3)
            | [] => Some (0%Z, s3)
            end = Some (e, rest') ->
            length rest' <= length s3).
  { intros e rest'. destruct s3 as [|c r].
    - intro X. inversion X. lia.
    - destruct ((c =? 101)%N || (c =? 69)%N).
      + set (sg := match r with
                   | sg :: r' =>
                       if (sg =? 45)%N then (true, r')
                       else if (sg =? 43)%N then (false, r') else (false, r)
                   | [] => (false, r)
                   end).
        assert (Hr : length (snd sg) <= length r).
        { subst sg. destruct r as [|x r']; [cbn; lia|].
          destruct (x =? 45)%N; [cbn; lia|]. destruct (x =? 43)%N; cbn; lia. }
        destruct sg as [eneg r1]. cbn [snd] in Hr.
        pose proof (dropWhile_length isDigit r1).
        destruct (takeWhile isDigit r1); [discriminate|].
        intro X. inversion X. subst. cbn [length]. lia.
      + intro X. inversion X. lia. }
  match type of H with
  | match ?ex with _ => _ end = _ => destruct ex as [[e rest']|]; [|discriminate]
  end.
  specialize (G _ _ eq_refl). inversion H. subst. lia.
Qed.

Lemma skipn_literal (n : nat) (s : jsstring) :
  0 < n -> s <> [] -> length (skipn n s) < length s.
Proof.
  intros Hn Hs. rewrite length_skipn. destruct s; [congruence|]. cbn [length]. lia.
Qed.

Lemma JSON_progress (fuel : nat) :
  (forall s v rest, JSON.value fuel s = JSON.Parsed v rest -> length rest < length s) /\
  (forall acc s xs rest,
     JSON.elements fuel acc s = JSON.Parsed xs rest -> length rest < length s) /\
  (forall acc s ps rest,
     JSON.members fuel acc s = JSON.Parsed ps rest -> length rest < length s).
Proof.
  induction fuel as [|fuel (IHv & IHe & IHm)].
  { repeat split; intros; discriminate. }
  split; [|split].
  - intros s v rest H. cbn [JSON.value] in H.
    destruct (JSON.skipWs s) as [|c r] eqn:Es; [discriminate|].
    apply skipWs_cons in Es.
    assert (L : forall n, 0 < n -> length (skipn n (c :: r)) < length s).
    { intros n Hn. pose proof (skipn_literal n (c :: r) Hn ltac:(discriminate)).
      cbn [length] in *. lia. }
    destruct (c =? 123)%N.
    { destruct (JSON.skipWs r) as [|c' r'] eqn:Er; [discriminate|].
      apply skipWs_cons in Er.
      destruct (c' =? 125)%N; [inversion H; subst; lia|].
      destruct (JSON.members fuel [] r) eqn:Em; try discriminate.
      inversion H; subst. apply IHm in Em. lia. }
    destruct (c =? 91)%N.
    { destruct (JSON.skipWs r) as [|c' r'] eqn:Er; [discriminate|].
      apply skipWs_cons in Er.
      destruct (c' =? 93)%N; [inversion H; subst; lia|].
      destruct (JSON.elements fuel [] r) eqn:Em; try discriminate.
      inversion H; subst. apply IHe in Em. lia. }
    destruct (c =? DQUOTE)%N.
    { destruct (JSON.stringBody r) as [[str rest']|] eqn:Eb; [|discriminate].
      inversion H; subst. apply stringBody_progress in Eb. lia. }
    destruct (startsWith (js "true") (c :: r)); [inversion H; subst; apply (L 4); lia|].
    destruct (startsWith (js "false") (c :: r)); [inversion H; subst; apply (L 5); lia|].
    destruct (startsWith (js "null") (c :: r)); [inversion H; subst; apply (L 4); lia|].
    destruct (JSON.numberLiteral (c :: r)) as [[n rest']|] eqn:En; [|discriminate].
    inversion H; subst. apply numberLiteral_progress in En. cbn [length] in En. lia.
  - intros acc s xs rest H. cbn [JSON.elements] in H.
    destruct (JSON.value fuel s) as [v r| |] eqn:Ev; try discriminate.
    apply IHv in Ev.
    destruct (JSON.skipWs r) as [|c r'] eqn:Er; [discriminate|].
    apply skipWs_cons in Er.
    destruct (c =? 44)%N; [apply IHe in H; lia|].
    destruct (c =? 93)%N; [inversion H; subst; lia|discriminate].
  - intros acc s ps rest H. cbn [JSON.members] in H.
    destruct (JSON.skipWs s) as [|q r] eqn:Es; [discriminate|].
    apply skipWs_cons in Es.
    destruct (q =? DQUOTE)%N; [|discriminate].
    destruct (JSON.stringBody r) as [[k r1]|] eqn:Eb; [|discriminate].
    apply stringBody_progress in Eb.
    destruct (JSON.skipWs r1) as [|c r2] eqn:E1; [discriminate|].
    apply skipWs_cons in E1.
    destruct (c =? COLON)%N; [|discriminate].
    destruct (JSON.value fuel r2) as [v r3| |] eqn:Ev; try discriminate.
    apply IHv in Ev.
    destruct (JSON.skipWs r3) as [|c' r4] eqn:E3; [discriminate|].
    apply skipWs_cons in E3.
    destruct (c' =? 44)%N; [apply IHm in H; lia|].
    destruct (c' =? 125)%N; [inversion H; subst; lia|discriminate].
Qed.

Lemma JSON_fuel (fuel : nat) :
  (forall s, 2 * length s + 1 <= fuel -> JSON.value fuel s <> JSON.OutOfFuel) /\
  (forall acc s, 2 * length s + 2 <= fuel -> JSON.elements fuel acc s <> JSON.OutOfFuel) /\
  (forall acc s, 2 * length s + 2 <= fuel -> JSON.members fuel acc s <> JSON.OutOfFuel).
Proof.
  induction fuel as [|fuel (IHv & IHe & IHm)].
  { repeat split; intros; lia. }
  split; [|split].
  - intros s Hf. cbn [JSON.value].
    destruct (JSON.skipWs s) as [|c r] eqn:Es; [discriminate|].
    apply skipWs_cons in Es.
    destruct (c =? 123)%N.
    { destruct (JSON.skipWs r) as [|c' r']; [discriminate|].
      destruct (c' =? 125)%N; [discriminate|].
      pose proof (IHm [] r ltac:(lia)).
      destruct (JSON.members fuel [] r); congruence. }
    destruct (c =? 91)%N.
    { destruct (JSON.skipWs r) as [|c' r']; [discriminate|].
      destruct (c' =? 93)%N; [discriminate|].
      pose proof (IHe [] r ltac:(lia)).
      destruct (JSON.elements fuel [] r); congruence. }
    destruct (c =? DQUOTE)%N.
    { destruct (JSON.stringBody r) as [[str rest']|]; discriminate. }
    destruct (startsWith (js "true") (c :: r)); [discriminate|].
    destruct (startsWith (js "false") (c :: r)); [discriminate|].
    destruct (startsWith (js "null") (c :: r)); [discriminate|].
    destruct (JSON.numberLiteral (c :: r)) as [[n rest']|]; discriminate.
  - intros acc s Hf. cbn [JSON.elements].
    pose proof (IHv s ltac:(lia)) as Hv.
    destruct (JSON.value fuel s) as [v r| |] eqn:Ev; [|discriminate|congruence].
    apply (proj1 (JSON_progress fuel)) in Ev.
    destruct (JSON.skipWs r) as [|c r'] eqn:Er; [discriminate|].
    apply skipWs_cons in Er.
    destruct (c =? 44)%N; [apply IHe; lia|].
    destruct (c =? 93)%N; discriminate.
  - intros acc s Hf. cbn [JSON.members].
    destruct (JSON.skipWs s) as [|q r] eqn:Es; [discriminate|].
    apply skipWs_cons in Es.
    destruct (q =? DQUOTE)%N; [|discriminate].
    destruct (JSON.stringBody r) as [[k r1]|] eqn:Eb; [|discriminate].
    apply stringBody_progress in Eb.
    destruct (JSON.skipWs r1) as [|c r2] eqn:E1; [discriminate|].
    apply skipWs_cons in E1.
    destruct (c =? COLON)%N; [|discriminate].
    pose proof (IHv r2 ltac:(lia)) as Hv.
    destruct (JSON.value fuel r2) as [v r3| |] eqn:Ev; [|discriminate|congruence].
    apply (proj1 (JSON_progress fuel)) in Ev.
    destruct (JSON.skipWs r3) as [|c' r4] eqn:E3; [discriminate|].
    apply skipWs_cons in E3.
    destruct (c' =? 44)%N; [apply IHm; lia|].
    destruct (c' =? 125)%N; discriminate.
Qed.

(** The fuel [JSON.parse] gives its reader is never exhausted: the reader
    ends with a value or with a malformed text. *)
Lemma JSON_parse_fuel_enough (text : jsstring) :
  JSON.value (JSON.fuelFor text) text <> JSON.OutOfFuel.
Proof.
  apply (proj1 (JSON_fuel (JSON.fuelFor text))). unfold JSON.fuelFor. lia.
Qed.

(** ** Strings *)

Lemma startsWith_app_sep (p a b : jsstring) (c : char) :
  ~ In c p -> startsWith p (a ++ c :: b) = true -> startsWith p a = true.
Proof.
  revert a. induction p as [|x p IH]; intros a Hc H.
  - destruct a; reflexivity.
  - destruct a as [|y a]; simpl in *.
    + apply andb_true_iff in H as [H _]. apply N.eqb_eq in H.
      exfalso. apply Hc. left. exact H.
    + apply andb_true_iff in H as [H1 H2]. rewrite H1. simpl.
      apply IH; [intro Hin; apply Hc; right; exact Hin | exact H2].
Qed.

Lemma includes_cons_false (p s : jsstring) (c : char) :
  includes p (c :: s) = false -> startsWith p (c :: s) = false /\ includes p s = false.
Proof.
  simpl. intro H. apply orb_false_iff in H. exact H.
Qed.

Lemma includes_startsWith_false (p s : jsstring) :
  includes p s = false -> startsWith p s = false.
Proof.
  destruct s; simpl; intro H; apply orb_false_iff in H; tauto.
Qed.

Lemma includes_dropWhile_false (f : char -> bool) (p s : jsstring) :
  includes p s = false -> includes p (dropWhile f s) = false.
Proof.
  induction s as [|c s IH]; intro H; [exact H|].
  simpl. destruct (f c); [|exact H].
  apply IH. apply (includes_cons_false _ _ _ H).
Qed.

Lemma canonicalize_backtick (c : char) :
  (canonicalize BACKTICK =? canonicalize c)%N = true -> c = BACKTICK.
Proof.
  change (canonicalize BACKTICK) with 96%N. unfold BACKTICK, canonicalize.
  intro H. apply N.eqb_eq in H.
  destruct ((97 <=? c) && (c <=? 122))%N eqn:E; [|congruence].
  apply andb_true_iff in E as [E1 E2].
  apply N.leb_le in E1, E2. lia.
Qed.

Lemma startsWithCI_fenceJson (s : jsstring) :
  startsWithCI fenceJson s = true -> startsWith fence s = true.
Proof.
  change fenceJson with (BACKTICK :: BACKTICK :: BACKTICK :: js "json").
  change fence with [BACKTICK; BACKTICK; BACKTICK].
  destruct s as [|a [|b [|c s]]]; simpl; intro H;
    repeat rewrite andb_false_r in H; try discriminate.
  - 
    apply andb_true_iff in H as [Ha H].
    apply andb_true_iff in H as [Hb H].
    apply andb_true_iff in H as [Hc _].
    apply canonicalize_backtick in Ha, Hb, Hc. subst. reflexivity.
Qed.

Lemma removeStartFence_no_fence (s : jsstring) (atLineStart : bool) :
  includes fence s = false -> removeStartFence atLineStart s = s.
Proof.
  revert atLineStart. induction s as [|c s IH]; intros b H; [reflexivity|].
  destruct (includes_cons_false _ _ _ H) as [Hs Hi].
  cbn [removeStartFence].
  destruct (startsWithCI fenceJson (c :: s)) eqn:E.
  - apply startsWithCI_fenceJson in E. congruence.
  - rewrite andb_false_r. rewrite IH by exact Hi. reflexivity.
Qed.

Lemma endFenceHere_no_fence (s : jsstring) :
  includes fence s = false -> endFenceHere s = None.
Proof.
  intro H. unfold endFenceHere.
  rewrite (includes_startsWith_false _ _ (includes_dropWhile_false isWhiteSpace _ _ H)).
  reflexivity.
Qed.

Lemma removeEndFence_no_fence (s : jsstring) :
  includes fence s = false -> removeEndFence s = s.
Proof.
  induction s as [|c s IH]; intro H.
  - reflexivity.
  - cbn [removeEndFence]. rewrite (endFenceHere_no_fence _ H).
    rewrite IH; [reflexivity | apply (includes_cons_false _ _ _ H)].
Qed.

Lemma dropWhile_app_all (f : char -> bool) (a b : jsstring) :
  forallb f a = true -> dropWhile f (a ++ b) = dropWhile f b.
Proof.
  induction a as [|c a IH]; simpl; intro H; [reflexivity|].
  apply andb_true_iff in H as [H1 H2]. rewrite H1. apply IH, H2.
Qed.

Lemma dropWhile_app_some (f : char -> bool) (a b : jsstring) :
  forallb f a = false -> dropWhile f (a ++ b) = dropWhile f a ++ b.
Proof.
  induction a as [|c a IH]; simpl; intro H; [discriminate|].
  destruct (f c); simpl in H; [apply IH, H | reflexivity].
Qed.

Lemma dropWhile_head (f : char -> bool) (s : jsstring) (c : char) (r : jsstring) :
  dropWhile f s = c :: r -> f c = false.
Proof.
  induction s as [|x s IH]; simpl; [discriminate|].
  destruct (f x) eqn:E; [exact IH|]. intro H. inversion H. subst. exact E.
Qed.

Lemma isWhiteSpace_LF : isWhiteSpace LF = true.
Proof. reflexivity. Qed.

Lemma isWhiteSpace_backtick : isWhiteSpace BACKTICK = false.
Proof. reflexivity. Qed.

(** The trailing fence on a line of its own goes together with the white
    space before it. *)
Lemma removeEndFence_closing (u : jsstring) :
  includes fence u = false ->
  removeEndFence (u ++ LF :: fence) = trimEnd u.
Proof.
  induction u as [|c u IH]; intro H.
  - reflexivity.
  - destruct (includes_cons_false _ _ _ H) as [_ Hi].
    change ((c :: u) ++ LF :: fence) with (c :: (u ++ LF :: fence)).
    cbn [removeEndFence trimEnd].
    destruct (forallb isWhiteSpace (c :: u)) eqn:E.
    + unfold endFenceHere.
      change (c :: u ++ LF :: fence) with ((c :: u) ++ LF :: fence).
      rewrite (dropWhile_app_all _ _ _ E). reflexivity.
    + unfold endFenceHere.
      change (c :: u ++ LF :: fence) with ((c :: u) ++ LF :: fence).
      rewrite (dropWhile_app_some _ _ _ E).
      destruct (startsWith fence (dropWhile isWhiteSpace (c :: u) ++ LF :: fence)) eqn:S.
      * apply startsWith_app_sep in S.
        -- pose proof (includes_startsWith_false _ _
                         (includes_dropWhile_false isWhiteSpace _ _ H)) as S'.
           congruence.
        -- unfold fence, LF. simpl. intros [X|[X|[X|[]]]]; discriminate.
      * simpl. rewrite (IH Hi). reflexivity.
Qed.

Lemma trimEnd_all (s : jsstring) : forallb isWhiteSpace s = true -> trimEnd s = [].
Proof. destruct s; [reflexivity|]. intro H. cbn [trimEnd]. rewrite H. reflexivity. Qed.

Lemma trimEnd_forallb (s : jsstring) :
  forallb isWhiteSpace (trimEnd s) = forallb isWhiteSpace s.
Proof.
  induction s as [|c s IH]; [reflexivity|].
  cbn [trimEnd]. destruct (forallb isWhiteSpace (c :: s)) eqn:E; [reflexivity|].
  cbn [forallb] in *. rewrite IH. exact E.
Qed.

Lemma trimEnd_idempotent (s : jsstring) : trimEnd (trimEnd s) = trimEnd s.
Proof.
  induction s as [|c s IH]; [reflexivity|].
  cbn [trimEnd]. destruct (forallb isWhiteSpace (c :: s)) eqn:E; [reflexivity|].
  cbn [trimEnd]. cbn [forallb] in *. rewrite trimEnd_forallb, E, IH. reflexivity.
Qed.

Lemma trimStart_trimEnd_trimStart (s : jsstring) :
  trimStart (trimEnd (trimStart s)) = trimEnd (trimStart s).
Proof.
  unfold trimStart. destruct (dropWhile isWhiteSpace s) as [|c r] eqn:E; [reflexivity|].
  pose proof (dropWhile_head _ _ _ _ E) as Hc.
  cbn [trimEnd]. simpl forallb. rewrite Hc. simpl. rewrite Hc. reflexivity.
Qed.

Lemma trim_idempotent (s : jsstring) : trim (trim s) = trim s.
Proof.
  unfold trim. rewrite trimStart_trimEnd_trimStart. apply trimEnd_idempotent.
Qed.

Lemma stripFences_fenced (s : jsstring) :
  includes fence s = false -> stripFences (fenced s) = trim s.
Proof.
  intro H. unfold stripFences, fenced.
  assert (R : removeStartFence true (fenceJson ++ [LF] ++ s ++ [LF] ++ fence)
              = dropWhile isWhiteSpace (s ++ LF :: fence)) by reflexivity.
  rewrite R. clear R.
  destruct (forallb isWhiteSpace s) eqn:E.
  - rewrite (dropWhile_app_all _ _ _ E).
    unfold trim, trimStart.
    replace (dropWhile isWhiteSpace s) with (@nil char).
    + reflexivity.
    + clear H. induction s as [|c s IH]; [reflexivity|].
      simpl in E. apply andb_true_iff in E as [E1 E2]. simpl. rewrite E1. exact (IH E2).
  - rewrite (dropWhile_app_some _ _ _ E).
    rewrite removeEndFence_closing
      by (apply includes_dropWhile_false; exact H).
    change (trim (trimEnd (dropWhile isWhiteSpace s))) with (trim (trim s)).
    apply trim_idempotent.
Qed.

Lemma stripFences_no_fence (s : jsstring) :
  includes fence s = false -> stripFences s = trim s.
Proof.
  intro H. unfold stripFences.
  rewrite removeStartFence_no_fence by exact H.
  rewrite removeEndFence_no_fence by exact H. reflexivity.
Qed.

(** ** The JSON helper *)

Ltac unfold_M :=
  unfold bind, tryCatch, lift, console, ret, throw in *.

Lemma parseWithRepair_returns (jsonString context : jsstring) (t : trace) :
  exists events,
    parseWithRepair jsonString context t =
      (Return match JSON.parse jsonString with
              | Return v => v
              | Throw _ =>
                  match JSON.parse (cleanedString jsonString) with
                  | Return v => v
                  | Throw _ => VNull
                  end
              end, t ++ events)
    /\ requestsOf events = [].
Proof.
  unfold parseWithRepair. unfold_M.
  destruct (JSON.parse jsonString) as [v|e].
  - exists []. rewrite app_nil_r. split; reflexivity.
  - destruct (jsstring_eqb (cleanedString jsonString) jsonString);
      destruct (JSON.parse (cleanedString jsonString)) as [v|e'];
      eexists; rewrite <- ?app_assoc; split; reflexivity.
Qed.

Lemma extractAndParseJson_returns (rawString : jsval) (context : jsstring)
    (t : trace) :
  stringOrFalsy rawString = true ->
  exists events,
    extractAndParseJson rawString context t = (Return (extracted rawString), t ++ events)
    /\ requestsOf events = [].
Proof.
  unfold extractAndParseJson, stringOrFalsy. intro H.
  destruct rawString as [| |b|n|[|c s]|xs|props];
    try (apply negb_true_iff in H; rewrite H);
    try (eexists; split; reflexivity).
  cbn [truthy jsstring_eqb length Nat.eqb andb negb extracted].
  destruct (looksLikePlainText (stripFences (c :: s))).
  - eexists; split; reflexivity.
  - apply parseWithRepair_returns.
Qed.

(** A truthy value that is not a string makes the helper throw at once. *)
Lemma extractAndParseJson_throws (rawString : jsval) (context : jsstring)
    (t : trace) :
  stringOrFalsy rawString = false ->
  extractAndParseJson rawString context t = (Throw notAFunction, t).
Proof.
  unfold extractAndParseJson, stringOrFalsy. intro H.
  destruct rawString as [| |b|n|s|xs|props]; try discriminate;
    try (apply negb_false_iff in H; rewrite H); reflexivity.
Qed.

(** C4.  [extractAndParseJson] returns normally on every input of its
    declared type: [null] for a missing or empty input and for text the
    plain-text guard rejects; otherwise the strict parse of the stripped
    text when that succeeds, else the strict parse of the repaired text when
    that succeeds, else [null].  In particular [null], [undefined], the
    empty string and the truncated text [truncatedExample] all give
    [null]. *)
Theorem extractAndParseJson_never_throws :
  (forall (rawString : maybeString) (context : jsstring) (t : trace),
     exists t',
       extractAndParseJson (valueOf rawString) context t =
         (Return
            match rawString with
            | Null | Undefined | Str [] => VNull
            | Str s =>
                let jsonString := stripFences s in
                if looksLikePlainText jsonString then VNull
                else match JSON.parse jsonString with
                     | Return v => v
                     | Throw _ =>
                         match JSON.parse (cleanedString jsonString) with
                         | Return v => v
                         | Throw _ => VNull
                         end
                     end
            end, t'))
  /\ (forall context t,
        fst (extractAndParseJson VNull context t) = Return VNull
        /\ fst (extractAndParseJson VUndefined context t) = Return VNull
        /\ fst (extractAndParseJson (VStr []) context t) = Return VNull
        /\ fst (extractAndParseJson (VStr truncatedExample) context t) = Return VNull).
Proof.
  split.
  - intros rawString context t.
    assert (H : stringOrFalsy (valueOf rawString) = true)
      by (destruct rawString as [| |[|c s]]; reflexivity).
    destruct (extractAndParseJson_returns (valueOf rawString) context t H)
      as [events [E _]].
    exists (t ++ events). rewrite E. destruct rawString as [| |[|c s]]; reflexivity.
  - intros context t. split; [|split; [|split]].
    + reflexivity.
    + reflexivity.
    + reflexivity.
    + destruct (extractAndParseJson_returns (VStr truncatedExample) context t eq_refl)
        as [events [E _]].
      rewrite E. vm_compute. reflexivity.
Qed.

(** C6, counterexample.  A text that already ends in a fence line: unwrapped
    it parses to the array [[1]]; wrapped in one more pair of fence lines
    only the first closing fence is removed and the result is [null]. *)
Lemma fence_wrapping_counterexample :
  fst (extractAndParseJson (VStr alreadyFenced) [] [])
    = Return (VArr [VNum (numberOfN 1)])
  /\ fst (extractAndParseJson (VStr (fenced alreadyFenced)) [] []) = Return VNull.
Proof. split; vm_compute; reflexivity. Qed.

(** C6, amended.  For every text that contains no run of three backticks,
    wrapping it in an opening [```json] line and a closing [```] line does
    not change what [extractAndParseJson] returns. *)
Theorem fence_wrapping_invariant :
  forall (s context : jsstring) (t : trace),
    includes fence s = false ->
    fst (extractAndParseJson (VStr (fenced s)) context t)
      = fst (extractAndParseJson (VStr s) context t).
Proof.
  intros s context t H.
  destruct (extractAndParseJson_returns (VStr (fenced s)) context t eq_refl)
    as [e1 [E1 _]].
  destruct (extractAndParseJson_returns (VStr s) context t eq_refl) as [e2 [E2 _]].
  rewrite E1, E2. cbn [fst]. f_equal. unfold extracted.
  change (fenced s) with (BACKTICK :: (skipn 1 (fenced s))).
  cbv zeta.
  change (BACKTICK :: skipn 1 (fenced s)) with (fenced s).
  rewrite (stripFences_fenced _ H).
  destruct s as [|c s]; [vm_compute; reflexivity|].
  rewrite (stripFences_no_fence _ H). reflexivity.
Qed.

Lemma fence_wrapping_invariant_witness :
  includes fence (js "[1]") = false
  /\ fst (extractAndParseJson (VStr (fenced (js "[1]"))) [] [])
       = fst (extractAndParseJson (VStr (js "[1]")) [] []).
Proof.
  split; [reflexivity | apply (fence_wrapping_invariant (js "[1]") [] []); reflexivity].
Defined.

(** ** The repair pass *)

Lemma doubleQuotedTail_content (n : nat) :
  forall content rest,
    length content <= n ->
    closesAtEnd content = true ->
    doubleQuotedTail (content ++ DQUOTE :: rest) = Some (content, rest).
Proof.
  induction n as [|n IH]; intros content rest Hlen Hc.
  - destruct content; [|simpl in Hlen; lia]. reflexivity.
  - destruct content as [|c r]; [reflexivity|].
    cbn [closesAtEnd] in Hc.
    change ((c :: r) ++ DQUOTE :: rest) with (c :: (r ++ DQUOTE :: rest)).
    cbn [doubleQuotedTail].
    destruct (c =? DQUOTE)%N; [discriminate|].
    destruct r as [|d r'].
    + cbn [app]. apply negb_true_iff in Hc. rewrite Hc.
      cbn [andb doubleQuotedTail]. rewrite N.eqb_refl. reflexivity.
    + cbn [app].
      destruct ((c =? BACKSLASH)%N && (d =? DQUOTE)%N).
      * rewrite (IH r' rest); [reflexivity | simpl in Hlen; lia | exact Hc].
      * change (d :: r' ++ DQUOTE :: rest) with ((d :: r') ++ DQUOTE :: rest).
        rewrite (IH (d :: r') rest); [reflexivity | simpl in *; lia | exact Hc].
Qed.

Section Replace.

Variable quote : char.
Variable tail : jsstring -> option (jsstring * jsstring).

Lemma replaceQuotedValues_skip (a r : jsstring) :
  replaceQuotedValues quote tail (length a) (a ++ r)
    = replaceQuotedValues quote tail 0 r.
Proof.
  induction a as [|c a IH]; [reflexivity|]. exact IH.
Qed.

Lemma replaceQuotedValues_match (w group1 matched rest : jsstring) :
  forallb isWhiteSpace w = true ->
  isWhiteSpace quote = false ->
  tail (matched ++ rest) = Some (group1, rest) ->
  replaceQuotedValues quote tail 0 (COLON :: w ++ quote :: matched ++ rest)
    = js ": " ++ [quote] ++ escapeNewlines group1 ++ [quote]
        ++ replaceQuotedValues quote tail 0 rest.
Proof.
  intros Hw Hq Ht.
  cbn [replaceQuotedValues]. rewrite N.eqb_refl.
  unfold quotedValueHere.
  rewrite (dropWhile_app_all _ _ _ Hw). cbn [dropWhile]. rewrite Hq.
  rewrite N.eqb_refl, Ht.
  replace (length (w ++ quote :: matched ++ rest) - length rest)
    with (length (w ++ quote :: matched)).
  - replace (w ++ quote :: matched ++ rest) with ((w ++ quote :: matched) ++ rest)
      by (rewrite <- app_assoc; reflexivity).
    rewrite replaceQuotedValues_skip. reflexivity.
  - rewrite !length_app. cbn [length]. rewrite !length_app. lia.
Qed.

End Replace.

Lemma replaceQuotedValues_gap (tail : jsstring -> option (jsstring * jsstring))
    (u x : jsstring) :
  noValueStart u = true ->
  replaceQuotedValues DQUOTE tail 0 (u ++ x)
    = u ++ replaceQuotedValues DQUOTE tail 0 x.
Proof.
  induction u as [|c u IH]; [reflexivity|].
  cbn [noValueStart]. intro H. apply andb_true_iff in H as [Hc Hu].
  change ((c :: u) ++ x) with (c :: (u ++ x)).
  cbn [replaceQuotedValues]. rewrite (IH Hu).
  destruct (c =? COLON)%N; [|reflexivity].
  unfold quotedValueHere.
  destruct (dropWhile isWhiteSpace u) as [|q r] eqn:E; [discriminate|].
  assert (F : forallb isWhiteSpace u = false).
  { destruct (forallb isWhiteSpace u) eqn:F; [|reflexivity].
    pose proof (dropWhile_app_all isWhiteSpace u [] F) as D.
    rewrite app_nil_r in D. simpl in D. congruence. }
  rewrite (dropWhile_app_some _ _ _ F), E. cbn [app].
  apply negb_true_iff in Hc. rewrite Hc. reflexivity.
Qed.

Lemma doublePass (members : list stringMember) (tail : jsstring) :
  forallb delimited members = true ->
  noValueStart tail = true ->
  replaceQuotedValues DQUOTE doubleQuotedTail 0 (asWritten members tail)
    = asRepaired members tail.
Proof.
  intros Hm Ht. induction members as [|m ms IH].
  - cbn [asWritten asRepaired].
    rewrite <- (app_nil_r tail) at 1.
    rewrite (replaceQuotedValues_gap _ _ _ Ht). apply app_nil_r.
  - cbn [forallb] in Hm. apply andb_true_iff in Hm as [Hd Hms].
    unfold delimited in Hd.
    apply andb_true_iff in Hd as [Hd Hc]. apply andb_true_iff in Hd as [Hb Hg].
    cbn [asWritten asRepaired].
    rewrite (replaceQuotedValues_gap _ _ _ Hb).
    change (content m ++ DQUOTE :: asWritten ms tail)
      with (content m ++ [DQUOTE] ++ asWritten ms tail).
    rewrite app_assoc.
    rewrite (replaceQuotedValues_match DQUOTE doubleQuotedTail
               (gap m) (content m) (content m ++ [DQUOTE]) (asWritten ms tail) Hg).
    + rewrite (IH Hms). reflexivity.
    + reflexivity.
    + rewrite <- app_assoc.
      apply (doubleQuotedTail_content (length (content m))); [lia | exact Hc].
Qed.

Lemma escapeNewlinesAfter_no_line_feed (s : jsstring) (prev : option char) :
  forallb notLineFeed s = true -> escapeNewlinesAfter prev s = s.
Proof.
  revert prev. induction s as [|c s IH]; intros prev H; [reflexivity|].
  cbn [forallb] in H. apply andb_true_iff in H as [Hc Hs].
  cbn [escapeNewlinesAfter]. rewrite (IH _ Hs).
  unfold notLineFeed in Hc. apply negb_true_iff in Hc. rewrite Hc. reflexivity.
Qed.

(** *** What the patterns capture *)

Lemma quotesEscaped_any (g : jsstring) (p : option char) :
  quotesEscaped None g = true -> quotesEscaped p g = true.
Proof.
  destruct g as [|c r]; [reflexivity|]. cbn [quotesEscaped].
  rewrite orb_false_r. intro H. apply andb_true_iff in H as [Hc Hr].
  rewrite Hc, Hr. reflexivity.
Qed.

Lemma doubleQuotedTail_sound (n : nat) :
  forall s g rest,
    length s <= n ->
    doubleQuotedTail s = Some (g, rest) ->
    s = g ++ DQUOTE :: rest /\ quotesEscaped None g = true.
Proof.
  induction n as [|n IH]; intros s g rest Hlen H.
  - destruct s; [discriminate | simpl in Hlen; lia].
  - destruct s as [|c s1]; [discriminate|].
    cbn [doubleQuotedTail] in H.
    destruct (c =? DQUOTE)%N eqn:Ec.
    + apply N.eqb_eq in Ec. inversion H. subst. split; reflexivity.
    + destruct s1 as [|d s2]; [discriminate|].
      destruct ((c =? BACKSLASH)%N && (d =? DQUOTE)%N) eqn:Eb.
      * apply andb_true_iff in Eb as [Eb Ed]. apply N.eqb_eq in Ed. subst d.
        destruct (doubleQuotedTail s2) as [[g' rest']|] eqn:E2.
        -- inversion H. subst.
           destruct (IH s2 g' rest) as [-> Hg]; [simpl in Hlen; lia | exact E2 |].
           split; [reflexivity|].
           cbn [quotesEscaped]. rewrite Ec, Eb. cbn [negb orb andb].
           apply quotesEscaped_any, Hg.
        -- inversion H. subst. split; [reflexivity|].
           cbn [quotesEscaped]. rewrite Ec. reflexivity.
      * destruct (doubleQuotedTail (d :: s2)) as [[g' rest']|] eqn:E1; [|discriminate].
        inversion H. subst.
        destruct (IH (d :: s2) g' rest) as [E Hg]; [simpl in *; lia | exact E1 |].
        rewrite E. split; [reflexivity|].
        cbn [quotesEscaped]. rewrite Ec. cbn [negb orb andb].
        apply quotesEscaped_any, Hg.
Qed.

Lemma singleQuotedTail_sound (s g rest : jsstring) :
  singleQuotedTail s = Some (g, rest) ->
  s = g ++ SQUOTE :: rest /\ forallb (fun c => negb (c =? SQUOTE)%N) g = true.
Proof.
  revert g. induction s as [|c s IH]; intros g H; [discriminate|].
  cbn [singleQuotedTail] in H.
  destruct (c =? SQUOTE)%N eqn:Ec.
  - apply N.eqb_eq in Ec. inversion H. subst. split; reflexivity.
  - destruct (singleQuotedTail s) as [[g' rest']|]; [|discriminate].
    inversion H. subst.
    destruct (IH g' eq_refl) as [-> Hg].
    split; [reflexivity|]. cbn [forallb]. rewrite Ec, Hg. reflexivity.
Qed.

Lemma dropWhile_split (f : char -> bool) (s : jsstring) :
  exists w, s = w ++ dropWhile f s /\ forallb f w = true.
Proof.
  induction s as [|c s [w [E F]]]; [exists []; split; reflexivity|].
  cbn [dropWhile]. destruct (f c) eqn:Ec.
  - exists (c :: w). cbn [app forallb]. rewrite Ec, F, <- E. split; reflexivity.
  - exists []. split; reflexivity.
Qed.

Section Rewritten.

Variable quote : char.
Variable tail : jsstring -> option (jsstring * jsstring).
Hypothesis tail_sound :
  forall body g rest,
    tail body = Some (g, rest) ->
    body = g ++ quote :: rest /\ spanOf quote g = true.

Lemma quotedValueHere_sound (s g rest : jsstring) :
  quotedValueHere quote tail s = Some (g, rest) ->
  exists w,
    s = w ++ quote :: g ++ quote :: rest
    /\ forallb isWhiteSpace w = true
    /\ spanOf quote g = true.
Proof.
  unfold quotedValueHere. intro H.
  destruct (dropWhile_split isWhiteSpace s) as [w [E F]].
  destruct (dropWhile isWhiteSpace s) as [|q body]; [discriminate|].
  destruct (q =? quote)%N eqn:Eq; [|discriminate].
  apply N.eqb_eq in Eq. subst q.
  destruct (tail_sound _ _ _ H) as [-> Hg].
  exists w. split; [exact E | split; assumption].
Qed.

Lemma replaceQuotedValues_rewritten (n : nat) :
  forall s, length s <= n -> rewritten quote s (replaceQuotedValues quote tail 0 s).
Proof.
  induction n as [|n IH]; intros s Hlen.
  - destruct s; [constructor | simpl in Hlen; lia].
  - destruct s as [|c s']; [constructor|].
    cbn [replaceQuotedValues].
    destruct (c =? COLON)%N eqn:Ec.
    + destruct (quotedValueHere quote tail s') as [[g rest]|] eqn:Eq.
      * apply N.eqb_eq in Ec. subst c.
        destruct (quotedValueHere_sound _ _ _ Eq) as [w [E [Hw Hg]]].
        cbv zeta.
        replace (length s' - length rest) with (length (w ++ quote :: g ++ [quote])).
        -- assert (E' : s' = (w ++ quote :: g ++ [quote]) ++ rest).
           { rewrite E, <- !app_assoc. cbn [app]. rewrite <- app_assoc. reflexivity. }
           rewrite E' at 2. rewrite replaceQuotedValues_skip. rewrite E.
           change ([quote] ++ escapeNewlines g ++ [quote]
                     ++ replaceQuotedValues quote tail 0 rest)
             with (quote :: escapeNewlines g ++ quote
                     :: replaceQuotedValues quote tail 0 rest).
           apply rewritten_value; [exact Hw | exact Hg |].
           apply IH. rewrite E in Hlen.
           repeat first [rewrite length_app in Hlen | progress cbn [length] in Hlen]. lia.
        -- rewrite E. repeat first [rewrite length_app | progress cbn [length]]. lia.
      * constructor. apply IH. simpl in Hlen. lia.
    + constructor. apply IH. simpl in Hlen. lia.
Qed.

End Rewritten.

Lemma doublePass_rewritten (s : jsstring) :
  rewritten DQUOTE s (replaceQuotedValues DQUOTE doubleQuotedTail 0 s).
Proof.
  apply (replaceQuotedValues_rewritten DQUOTE doubleQuotedTail) with (n := length s);
    [|lia].
  intros body g rest H.
  exact (doubleQuotedTail_sound (length body) body g rest (le_n _) H).
Qed.

Lemma singlePass_rewritten (s : jsstring) :
  rewritten SQUOTE s (replaceQuotedValues SQUOTE singleQuotedTail 0 s).
Proof.
  apply (replaceQuotedValues_rewritten SQUOTE singleQuotedTail) with (n := length s);
    [|lia].
  intros body g rest H. exact (singleQuotedTail_sound _ _ _ H).
Qed.

(** *** Texts in which the second pattern has no match *)

Lemma noSingleQuotedStart_cons (c : char) (u : jsstring) :
  noSingleQuotedStart (c :: u)
    = (if (c =? COLON)%N then noSingleQuoteAhead u else true) && noSingleQuotedStart u.
Proof. reflexivity. Qed.

Lemma singlePass_absent (s : jsstring) :
  noSingleQuotedStart s = true ->
  replaceQuotedValues SQUOTE singleQuotedTail 0 s = s.
Proof.
  induction s as [|c s IH]; [reflexivity|].
  rewrite noSingleQuotedStart_cons. intro H. apply andb_true_iff in H as [Hc Hs].
  cbn [replaceQuotedValues]. rewrite (IH Hs).
  destruct (c =? COLON)%N; [|reflexivity].
  unfold quotedValueHere. unfold noSingleQuoteAhead in Hc.
  destruct (dropWhile isWhiteSpace s) as [|q body]; [reflexivity|].
  apply negb_true_iff in Hc. rewrite Hc. reflexivity.
Qed.

Lemma noSingleQuoteAhead_app_stop (a b : jsstring) (z : char) :
  isWhiteSpace z = false -> (z =? SQUOTE)%N = false ->
  noSingleQuoteAhead (a ++ z :: b) = noSingleQuoteAhead a.
Proof.
  intros Hz Hq. unfold noSingleQuoteAhead. induction a as [|c a IH].
  - cbn [app dropWhile]. rewrite Hz, Hq. reflexivity.
  - cbn [app dropWhile]. destruct (isWhiteSpace c); [exact IH | reflexivity].
Qed.

Lemma noSingleQuotedStart_app_stop (a b : jsstring) (z : char) :
  isWhiteSpace z = false -> (z =? SQUOTE)%N = false ->
  noSingleQuotedStart (a ++ z :: b)
    = noSingleQuotedStart a && noSingleQuotedStart (z :: b).
Proof.
  intros Hz Hq. induction a as [|c a IH]; [reflexivity|].
  change ((c :: a) ++ z :: b) with (c :: (a ++ z :: b)).
  rewrite !noSingleQuotedStart_cons, IH, (noSingleQuoteAhead_app_stop _ _ _ Hz Hq).
  rewrite andb_assoc. reflexivity.
Qed.

Lemma noSingleQuoteAhead_escaped (s : jsstring) (prev : option char) :
  noSingleQuoteAhead s = true ->
  noSingleQuoteAhead (escapeNewlinesAfter prev s) = true.
Proof.
  revert prev. unfold noSingleQuoteAhead.
  induction s as [|c s IH]; intros prev H; [reflexivity|].
  cbn [escapeNewlinesAfter dropWhile] in *.
  destruct (isWhiteSpace c) eqn:Ew.
  - destruct ((c =? LF)%N && _).
    + reflexivity.
    + cbn [app dropWhile]. rewrite Ew. apply IH, H.
  - assert (Ec : (c =? LF)%N = false).
    { destruct (c =? LF)%N eqn:E; [|reflexivity].
      apply N.eqb_eq in E. subst c. discriminate. }
    rewrite Ec. cbn [andb app dropWhile]. rewrite Ew. exact H.
Qed.

Lemma noSingleQuotedStart_escaped (s : jsstring) (prev : option char) :
  noSingleQuotedStart s = true ->
  noSingleQuotedStart (escapeNewlinesAfter prev s) = true.
Proof.
  revert prev. induction s as [|c s IH]; intros prev H; [reflexivity|].
  rewrite noSingleQuotedStart_cons in H. apply andb_true_iff in H as [Hc Hs].
  cbn [escapeNewlinesAfter].
  destruct ((c =? LF)%N && _) eqn:E.
  - cbn [app]. rewrite !noSingleQuotedStart_cons.
    change ((BACKSLASH =? COLON)%N) with false.
    change ((110 =? COLON)%N) with false.
    cbn [andb]. apply IH, Hs.
  - cbn [app]. rewrite noSingleQuotedStart_cons, (IH _ Hs), andb_true_r.
    destruct (c =? COLON)%N; [|reflexivity].
    apply noSingleQuoteAhead_escaped, Hc.
Qed.

Lemma asRepaired_no_single_quoted (members : list stringMember) (tail : jsstring) :
  forallb delimited members = true ->
  noSingleQuotedStart (asWritten members tail) = true ->
  noSingleQuotedStart (asRepaired members tail) = true.
Proof.
  intro Hm. induction members as [|m ms IH]; [trivial|].
  cbn [forallb] in Hm. apply andb_true_iff in Hm as [Hd Hms].
  unfold delimited in Hd.
  apply andb_true_iff in Hd as [Hd _]. apply andb_true_iff in Hd as [_ Hg].
  cbn [asWritten asRepaired].
  change (js ": " ++ DQUOTE :: escapeNewlines (content m) ++ DQUOTE :: asRepaired ms tail)
    with (COLON :: 32%N :: DQUOTE :: escapeNewlines (content m)
            ++ DQUOTE :: asRepaired ms tail).
  rewrite !(noSingleQuotedStart_app_stop (before m) _ COLON) by reflexivity.
  rewrite (noSingleQuotedStart_cons COLON (gap m ++ _)).
  rewrite (noSingleQuotedStart_app_stop (gap m) _ DQUOTE) by reflexivity.
  rewrite (noSingleQuotedStart_cons DQUOTE (content m ++ _)).
  rewrite (noSingleQuotedStart_app_stop (content m) _ DQUOTE) by reflexivity.
  rewrite (noSingleQuotedStart_cons DQUOTE (asWritten ms tail)).
  rewrite (noSingleQuotedStart_cons COLON (32%N :: _)).
  rewrite (noSingleQuotedStart_cons 32%N (DQUOTE :: _)).
  rewrite (noSingleQuotedStart_cons DQUOTE (escapeNewlines (content m) ++ _)).
  rewrite (noSingleQuotedStart_app_stop (escapeNewlines (content m)) _ DQUOTE)
    by reflexivity.
  rewrite (noSingleQuotedStart_cons DQUOTE (asRepaired ms tail)).
  change ((COLON =? COLON)%N) with true.
  change ((32 =? COLON)%N) with false. change ((DQUOTE =? COLON)%N) with false.
  change (noSingleQuoteAhead (32%N :: DQUOTE :: escapeNewlines (content m)
                  ++ DQUOTE :: asRepaired ms tail)) with true.
  cbn [andb].
  intro H.
  repeat (apply andb_true_iff in H as [? H]).
  repeat match goal with
         | X : _ && _ = true |- _ => apply andb_true_iff in X as [? ?]
         end.
  unfold escapeNewlines.
  rewrite noSingleQuotedStart_escaped by assumption.
  rewrite (IH Hms) by assumption.
  repeat (apply andb_true_iff; split); try assumption; reflexivity.
Qed.

Lemma cleanedString_members (members : list stringMember) (tail : jsstring) :
  forallb delimited members = true ->
  noValueStart tail = true ->
  noSingleQuotedStart (asWritten members tail) = true ->
  cleanedString (asWritten members tail) = asRepaired members tail.
Proof.
  intros Hm Ht Hq. unfold cleanedString.
  rewrite (doublePass _ _ Hm Ht).
  apply singlePass_absent.
  exact (asRepaired_no_single_quoted _ _ Hm Hq).
Qed.

Lemma startsWith_same_length (a b : jsstring) :
  length a = length b -> startsWith a b = true -> a = b.
Proof.
  revert b. induction a as [|x a IH]; intros [|y b] L H; try discriminate; [reflexivity|].
  cbn [startsWith] in H. apply andb_true_iff in H as [H1 H2].
  apply N.eqb_eq in H1. subst y. f_equal. apply IH; [simpl in L; lia | exact H2].
Qed.

Lemma jsstring_eqb_true (a b : jsstring) : jsstring_eqb a b = true -> a = b.
Proof.
  unfold jsstring_eqb. intro H. apply andb_true_iff in H as [L S].
  apply Nat.eqb_eq in L. exact (startsWith_same_length _ _ L S).
Qed.

Lemma asRepaired_preEscaped (members : list stringMember) (tail : jsstring) :
  forallb (fun m => jsstring_eqb (gap m) (js " ")) members = true ->
  asRepaired members tail = preEscaped members tail.
Proof.
  unfold preEscaped. induction members as [|m ms IH]; [reflexivity|].
  cbn [forallb]. intro H. apply andb_true_iff in H as [Hg Hms].
  apply jsstring_eqb_true in Hg.
  cbn [asRepaired map asWritten before gap content]. rewrite Hg, (IH Hms). reflexivity.
Qed.

Lemma repaired_result (s context : jsstring) (t : trace) (e : exn) :
  stripFences s = s ->
  looksLikePlainText s = false ->
  JSON.parse s = Throw e ->
  fst (extractAndParseJson (VStr s) context t)
    = Return match JSON.parse (cleanedString s) with
             | Return v => v
             | Throw _ => VNull
             end.
Proof.
  intros Hstrip Hguard Hfail.
  destruct (extractAndParseJson_returns (VStr s) context t eq_refl) as [events [E _]].
  rewrite E. cbn [fst]. f_equal. unfold extracted.
  destruct s as [|c r]; [vm_compute; reflexivity|].
  cbv zeta. rewrite Hstrip, Hguard, Hfail. reflexivity.
Qed.




(** ** [invertAbstract] *)

Lemma wordAt_assign (map : list (Z * jsstring)) (p q : Z) (w : jsstring) :
  wordAt (assign map p w) q = if (p =? q)%Z then Some w else wordAt map q.
Proof.
  induction map as [|[p' w'] map IH]; [reflexivity|].
  cbn [assign]. destruct (Z.eqb_spec p' p) as [->|Hne].
  - cbn [wordAt]. destruct (p =? q)%Z; reflexivity.
  - cbn [wordAt]. rewrite IH.
    destruct (Z.eqb_spec p' q) as [->|Hq]; [|reflexivity].
    destruct (Z.eqb_spec p q); [congruence | reflexivity].
Qed.

Lemma wordAt_in_keys (map : list (Z * jsstring)) (q : Z) :
  In q (List.map fst map) <-> exists w, wordAt map q = Some w.
Proof.
  induction map as [|[p w] map IH].
  - simpl. split; [tauto | intros [w H]; discriminate].
  - cbn [List.map fst In wordAt]. destruct (Z.eqb_spec p q) as [->|Hne].
    + split; [intros _; eexists; reflexivity | intros _; left; reflexivity].
    + rewrite <- IH. tauto.
Qed.

Lemma keys_assign (map : list (Z * jsstring)) (p q : Z) (w : jsstring) :
  In q (List.map fst (assign map p w)) <-> q = p \/ In q (List.map fst map).
Proof.
  rewrite !wordAt_in_keys. setoid_rewrite wordAt_assign.
  destruct (Z.eqb_spec p q) as [->|Hne].
  - split; [intros _; left; reflexivity | intros _; eexists; reflexivity].
  - split; [intros H; right; exact H | intros [H|H]; [congruence | exact H]].
Qed.

Lemma keys_assign_NoDup (map : list (Z * jsstring)) (p : Z) (w : jsstring) :
  NoDup (List.map fst map) -> NoDup (List.map fst (assign map p w)).
Proof.
  induction map as [|[p' w'] map IH]; intro H.
  - simpl. constructor; [intros [] | constructor].
  - cbn [assign]. destruct (Z.eqb_spec p' p) as [->|Hne]; [exact H|].
    cbn [List.map fst] in *. inversion H as [|? ? Hn Hd]; subst.
    constructor; [|exact (IH Hd)].
    rewrite keys_assign. intros [E|E]; [congruence | exact (Hn E)].
Qed.

Lemma writeWord_keys (w : jsstring) (ps : list Z) (map : list (Z * jsstring)) (q : Z) :
  In q (List.map fst (fold_left (fun map pos => assign map pos w) ps map))
  <-> In q ps \/ In q (List.map fst map).
Proof.
  revert map. induction ps as [|p ps IH]; intro map; cbn [fold_left In].
  - tauto.
  - rewrite IH, keys_assign. intuition congruence.
Qed.

Lemma writeWord_NoDup (w : jsstring) (ps : list Z) (map : list (Z * jsstring)) :
  NoDup (List.map fst map) ->
  NoDup (List.map fst (fold_left (fun map pos => assign map pos w) ps map)).
Proof.
  revert map. induction ps as [|p ps IH]; intros map H; cbn [fold_left]; [exact H|].
  apply IH, keys_assign_NoDup, H.
Qed.

Lemma writeWord_wordAt (w : jsstring) (ps : list Z) (map : list (Z * jsstring))
    (q : Z) (w' : jsstring) :
  wordAt (fold_left (fun map pos => assign map pos w) ps map) q = Some w' ->
  (w' = w /\ In q ps) \/ wordAt map q = Some w'.
Proof.
  revert map. induction ps as [|p ps IH]; intros map H; cbn [fold_left] in H.
  - right. exact H.
  - apply IH in H. destruct H as [[-> H]|H]; [left; split; [reflexivity | right; exact H]|].
    rewrite wordAt_assign in H. destruct (Z.eqb_spec p q) as [->|Hne].
    + inversion H. left. split; [reflexivity | left; reflexivity].
    + right. exact H.
Qed.

Lemma positionMap_from_keys (entries : list (jsstring * list Z))
    (acc : list (Z * jsstring)) (q : Z) :
  In q (List.map fst
          (fold_left
             (fun map entry =>
                fold_left (fun map pos => assign map pos (fst entry)) (snd entry) map)
             entries acc))
  <-> (exists w, listedUnder entries q w) \/ In q (List.map fst acc).
Proof.
  revert acc. induction entries as [|[w ps] entries IH]; intro acc; cbn [fold_left].
  - split; [intro H; right; exact H | intros [[w [ps [[] _]]]|H]; exact H].
  - rewrite IH. cbn [fst snd]. rewrite writeWord_keys. unfold listedUnder. split.
    + intros [[w' [ps' [Hin Hq]]]|[Hq|Hq]].
      * left. exists w', ps'. split; [right; exact Hin | exact Hq].
      * left. exists w, ps. split; [left; reflexivity | exact Hq].
      * right. exact Hq.
    + intros [[w' [ps' [[E|Hin] Hq]]]|Hq].
      * inversion E; subst. right. left. exact Hq.
      * left. exists w', ps'. split; assumption.
      * right. right. exact Hq.
Qed.

Lemma positionMap_from_NoDup (entries : list (jsstring * list Z))
    (acc : list (Z * jsstring)) :
  NoDup (List.map fst acc) ->
  NoDup (List.map fst
           (fold_left
              (fun map entry =>
                 fold_left (fun map pos => assign map pos (fst entry)) (snd entry) map)
              entries acc)).
Proof.
  revert acc. induction entries as [|[w ps] entries IH]; intros acc H; cbn [fold_left].
  - exact H.
  - apply IH, writeWord_NoDup, H.
Qed.

Lemma positionMap_from_wordAt (entries : list (jsstring * list Z))
    (acc : list (Z * jsstring)) (q : Z) (w : jsstring) :
  wordAt (fold_left
            (fun map entry =>
               fold_left (fun map pos => assign map pos (fst entry)) (snd entry) map)
            entries acc) q = Some w ->
  listedUnder entries q w \/ wordAt acc q = Some w.
Proof.
  revert acc. induction entries as [|[w' ps] entries IH]; intros acc H; cbn [fold_left] in H.
  - right. exact H.
  - apply IH in H. destruct H as [[ps' [Hin Hq]]|H].
    + left. exists ps'. split; [right; exact Hin | exact Hq].
    + cbn [fst snd] in H. apply writeWord_wordAt in H. destruct H as [[-> Hq]|H].
      * left. exists ps. split; [left; reflexivity | exact Hq].
      * right. exact H.
Qed.

Lemma positionMap_keys (entries : list (jsstring * list Z)) (q : Z) :
  In q (List.map fst (positionMap entries)) <-> exists w, listedUnder entries q w.
Proof.
  unfold positionMap. rewrite positionMap_from_keys. simpl. tauto.
Qed.

Lemma positionMap_wordAt (entries : list (jsstring * list Z)) (q : Z) (w : jsstring) :
  wordAt (positionMap entries) q = Some w -> listedUnder entries q w.
Proof.
  unfold positionMap. intro H. apply positionMap_from_wordAt in H.
  destruct H as [H|H]; [exact H | discriminate].
Qed.

Lemma positionMap_NoDup (entries : list (jsstring * list Z)) :
  NoDup (List.map fst (positionMap entries)).
Proof. apply positionMap_from_NoDup. constructor. Qed.

(** *** The numeric sort *)

Lemma insertSorted_In (a : Z) (l : list Z) (x : Z) :
  In x (insertSorted a l) <-> x = a \/ In x l.
Proof.
  induction l as [|b l IH]; cbn [insertSorted In].
  - intuition congruence.
  - destruct (a <? b)%Z; cbn [In]; [intuition congruence|].
    rewrite IH. intuition congruence.
Qed.

Lemma insertSorted_sorted (a : Z) (l : list Z) :
  ~ In a l -> StronglySorted Z.lt l -> StronglySorted Z.lt (insertSorted a l).
Proof.
  induction l as [|b l IH]; intros Hn Hs; cbn [insertSorted].
  - constructor; constructor.
  - inversion Hs as [|? ? Hs' Hb]; subst.
    destruct (Z.ltb_spec a b) as [Hlt|Hge].
    + constructor; [exact Hs|]. constructor; [exact Hlt|].
      rewrite Forall_forall in *. intros x Hx. specialize (Hb x Hx). lia.
    + constructor.
      * apply IH; [intro Hin; apply Hn; right; exact Hin | exact Hs'].
      * rewrite Forall_forall in *. intros x Hx.
        apply insertSorted_In in Hx. destruct Hx as [->|Hx]; [|exact (Hb x Hx)].
        assert (a <> b) by (intro; subst; apply Hn; left; reflexivity). lia.
Qed.

Lemma insertSorted_perm (a : Z) (l : list Z) : Permutation (insertSorted a l) (a :: l).
Proof.
  induction l as [|b l IH]; cbn [insertSorted]; [reflexivity|].
  destruct (a <? b)%Z; [reflexivity|].
  rewrite IH. apply perm_swap.
Qed.

Lemma sortNumeric_from (xs acc : list Z) :
  NoDup (xs ++ acc) -> StronglySorted Z.lt acc ->
  StronglySorted Z.lt (fold_left (fun sorted a => insertSorted a sorted) xs acc)
  /\ Permutation (fold_left (fun sorted a => insertSorted a sorted) xs acc) (xs ++ acc).
Proof.
  revert acc. induction xs as [|a xs IH]; intros acc Hd Hs; cbn [fold_left].
  - split; [exact Hs | reflexivity].
  - cbn [app] in Hd.
    assert (P : Permutation (xs ++ insertSorted a acc) (a :: xs ++ acc)).
    { rewrite insertSorted_perm. symmetry. apply Permutation_middle. }
    destruct (IH (insertSorted a acc)) as [S I].
    + apply (Permutation_NoDup (Permutation_sym P)), Hd.
    + apply insertSorted_sorted; [|exact Hs].
      inversion Hd as [|? ? Hn _]; subst.
      intro Hin. apply Hn, in_or_app. right. exact Hin.
    + split; [exact S|]. rewrite I. exact P.
Qed.

Lemma sortNumeric_sorted (xs : list Z) :
  NoDup xs ->
  StronglySorted Z.lt (sortNumeric xs) /\ Permutation (sortNumeric xs) xs.
Proof.
  intro H. unfold sortNumeric.
  destruct (sortNumeric_from xs []) as [S P].
  - rewrite app_nil_r. exact H.
  - constructor.
  - rewrite app_nil_r in P. split; assumption.
Qed.

(** Two strictly ascending lists with the same members are the same list. *)
Lemma ascending_unique (l l' : list Z) :
  StronglySorted Z.lt l -> StronglySorted Z.lt l' ->
  (forall x, In x l <-> In x l') -> l = l'.
Proof.
  revert l'. induction l as [|a l IH]; intros l' S S' E.
  - destruct l' as [|b l']; [reflexivity|].
    exfalso. apply (proj2 (E b)). left. reflexivity.
  - destruct l' as [|b l'].
    + exfalso. apply (proj1 (E a)). left. reflexivity.
    + inversion S as [|? ? Sl Fa]; subst. inversion S' as [|? ? Sl' Fb]; subst.
      rewrite Forall_forall in Fa, Fb.
      assert (a = b).
      { destruct (proj1 (E a) (or_introl eq_refl)) as [->|Ha]; [reflexivity|].
        destruct (proj2 (E b) (or_introl eq_refl)) as [->|Hb]; [reflexivity|].
        specialize (Fa b Hb). specialize (Fb a Ha). lia. }
      subst b. f_equal. apply IH; [exact Sl | exact Sl' |].
      intro x. split; intro Hx.
      * destruct (proj1 (E x) (or_intror Hx)) as [->|H]; [|exact H].
        specialize (Fa x Hx). lia.
      * destruct (proj2 (E x) (or_intror Hx)) as [->|H]; [|exact H].
        specialize (Fb x Hx). lia.
Qed.

(** The positions [invertAbstract] emits: the listed ones, strictly
    ascending. *)
Lemma sorted_positions (entries : list (jsstring * list Z)) :
  StronglySorted Z.lt (sortNumeric (List.map fst (positionMap entries)))
  /\ forall q, In q (sortNumeric (List.map fst (positionMap entries)))
               <-> exists w, listedUnder entries q w.
Proof.
  destruct (sortNumeric_sorted _ (positionMap_NoDup entries)) as [S P].
  split; [exact S|]. intro q. rewrite <- positionMap_keys.
  split; intro H.
  - exact (Permutation_in _ P H).
  - exact (Permutation_in _ (Permutation_sym P) H).
Qed.

Lemma listedUnder_perm (entries entries' : list (jsstring * list Z)) (q : Z)
    (w : jsstring) :
  Permutation entries entries' -> listedUnder entries q w -> listedUnder entries' q w.
Proof.
  intros P [ps [Hin Hq]]. exists ps. split; [exact (Permutation_in _ P Hin) | exact Hq].
Qed.

Lemma invertAbstract_perm (entries entries' : list (jsstring * list Z)) :
  oneWordPerPosition entries ->
  Permutation entries entries' ->
  invertAbstract (Some entries') = invertAbstract (Some entries).
Proof.
  intros Hone P. cbn [invertAbstract]. cbv zeta.
  destruct (sorted_positions entries) as [S K].
  destruct (sorted_positions entries') as [S' K'].
  assert (E : sortNumeric (List.map fst (positionMap entries'))
              = sortNumeric (List.map fst (positionMap entries))).
  { apply ascending_unique; [exact S' | exact S |].
    intro q. rewrite K, K'. split; intros [w H]; exists w.
    - exact (listedUnder_perm _ _ _ _ (Permutation_sym P) H).
    - exact (listedUnder_perm _ _ _ _ P H). }
  rewrite E. f_equal. apply map_ext_in. intros q Hq.
  apply K in Hq. apply positionMap_keys in Hq as Hk.
  assert (Hk' : In q (List.map fst (positionMap entries'))).
  { apply positionMap_keys. destruct Hq as [w H]. exists w.
    exact (listedUnder_perm _ _ _ _ P H). }
  apply wordAt_in_keys in Hk as [w Hw]. apply wordAt_in_keys in Hk' as [w' Hw'].
  rewrite Hw, Hw'.
  apply positionMap_wordAt in Hw, Hw'.
  apply (listedUnder_perm _ _ _ _ (Permutation_sym P)) in Hw'.
  destruct Hw as [ps [Hin Hp]]. destruct Hw' as [ps' [Hin' Hp']].
  exact (Hone _ _ _ _ _ Hin' Hin Hp' Hp).
Qed.

Lemma Forall2_map_self {A B} (R : A -> B -> Prop) (f : A -> B) (l : list A) :
  (forall x, In x l -> R x (f x)) -> Forall2 R l (List.map f l).
Proof.
  induction l as [|a l IH]; intro H; cbn [List.map]; constructor.
  - apply H. left. reflexivity.
  - apply IH. intros x Hx. apply H. right. exact Hx.
Qed.

(** C7.  [invertAbstract] returns words joined by single spaces, one for
    each listed position, taken in strictly ascending order of position,
    each word being one that lists the position.  For the inverted index of
    a text, in which every position holds one token and so stands under one
    word, the result does not depend on the order in which the keys of the
    index are enumerated.  The index quick: [0], fox: [1] yields
    [quick fox]. *)
Theorem invertAbstract_ascending :
  (forall entries : list (jsstring * list Z),
     (exists positions words,
        StronglySorted Z.lt positions
        /\ (forall q, In q positions <-> exists w, listedUnder entries q w)
        /\ Forall2 (listedUnder entries) positions words
        /\ invertAbstract (Some entries) = join (js " ") words)
     /\ (forall entries',
           oneWordPerPosition entries ->
           Permutation entries entries' ->
           invertAbstract (Some entries') = invertAbstract (Some entries)))
  /\ invertAbstract (Some quickFox) = js "quick fox".
Proof.
  split; [|reflexivity].
  intro entries. split; [|apply invertAbstract_perm].
  destruct (sorted_positions entries) as [S K].
  exists (sortNumeric (List.map fst (positionMap entries))).
  eexists. split; [exact S|]. split; [exact K|]. split; [|reflexivity].
  apply Forall2_map_self. intros q Hq.
  apply K, positionMap_keys, wordAt_in_keys in Hq. destruct Hq as [w Hw].
  rewrite Hw. exact (positionMap_wordAt _ _ _ Hw).
Qed.

Lemma invertAbstract_ascending_witness :
  invertAbstract (Some foxQuick) = invertAbstract (Some quickFox).
Proof.
  apply (proj2 (proj1 invertAbstract_ascending quickFox) foxQuick).
  - intros w1 ps1 w2 ps2 q H1 H2 Q1 Q2.
    simpl in H1, H2.
    destruct H1 as [H1|[H1|[]]]; destruct H2 as [H2|[H2|[]]];
      inversion H1; inversion H2; subst; try reflexivity;
      simpl in Q1, Q2; lia.
  - apply perm_swap.
Defined.

(** ** The gateway *)

Lemma startsWith_app (p b : jsstring) : startsWith p (p ++ b) = true.
Proof.
  induction p as [|x p IH]; [reflexivity|].
  cbn [app startsWith]. rewrite N.eqb_refl. exact IH.
Qed.

Lemma includes_app (p a b : jsstring) : includes p (a ++ p ++ b) = true.
Proof.
  induction a as [|c a IH].
  - cbn [app]. destruct (p ++ b) eqn:E; cbn [includes]; rewrite <- E, startsWith_app;
      reflexivity.
  - cbn [app includes]. rewrite IH. apply orb_true_r.
Qed.

Ltac split_data data :=
  let feedback := fresh "feedback" in
  let cands := fresh "cands" in
  let reason := fresh "reason" in
  let finish := fresh "finish" in
  let content := fresh "content" in
  let prts := fresh "prts" in
  let txt := fresh "txt" in
  destruct data as [[feedback cands]|];
  [ (destruct feedback as [[reason ?]|]; [destruct reason as [[|? ?]|]|]);
    destruct cands as [[|[finish content] ?]|];
    try (destruct finish as [[|? ?]|];
         (destruct content as [[prts]|];
          [destruct prts as [[|[txt] ?]|]; [|destruct (truthy txt) eqn:?|]|]))
  | ].

Lemma diagnosticOf_injective (a b : envelopeCheck) :
  diagnosticOf a = diagnosticOf b -> a = b.
Proof. destruct a, b; intro H; try reflexivity; vm_compute in H; discriminate. Qed.

Lemma checkEnvelope_spec (data : option Gemini.Response) (context : jsstring)
    (t : trace) :
  exists events,
    snd (checkEnvelope data context t) = t ++ events
    /\ requestsOf events = []
    /\ match firstFailedCheck data with
       | Some check =>
           (exists e, fst (checkEnvelope data context t) = Throw e)
           /\ (exists more,
                 In (Console ERROR (Text (js "Error calling Gemini API for ")
                                      :: Text context
                                      :: Text (diagnosticOf check) :: more)) events)
           /\ (forall other more,
                 In (Console ERROR (Text (js "Error calling Gemini API for ")
                                      :: Text context
                                      :: Text (diagnosticOf other) :: more)) events ->
                 other = check)
       | None =>
           fst (checkEnvelope data context t) = Return (firstCandidateText data)
           /\ truthy (firstCandidateText data) = true
           /\ events = match abnormalFinish data with
                       | Some reason =>
                           [Console WARN
                              [Text (js "Gemini API for "); Text context;
                               Text (js " finished with reason: "); Text reason;
                               Text (js ". Output might be incomplete.")]]
                       | None => []
                       end
       end.
Proof.
  split_data data.
  all: cbn [firstFailedCheck truthyString Gemini.promptFeedback Gemini.blockReason
            Gemini.candidates Gemini.content Gemini.parts Gemini.text truthy].
  all: unfold checkEnvelope, blockReasonOf, textOf, abnormalFinish, firstCandidateText,
         firstCandidate.
  all: cbn [truthyString Gemini.promptFeedback Gemini.blockReason Gemini.finishReason
            Gemini.candidates Gemini.content Gemini.parts Gemini.text truthy].
  all: repeat match goal with
              | H : truthy ?v = _ |- _ => rewrite !H
              end.
  all: try match goal with
           | |- context [jsstring_eqb ?a ?b] => destruct (jsstring_eqb a b)
           end.
  all: unfold bind, console, throw, ret; cbn [fst snd].
  all: eexists; split;
    [rewrite <- ?app_assoc; cbn [app]; first [reflexivity | symmetry; apply app_nil_r]|].
  all: split; [reflexivity|].
  all: try (split; [reflexivity | split; [first [assumption | reflexivity] | reflexivity]]).
  all: split; [eexists; reflexivity|].
  all: split; [eexists; cbn [In]; auto|].
  all: intros other more H; cbn [In] in H;
       repeat match goal with
              | H : _ \/ _ |- _ => destruct H as [H|H]
              | H : False |- _ => destruct H
              end;
       try discriminate;
       inversion H as [[E]]; apply diagnosticOf_injective; symmetry; exact E.
Qed.

Lemma colon_is_no_diagnostic (check : envelopeCheck) : js ":" <> diagnosticOf check.
Proof. destruct check; vm_compute; discriminate. Qed.


(** ** The fallback chain *)

Lemma requestsOf_app (a b : trace) : requestsOf (a ++ b) = requestsOf a ++ requestsOf b.
Proof.
  induction a as [|[l args|r] a IH]; cbn [app requestsOf]; [reflexivity | exact IH |].
  rewrite IH. reflexivity.
Qed.

Lemma logFetchError_logs (provider : PaperProvider) (err : exn) (t : trace) :
  logFetchError provider err t = (Return tt, t ++ errorLogged provider err).
Proof.
  unfold logFetchError, errorLogged.
  destruct err as [m|m|m|m [[status data]|]]; try reflexivity.
  unfold bind, console, ret.
  destruct (jsstring_eqb (name provider) (js "Semantic Scholar") && (status =? 429)%N).
  - rewrite <- app_assoc. reflexivity.
  - reflexivity.
Qed.

Lemma attempt_step (provider : PaperProvider) (topic : jsstring) (t : trace) :
  attempt provider topic t =
    match fetchFunction provider topic (t ++ [attempting provider]) with
    | (Return (p :: ps), t1) =>
        (Return (Some (p :: ps)), t1 ++ [fetched provider (p :: ps)])
    | (result, t1) => (Return None, afterNoPapers provider result t1)
    end.
Proof.
  unfold attempt, bind, tryCatch, console, ret, attempting.
  destruct (fetchFunction provider topic _) as [[[|p ps]|err] t1]; cbn [length Nat.ltb Nat.leb].
  - reflexivity.
  - reflexivity.
  - cbn [afterNoPapers]. rewrite logFetchError_logs. reflexivity.
Qed.

Lemma fallbackChain_returns (remaining : list PaperProvider) (topic : jsstring)
    (t : trace) :
  exists papers t', fallbackChain remaining topic t = (Return papers, t').
Proof.
  revert t. induction remaining as [|provider rest IH]; intro t.
  - eexists. eexists. reflexivity.
  - cbn [fallbackChain]. unfold bind at 1. rewrite attempt_step.
    destruct (fetchFunction provider topic _) as [[[|p ps]|err] t1].
    + apply IH.
    + eexists. eexists. reflexivity.
    + apply IH.
Qed.

Lemma fetchRelatedPapers_returns (W : World) (topic : jsstring) (t : trace) :
  exists papers t', fetchRelatedPapers W topic t = (Return papers, t').
Proof. apply fallbackChain_returns. Qed.

Lemma fetchRelatedPapers_unfolded (W : World) (topic : jsstring) (t : trace) :
  let semanticScholar :=
    {| name := js "Semantic Scholar"; fetchFunction := fetchFromSemanticScholar W |} in
  let openAlex := {| name := js "OpenAlex"; fetchFunction := fetchFromOpenAlex W |} in
  let core := {| name := js "CORE"; fetchFunction := fetchFromCORE W |} in
  let r1 := fetchFromSemanticScholar W topic (t ++ [attempting semanticScholar]) in
  let t1 := afterNoPapers semanticScholar (fst r1) (snd r1) in
  let r2 := fetchFromOpenAlex W topic (t1 ++ [attempting openAlex]) in
  let t2 := afterNoPapers openAlex (fst r2) (snd r2) in
  let r3 := fetchFromCORE W topic (t2 ++ [attempting core]) in
  let t3 := afterNoPapers core (fst r3) (snd r3) in
  fetchRelatedPapers W topic t =
    match fst r1 with
    | Return (p :: ps) => (Return (p :: ps), snd r1 ++ [fetched semanticScholar (p :: ps)])
    | _ =>
        match fst r2 with
        | Return (p :: ps) => (Return (p :: ps), snd r2 ++ [fetched openAlex (p :: ps)])
        | _ =>
            match fst r3 with
            | Return (p :: ps) => (Return (p :: ps), snd r3 ++ [fetched core (p :: ps)])
            | _ => (Return [], t3 ++ [exhausted])
            end
        end
    end.
Proof.
  intros semanticScholar openAlex core r1 t1 r2 t2 r3 t3.
  unfold fetchRelatedPapers, providers.
  fold semanticScholar. fold openAlex. fold core.
  cbn [fallbackChain]. unfold bind at 1. rewrite attempt_step.
  cbn [fetchFunction semanticScholar]. fold semanticScholar. fold r1.
  destruct r1 as [[[|p ps]|err] s1] eqn:E1; cbn [fst snd] in *; try reflexivity.
  all: unfold bind at 1; rewrite attempt_step;
       cbn [fetchFunction openAlex]; fold openAlex; fold t1; fold r2.
  all: destruct r2 as [[[|p2 ps2]|err2] s2] eqn:E2; cbn [fst snd] in *; try reflexivity.
  all: unfold bind at 1; rewrite attempt_step;
       cbn [fetchFunction core]; fold core; fold t2; fold r3.
  all: destruct r3 as [[[|p3 ps3]|err3] s3] eqn:E3; cbn [fst snd] in *; reflexivity.
Qed.

(** C3.  [fetchRelatedPapers] never throws.  It asks Semantic Scholar
    first and returns its papers at once when there are any; otherwise it
    logs the empty result, or logs the error it caught (the lines of
    [errorLogged]), and asks OpenAlex in the same way, then CORE; when none
    of the three gave papers it returns the empty list.  An adapter that
    comes after the one that gave papers is never called: the trace ends
    with the successful adapter's own events and the success message. *)
Theorem fetchRelatedPapers_fallback :
  forall (W : World) (topic : jsstring) (t : trace),
    let semanticScholar :=
      {| name := js "Semantic Scholar"; fetchFunction := fetchFromSemanticScholar W |} in
    let openAlex := {| name := js "OpenAlex"; fetchFunction := fetchFromOpenAlex W |} in
    let core := {| name := js "CORE"; fetchFunction := fetchFromCORE W |} in
    let r1 := fetchFromSemanticScholar W topic (t ++ [attempting semanticScholar]) in
    let t1 := afterNoPapers semanticScholar (fst r1) (snd r1) in
    let r2 := fetchFromOpenAlex W topic (t1 ++ [attempting openAlex]) in
    let t2 := afterNoPapers openAlex (fst r2) (snd r2) in
    let r3 := fetchFromCORE W topic (t2 ++ [attempting core]) in
    let t3 := afterNoPapers core (fst r3) (snd r3) in
    fetchRelatedPapers W topic t =
      match fst r1 with
      | Return (p :: ps) => (Return (p :: ps), snd r1 ++ [fetched semanticScholar (p :: ps)])
      | _ =>
          match fst r2 with
          | Return (p :: ps) => (Return (p :: ps), snd r2 ++ [fetched openAlex (p :: ps)])
          | _ =>
              match fst r3 with
              | Return (p :: ps) => (Return (p :: ps), snd r3 ++ [fetched core (p :: ps)])
              | _ => (Return [], t3 ++ [exhausted])
              end
          end
      end
    /\ exists papers t', fetchRelatedPapers W topic t = (Return papers, t').
Proof.
  intros W topic t semanticScholar openAlex core r1 t1 r2 t2 r3 t3.
  split; [apply fetchRelatedPapers_unfolded | apply fetchRelatedPapers_returns].
Qed.

(** C10.  When [CORE_API_KEY] is unset in the environment, or set to the
    placeholder, [fetchFromCORE] warns and returns the empty list without
    issuing a request, whatever the query; so the third entry of the chain,
    which is this adapter, never supplies papers. *)
Theorem fetchFromCORE_unconfigured :
  forall (W : World) (query : jsstring) (t : trace),
    env_CORE_API_KEY W = None
    \/ env_CORE_API_KEY W = Some CORE_API_KEY_PLACEHOLDER ->
    fetchFromCORE W query t
      = (Return [], t ++ [Console WARN [Text (js "CORE API Key not configured.")]])
    /\ requestsOf (snd (fetchFromCORE W query t)) = requestsOf t
    /\ (exists third,
          nth_error (providers W) 2 = Some third
          /\ name third = js "CORE"
          /\ fst (attempt third query t) = Return None
          /\ requestsOf (snd (attempt third query t)) = requestsOf t).
Proof.
  intros W query t H.
  assert (K : CORE_API_KEY W = CORE_API_KEY_PLACEHOLDER).
  { unfold CORE_API_KEY. destruct H as [-> | ->]; reflexivity. }
  assert (E : forall t0,
             fetchFromCORE W query t0
             = (Return [], t0 ++ [Console WARN [Text (js "CORE API Key not configured.")]])).
  { intro t0. unfold fetchFromCORE. rewrite K. reflexivity. }
  split; [apply E|]. split.
  - rewrite E. cbn [snd]. rewrite requestsOf_app. apply app_nil_r.
  - eexists. split; [reflexivity|]. split; [reflexivity|].
    rewrite attempt_step. cbn [fetchFunction]. rewrite E. cbn [fst snd afterNoPapers].
    split; [reflexivity|].
    rewrite !requestsOf_app. cbn [requestsOf attempting]. rewrite !app_nil_r. reflexivity.
Qed.

Lemma fetchFromCORE_unconfigured_witness :
  fetchFromCORE offlineWorld (js "remote work") []
    = (Return [], [Console WARN [Text (js "CORE API Key not configured.")]]).
Proof.
  apply (fetchFromCORE_unconfigured offlineWorld (js "remote work") []).
  left. reflexivity.
Defined.

(** ** The adapters *)

Lemma or_else_defined (a b : jsval) : b <> VUndefined -> or_else a b <> VUndefined.
Proof.
  unfold or_else. destruct (truthy a) eqn:E; [|trivial].
  intros _ ->. discriminate.
Qed.

Lemma or_else_missing (b : jsval) : or_else VUndefined b = b.
Proof. reflexivity. Qed.

Lemma nullish_else_defined (a b : jsval) :
  b <> VUndefined -> nullish_else a b <> VUndefined.
Proof.
  unfold nullish_else. destruct (isNullish a) eqn:E; [trivial|].
  intros _ ->. discriminate.
Qed.

Lemma or_else_count (v : jsval) :
  v = VUndefined \/ isNonNegInteger v = true ->
  isNonNegInteger (or_else v (VNum (numberOfN 0))) = true.
Proof.
  unfold or_else. intros [->|H]; [reflexivity|].
  destruct (truthy v); [exact H | reflexivity].
Qed.

Lemma nullish_else_count (v : jsval) :
  v = VUndefined \/ isNonNegInteger v = true ->
  isNonNegInteger (nullish_else v (VNum (numberOfN 0))) = true.
Proof.
  unfold nullish_else. intros [->|H]; [reflexivity|].
  destruct (isNullish v); [reflexivity | exact H].
Qed.

Lemma mapOutcome_images {A B} (f : A -> outcome B) (xs : list A) (ys : list B) :
  mapOutcome f xs = Return ys -> Forall2 (fun x y => f x = Return y) xs ys.
Proof.
  revert ys. induction xs as [|x xs IH]; intros ys H; cbn [mapOutcome] in H.
  - inversion H. constructor.
  - unfold obind in H. destruct (f x) as [y|] eqn:E; [|discriminate].
    destruct (mapOutcome f xs) as [ys'|]; [|discriminate].
    inversion H. subst. constructor; [exact E | apply IH; reflexivity].
Qed.

Lemma normalizeResults_images (provider : jsstring)
    (toPaper : jsval -> outcome ResearchPaper) (results : jsval) (t : trace)
    (papers : list ResearchPaper) (t' : trace) :
  normalizeResults provider toPaper results t = (Return papers, t') ->
  exists items, Forall2 (fun item p => toPaper item = Return p) items papers.
Proof.
  unfold normalizeResults. intro H.
  assert (Z : forall m : M (list ResearchPaper),
             (if truthy results
                 && match get results (js "length") with
                    | Return len => isNumberZero len
                    | Throw _ => false
                    end
              then console LOG [Text provider; Text (js " returned 0 results.")] ;; ret []
              else m) t = (Return papers, t') ->
             m = throw (Error (js "Invalid data format received from " ++ provider)) ->
             papers = []).
  { intros m Hm ->. destruct (truthy results && _).
    - unfold bind, console, ret in Hm. inversion Hm. reflexivity.
    - discriminate. }
  destruct results as [| | | | |[|first more]|];
    try (rewrite (Z _ H eq_refl); exists []; constructor).
  unfold lift in H. inversion H as [[Hm Ht]].
  exists (first :: more). apply mapOutcome_images. exact Hm.
Qed.

Ltac peel H :=
  repeat match type of H with
         | match ?x with _ => _ end = _ =>
             let E := fresh "E" in destruct x eqn:E; try discriminate H
         end.

Ltac nullish_source N :=
  match goal with
  | J : _ ?x = Return _ |- _ =>
      destruct x; try discriminate N;
      cbn [mapJoin joinOpt getOpt isNullish] in J; inversion J; reflexivity
  end.

Lemma semanticScholarPaper_normalizes (W : World) (paper : jsval) (p : ResearchPaper) :
  semanticScholarPaper W paper = Return p -> normalizedFromSemanticScholar paper p.
Proof.
  unfold normalizedFromSemanticScholar, semanticScholarPaper, obind, missing,
    sourceValue.
  intro H. peel H.
  inversion H. subst p. clear H.
  cbn [title url paperLink abstract citationCount authors].
  split; [|split; [|split; [|split; [|split; [|split; [|split]]]]]];
    try reflexivity.
  - repeat split; apply or_else_defined; discriminate.
  - intro N. nullish_source N.
  - intro M. apply or_else_count. destruct M as [M|M]; [left; inversion M|right]; trivial.
Qed.

Lemma openAlexPaper_normalizes (W : World) (paper : jsval) (p : ResearchPaper) :
  openAlexPaper W paper = Return p -> normalizedFromOpenAlex paper p.
Proof.
  unfold normalizedFromOpenAlex, openAlexPaper, obind, missing, absent, sourceValue.
  intro H. peel H.
  inversion H. subst p. clear H.
  cbn [title url paperLink abstract citationCount authors].
  split; [|split; [|split; [|split; [|split; [|split; [|split]]]]]].
  - unfold complete. cbn [title url paperLink abstract citationCount authors].
    split; [apply or_else_defined; discriminate|].
    split.
    { destruct (truthy a0); [|inversion E1; discriminate].
      destruct (lastSegment a0); inversion E1; discriminate. }
    split; [apply or_else_defined, or_else_defined; discriminate|].
    split.
    { destruct (truthy a5); [|inversion E6; discriminate].
      destruct (invertAbstractOf W a5); inversion E6; discriminate. }
    split; apply or_else_defined; discriminate.
  - reflexivity.
  - intro M. rewrite M in E1. inversion E1. reflexivity.
  - intro M. destruct a2; try discriminate M;
      cbn [getOpt isNullish] in E3; inversion E3; subst a3;
      cbn [truthy getOpt isNullish] in E4; inversion E4; reflexivity.
  - intro M. rewrite M in E6. inversion E6. reflexivity.
  - intro M. destruct a8; try discriminate M;
      cbn [mapJoin] in E9; inversion E9; reflexivity.
  - reflexivity.
  - intro M. apply or_else_count. destruct M as [M|M]; [left; inversion M|right]; trivial.
Qed.

Lemma corePaper_normalizes (W : World) (paper : jsval) (p : ResearchPaper) :
  corePaper W paper = Return p -> normalizedFromCORE paper p.
Proof.
  unfold normalizedFromCORE, corePaper, obind, missing, absent, sourceValue.
  intro H. peel H.
  inversion H. subst p. clear H.
  cbn [title url paperLink abstract citationCount authors].
  split; [|split; [|split; [|split; [|split; [|split]]]]].
  - unfold complete. cbn [title url paperLink abstract citationCount authors].
    split; [apply or_else_defined; discriminate|].
    split; [destruct (truthy a0); [discriminate | apply or_else_defined; discriminate]|].
    split; [apply or_else_defined; destruct (truthy a0); discriminate|].
    split; [apply or_else_defined; discriminate|].
    split; [apply nullish_else_defined | apply or_else_defined]; discriminate.
  - reflexivity.
  - intros M1 M2. unfold or_else. rewrite M1, M2. split; reflexivity.
  - reflexivity.
  - intro M. destruct a4; try discriminate M;
      cbn [joinOpt] in E5; inversion E5; reflexivity.
  - reflexivity.
  - intro M. apply nullish_else_count.
    destruct M as [M|M]; [left; inversion M|right]; trivial.
Qed.

Lemma Forall2_impl {A B} (R R' : A -> B -> Prop) (xs : list A) (ys : list B) :
  (forall x y, R x y -> R' x y) -> Forall2 R xs ys -> Forall2 R' xs ys.
Proof. intros I H. induction H; constructor; auto. Qed.

(** The papers an adapter returns are made, one by one and in order, from
    the records the provider sent. *)
Lemma normalizeResults_records (provider : jsstring)
    (toPaper : jsval -> outcome ResearchPaper) (results : jsval) (t : trace)
    (papers : list ResearchPaper) (t' : trace) :
  normalizeResults provider toPaper results t = (Return papers, t') ->
  Forall2 (fun item p => toPaper item = Return p)
    match results with
    | VArr items => items
    | _ => []
    end papers.
Proof.
  unfold normalizeResults. intro H.
  assert (Z : forall m : M (list ResearchPaper),
             (if truthy results
                 && match get results (js "length") with
                    | Return len => isNumberZero len
                    | Throw _ => false
                    end
              then console LOG [Text provider; Text (js " returned 0 results.")] ;; ret []
              else m) t = (Return papers, t') ->
             m = throw (Error (js "Invalid data format received from " ++ provider)) ->
             papers = []).
  { intros m Hm ->. destruct (truthy results && _).
    - unfold bind, console, ret in Hm. inversion Hm. reflexivity.
    - discriminate. }
  destruct results as [| | | | |[|first more]|];
    try (rewrite (Z _ H eq_refl); constructor).
  unfold lift in H. inversion H as [[Hm Ht]].
  apply mapOutcome_images. exact Hm.
Qed.

Lemma adapter_records (W : World) (r : request) (field provider : jsstring)
    (toPaper : jsval -> outcome ResearchPaper) (t : trace)
    (papers : list ResearchPaper) (t' : trace) :
  (data <- axiosGet W r ;;
   results <- lift (get data field) ;;
   normalizeResults provider toPaper results) t = (Return papers, t') ->
  Forall2 (fun item p => toPaper item = Return p) (recordsOf W t r field) papers.
Proof.
  unfold bind at 1. unfold axiosGet, recordsOf.
  destruct (axios_get W t r) as [data|e]; [|discriminate].
  unfold bind, lift. destruct (get data field) as [results|e]; [|discriminate].
  intro H. apply normalizeResults_records in H.
  destruct results; exact H.
Qed.




(** ** The orchestrator *)

Lemma callGemini_text (W : World) (prompt context : jsstring) (t : trace)
    (text : jsval) (t' : trace) :
  callGemini W prompt context t = (Return text, t') ->
  truthy text = true
  /\ exists called data,
       axios_post W called (geminiRequest W prompt) = Return data
       /\ text = firstCandidateText data.
Proof.
  unfold callGemini, bind, tryCatch, axiosPost, console.
  set (called := t ++ [Console LOG [Text (js "Calling Gemini API for: "); Text context]]).
  destruct (axios_post W called (geminiRequest W prompt)) as [data|e] eqn:A;
    [|discriminate].
  destruct (checkEnvelope_spec data context
              (called ++ [Request (geminiRequest W prompt)])) as (events & _ & _ & C).
  destruct (checkEnvelope data context _) as [[v|err] t1]; [|discriminate].
  intro H. inversion H. subst. cbn [fst] in C.
  destruct (firstFailedCheck data) as [check|].
  - destruct C as [[err He] _]. discriminate.
  - destruct C as (E & T & _). inversion E. subst text. split; [exact T|].
    exists called, data. split; [exact A | reflexivity].
Qed.

Lemma callGemini_outcome (W : World) (prompt context : jsstring) (t : trace) :
  exists t',
    (exists text, callGemini W prompt context t = (Return text, t'))
    \/ callGemini W prompt context t = (Throw (gatewayError context), t').
Proof.
  unfold callGemini, bind, tryCatch, axiosPost, console, throw.
  destruct (axios_post W _ _) as [data|e].
  - destruct (checkEnvelope data context _) as [[text|err] t'].
    + exists t'. left. exists text. reflexivity.
    + eexists. right. reflexivity.
  - eexists. right. reflexivity.
Qed.

Lemma callGemini_string (W : World) (prompt context : jsstring) (t : trace)
    (text : jsval) (t' : trace) :
  textsAreStrings W ->
  callGemini W prompt context t = (Return text, t') ->
  stringOrFalsy text = true.
Proof.
  intros S H. apply callGemini_text in H as (_ & called & data & A & ->).
  exact (S _ _ _ A).
Qed.

Section Stages.

Variable W : World.
Variable PG : PromptGenerator.Templates.
Variable topic : jsstring.

(** A stage with its own [try]/[catch] passes the gateway's text on and
    turns the gateway's failure into its marker. *)
Lemma guarded_stage (prompt context label marker : jsstring) (t : trace) :
  exists t',
    tryCatch (callGemini W prompt context)
      (fun error => console ERROR [Text label; messageOrError error] ;;
                    ret (VStr marker)) t
    = (Return match fst (callGemini W prompt context t) with
              | Return text => text
              | Throw _ => VStr marker
              end, t').
Proof.
  unfold tryCatch, bind, console, ret.
  destruct (callGemini W prompt context t) as [[text|e] t']; eexists; reflexivity.
Qed.

Lemma guarded_stage_string (prompt context label marker : jsstring) (t : trace)
    (v : jsval) (t' : trace) :
  textsAreStrings W ->
  tryCatch (callGemini W prompt context)
    (fun error => console ERROR [Text label; messageOrError error] ;;
                  ret (VStr marker)) t = (Return v, t') ->
  stringOrFalsy v = true.
Proof.
  intros S. unfold tryCatch, bind, console, ret.
  destruct (callGemini W prompt context t) as [[text|e] t1] eqn:E; intro H;
    inversion H; subst.
  - exact (callGemini_string _ _ _ _ _ _ S E).
  - reflexivity.
Qed.

Lemma rank_returns (papers : list ResearchPaper) (t : trace) :
  exists t',
    rankAndSummarizePapersLLM W PG topic papers t
    = (Return match fst (callGemini W (rankPrompt W PG topic papers)
                           (js "rank and summarize papers") t) with
              | Return text => text
              | Throw _ => VStr (rankingFailed W)
              end, t').
Proof. apply guarded_stage. Qed.

Lemma gap_returns (papers : list ResearchPaper) (t : trace) :
  exists t',
    generateResearchGapAnalysisLLM W PG papers topic t
    = (Return match fst (callGemini W (gapPrompt W PG papers topic)
                           (js "research gap analysis") t) with
              | Return text => text
              | Throw _ => VStr (gapAnalysisFailed W)
              end, t').
Proof. apply guarded_stage. Qed.

Lemma prosCons_returns (papers : list ResearchPaper) (t : trace) :
  exists t',
    generateProsAndConsLLM W PG papers topic t
    = (Return match fst (callGemini W (prosConsPrompt W PG papers topic)
                           (js "pros and cons") t) with
              | Return text => text
              | Throw _ => VStr (prosConsFailed W)
              end, t').
Proof. apply guarded_stage. Qed.

End Stages.

(** *** Steps of the [try] block *)

Lemma bodyBind_Return {A B} (m : Body A) (k : A -> Body B) vars t r vars' t' :
  bodyBind m k vars t = (Return r, vars', t') ->
  exists a vars1 t1,
    m vars t = (Return a, vars1, t1) /\ k a vars1 t1 = (Return r, vars', t').
Proof.
  unfold bodyBind. destruct (m vars t) as [[[a|e] vars1] t1]; intro H.
  - exists a, vars1, t1. split; [reflexivity | exact H].
  - discriminate.
Qed.

Lemma bodyBind_Throw {A B} (m : Body A) (k : A -> Body B) vars t e vars' t' :
  bodyBind m k vars t = (Throw e, vars', t') ->
  m vars t = (Throw e, vars', t')
  \/ exists a vars1 t1,
       m vars t = (Return a, vars1, t1) /\ k a vars1 t1 = (Throw e, vars', t').
Proof.
  unfold bodyBind. destruct (m vars t) as [[[a|e0] vars1] t1]; intro H.
  - right. exists a, vars1, t1. split; [reflexivity | exact H].
  - left. inversion H. reflexivity.
Qed.

Lemma awaitInto_Return {A} (m : Locals.t -> M A) store vars t (u : unit) vars' t' :
  awaitInto m store vars t = (Return u, vars', t') ->
  exists a, m vars t = (Return a, t') /\ vars' = store a vars.
Proof.
  unfold awaitInto. destruct (m vars t) as [[a|e] t1]; intro H; inversion H.
  exists a. split; reflexivity.
Qed.

Lemma awaitInto_Throw {A} (m : Locals.t -> M A) store vars t e vars' t' :
  awaitInto m store vars t = (Throw e, vars', t') ->
  m vars t = (Throw e, t') /\ vars' = vars.
Proof.
  unfold awaitInto. destruct (m vars t) as [[a|e0] t1]; intro H; inversion H.
  split; reflexivity.
Qed.

Lemma run_Return {A} (m : Locals.t -> M A) vars t a vars' t' :
  run m vars t = (Return a, vars', t') -> m vars t = (Return a, t') /\ vars' = vars.
Proof.
  unfold run. destruct (m vars t) as [[a0|e] t1]; intro H; inversion H.
  split; reflexivity.
Qed.

Lemma run_Throw {A} (m : Locals.t -> M A) vars t e vars' t' :
  run m vars t = (Throw e, vars', t') -> m vars t = (Throw e, t') /\ vars' = vars.
Proof.
  unfold run. destruct (m vars t) as [[a0|e0] t1]; intro H; inversion H.
  split; reflexivity.
Qed.

Lemma run_extract (field : Locals.t -> jsval) (context : jsstring)
    vars t a vars' t' :
  run (fun vars => extractAndParseJson (field vars) context) vars t
    = (Return a, vars', t') ->
  a = extracted (field vars) /\ vars' = vars /\ requestsOf t' = requestsOf t
  /\ stringOrFalsy (field vars) = true.
Proof.
  intro H. apply run_Return in H as [H ->].
  destruct (stringOrFalsy (field vars)) eqn:S.
  - destruct (extractAndParseJson_returns (field vars) context t S) as [events [E R]].
    rewrite E in H. inversion H. subst.
    rewrite requestsOf_app, R, app_nil_r. repeat split.
  - rewrite (extractAndParseJson_throws _ context t S) in H. discriminate.
Qed.

Lemma run_extract_Throw (field : Locals.t -> jsval) (context : jsstring)
    vars t e vars' t' :
  run (fun vars => extractAndParseJson (field vars) context) vars t
    = (Throw e, vars', t') ->
  e = notAFunction /\ vars' = vars /\ t' = t /\ stringOrFalsy (field vars) = false.
Proof.
  intro H. apply run_Throw in H as [H ->].
  destruct (stringOrFalsy (field vars)) eqn:S.
  - destruct (extractAndParseJson_returns (field vars) context t S) as [events [E R]].
    rewrite E in H. discriminate.
  - rewrite (extractAndParseJson_throws _ context t S) in H. inversion H.
    repeat split.
Qed.

Lemma tryBlock_Return (W : World) (PG : PromptGenerator.Templates) (topic : jsstring)
    vars0 t roadmap vars' t' :
  tryBlock W PG topic vars0 t = (Return roadmap, vars', t') ->
  thesisDescription roadmap = topic
  /\ parsedFrom vars' roadmap
  /\ (someFieldNull roadmap -> reportsFailure roadmap).
Proof.
  unfold tryBlock. intro H.
  do 6 (apply bodyBind_Return in H; destruct H as (? & ? & ? & _ & H)).
  apply bodyBind_Return in H. destruct H as (? & ? & ? & Hlog & H).
  apply run_Return in Hlog as [_ ->].
  apply bodyBind_Return in H. destruct H as (p1 & ? & ? & H1 & H).
  apply run_extract in H1 as (-> & -> & _).
  apply bodyBind_Return in H. destruct H as (p2 & ? & ? & H2 & H).
  apply run_extract in H2 as (-> & -> & _).
  apply bodyBind_Return in H. destruct H as (p3 & ? & ? & H3 & H).
  apply run_extract in H3 as (-> & -> & _).
  apply bodyBind_Return in H. destruct H as (p4 & ? & ? & H4 & H).
  apply run_extract in H4 as (-> & -> & _).
  apply bodyBind_Return in H. destruct H as (p5 & ? & ? & H5 & H).
  apply run_extract in H5 as (-> & -> & _).
  apply bodyBind_Return in H. destruct H as (? & ? & ? & Hlog & H).
  apply run_Return in Hlog as [_ ->].
  match type of H with
  | (if ?c then _ else _) _ _ = _ => destruct c eqn:C
  end.
  - apply bodyBind_Return in H. destruct H as (? & ? & ? & Hlog & H).
    apply run_Return in Hlog as [_ ->].
    unfold bodyRet in H. inversion H. subst. clear H.
    split; [reflexivity|]. split; [repeat split|].
    intros _. eexists. split; [reflexivity | discriminate].
  - unfold bodyRet in H. inversion H. subst. clear H.
    split; [reflexivity|]. split; [repeat split|].
    intro N. exfalso.
    repeat (apply orb_false_iff in C; destruct C as [C ?]).
    unfold someFieldNull in N.
    cbn [stepByStep relatedPapers methodology researchGapAnalysis prosAndCons] in N.
    repeat match goal with
           | H : negb (truthy ?x) = false |- _ =>
               apply negb_false_iff in H
           end.
    destruct N as [N|[N|[N|[N|N]]]]; rewrite N in *; discriminate.
Qed.

Lemma catchBlock_returns (topic : jsstring) (vars : Locals.t) (err : exn) (t : trace) :
  rawTextsAreStrings vars = true ->
  exists roadmap events,
    catchBlock topic vars err t = (Return roadmap, t ++ events)
    /\ requestsOf events = []
    /\ thesisDescription roadmap = topic
    /\ parsedFrom vars roadmap
    /\ error roadmap
         = Some (js "Failed to generate thesis roadmap: "
                 ++ match messageOf err with
                    | [] => js "Unknown error"
                    | message => message
                    end).
Proof.
  unfold rawTextsAreStrings. intro S.
  repeat (apply andb_true_iff in S; destruct S as [S ?]).
  unfold catchBlock, bind, console, ret.
  repeat match goal with
         | |- context [extractAndParseJson ?r ?c ?tr] =>
             let E := fresh "E" in
             let R := fresh "R" in
             destruct (extractAndParseJson_returns r c tr) as [? [E R]];
             [assumption|]; rewrite E; clear E
         end.
  eexists. eexists. split; [rewrite <- !app_assoc; reflexivity|].
  split; [|split; [reflexivity | split; [repeat split | reflexivity]]].
  cbn [app requestsOf]. rewrite !requestsOf_app.
  repeat match goal with R : requestsOf _ = [] |- _ => rewrite R; clear R end.
  reflexivity.
Qed.

(** When a variable holds a truthy value that is not a string, the [catch]
    block throws in its turn, at the first such variable. *)
Lemma catchBlock_throws (topic : jsstring) (vars : Locals.t) (err : exn) (t : trace) :
  rawTextsAreStrings vars = false ->
  exists events,
    catchBlock topic vars err t = (Throw notAFunction, t ++ events)
    /\ requestsOf events = [].
Proof.
  unfold rawTextsAreStrings. intro S.
  unfold catchBlock, bind, console, ret.
  repeat match goal with
         | |- context [extractAndParseJson ?r ?c ?tr] =>
             let E := fresh "E" in
             let R := fresh "R" in
             let F := fresh "F" in
             destruct (stringOrFalsy r) eqn:F;
             [ destruct (extractAndParseJson_returns r c tr F) as [? [E R]];
               rewrite E; clear E
             | rewrite (extractAndParseJson_throws r c tr F);
               eexists; split; [rewrite <- ?app_assoc; reflexivity|];
               cbn [app requestsOf]; rewrite ?requestsOf_app;
               repeat match goal with
                      | R : requestsOf _ = [] |- _ => rewrite R; clear R
                      end;
               reflexivity ]
         end.
  discriminate.
Qed.

Lemma stage_cannot_throw {A} (m : M A) (t : trace) (e : exn) (t' : trace) :
  (exists a t1, m t = (Return a, t1)) -> m t = (Throw e, t') -> False.
Proof. intros [a [t1 E]] H. rewrite E in H. discriminate. Qed.

Lemma one_is_no_string (a b c d e : bool) :
  a = false \/ b = false \/ c = false \/ d = false \/ e = false ->
  a && b && c && d && e = false.
Proof. destruct a, b, c, d, e; intuition discriminate. Qed.

(** The three ways in which the [try] block throws: the step-plan stage
    fails, the methodology stage fails, or all six stages return and one of
    the captured values is refused by the helper. *)
Lemma tryBlock_Throw (W : World) (PG : PromptGenerator.Templates) (topic : jsstring)
    (t : trace) (e : exn) (vars : Locals.t) (t' : trace) :
  tryBlock W PG topic Locals.initial t = (Throw e, vars, t') ->
  (e = gatewayError (js "step-by-step guide")
   /\ vars = Locals.initial
   /\ callGemini W (PromptGenerator.stepByStep PG topic) (js "step-by-step guide") t
      = (Throw e, t'))
  \/ (e = gatewayError (js "methodology")
      /\ exists stepPlan t1 papers t2 ranking t3,
           callGemini W (PromptGenerator.stepByStep PG topic)
             (js "step-by-step guide") t = (Return stepPlan, t1)
           /\ fetchRelatedPapers W topic t1 = (Return papers, t2)
           /\ rankAndSummarizePapersLLM W PG topic papers t2 = (Return ranking, t3)
           /\ callGemini W (PromptGenerator.methodology PG topic) (js "methodology") t3
              = (Throw e, t')
           /\ vars = capturedBeforeMethodology stepPlan ranking papers)
  \/ (e = notAFunction
      /\ exists stepPlan t1 papers t2 ranking t3 method t4 gaps t5 pros t6,
           callGemini W (PromptGenerator.stepByStep PG topic)
             (js "step-by-step guide") t = (Return stepPlan, t1)
           /\ fetchRelatedPapers W topic t1 = (Return papers, t2)
           /\ rankAndSummarizePapersLLM W PG topic papers t2 = (Return ranking, t3)
           /\ callGemini W (PromptGenerator.methodology PG topic) (js "methodology") t3
              = (Return method, t4)
           /\ generateResearchGapAnalysisLLM W PG papers topic t4 = (Return gaps, t5)
           /\ generateProsAndConsLLM W PG papers topic t5 = (Return pros, t6)
           /\ vars = capturedByAllStages stepPlan ranking method gaps pros papers
           /\ rawTextsAreStrings vars = false
           /\ requestsOf t' = requestsOf t6).
Proof.
  unfold tryBlock. intro H.
  (* stage 1 *)
  apply bodyBind_Throw in H. destruct H as [H | (? & v1 & t1 & H1 & H)].
  { left. apply awaitInto_Throw in H as [H ->].
    destruct (callGemini_outcome W (PromptGenerator.stepByStep PG topic)
                (js "step-by-step guide") t) as [t0 [[text E]|E]];
      rewrite E in H; inversion H; subst. repeat split. exact E. }
  apply awaitInto_Return in H1 as (stepPlan & H1 & ->).
  (* stage 2 *)
  apply bodyBind_Throw in H. destruct H as [H | (? & v2 & t2 & H2 & H)].
  { exfalso. apply awaitInto_Throw in H as [H _].
    exact (stage_cannot_throw _ _ _ _ (fetchRelatedPapers_returns W topic t1) H). }
  apply awaitInto_Return in H2 as (papers & H2 & ->).
  (* stage 3 *)
  apply bodyBind_Throw in H. destruct H as [H | (? & v3 & t3 & H3 & H)].
  { exfalso. apply awaitInto_Throw in H as [H _]. cbn [Locals.relatedPapers] in H.
    destruct (rank_returns W PG topic papers t2) as [t0 E].
    rewrite E in H. discriminate. }
  apply awaitInto_Return in H3 as (ranking & H3 & ->).
  cbn [Locals.relatedPapers] in H3.
  (* stage 4 *)
  apply bodyBind_Throw in H. destruct H as [H | (? & v4 & t4 & H4 & H)].
  { right. left. apply awaitInto_Throw in H as [H ->].
    destruct (callGemini_outcome W (PromptGenerator.methodology PG topic)
                (js "methodology") t3) as [t0 [[text E]|E]];
      rewrite E in H; inversion H; subst.
    split; [reflexivity|].
    exists stepPlan, t1, papers, t2, ranking, t3. repeat split; assumption. }
  apply awaitInto_Return in H4 as (method & H4 & ->).
  (* stage 5 *)
  apply bodyBind_Throw in H. destruct H as [H | (? & v5 & t5 & H5 & H)].
  { exfalso. apply awaitInto_Throw in H as [H _]. cbn [Locals.relatedPapers] in H.
    destruct (gap_returns W PG topic papers t4) as [t0 E].
    rewrite E in H. discriminate. }
  apply awaitInto_Return in H5 as (gaps & H5 & ->).
  cbn [Locals.relatedPapers] in H5.
  (* stage 6 *)
  apply bodyBind_Throw in H. destruct H as [H | (? & v6 & t6 & H6 & H)].
  { exfalso. apply awaitInto_Throw in H as [H _]. cbn [Locals.relatedPapers] in H.
    destruct (prosCons_returns W PG topic papers t5) as [t0 E].
    rewrite E in H. discriminate. }
  apply awaitInto_Return in H6 as (pros & H6 & ->).
  cbn [Locals.relatedPapers] in H6.
  (* parsing *)
  apply bodyBind_Throw in H. destruct H as [H | (? & ? & s0 & Hlog & H)].
  { exfalso. apply run_Throw in H as [H _]. discriminate. }
  apply run_Return in Hlog as [Hlog ->].
  assert (R0 : requestsOf s0 = requestsOf t6).
  { unfold console in Hlog. inversion Hlog. rewrite requestsOf_app. apply app_nil_r. }
  clear Hlog.
  assert (Refused :
            forall s,
              requestsOf s = requestsOf t6 ->
              stringOrFalsy stepPlan = false \/ stringOrFalsy ranking = false
              \/ stringOrFalsy method = false \/ stringOrFalsy gaps = false
              \/ stringOrFalsy pros = false ->
              exists stepPlan0 t10 papers0 t20 ranking0 t30 method0 t40 gaps0 t50
                     pros0 t60,
                callGemini W (PromptGenerator.stepByStep PG topic)
                  (js "step-by-step guide") t = (Return stepPlan0, t10)
                /\ fetchRelatedPapers W topic t10 = (Return papers0, t20)
                /\ rankAndSummarizePapersLLM W PG topic papers0 t20
                   = (Return ranking0, t30)
                /\ callGemini W (PromptGenerator.methodology PG topic)
                     (js "methodology") t30 = (Return method0, t40)
                /\ generateResearchGapAnalysisLLM W PG papers0 topic t40
                   = (Return gaps0, t50)
                /\ generateProsAndConsLLM W PG papers0 topic t50 = (Return pros0, t60)
                /\ capturedByAllStages stepPlan ranking method gaps pros papers
                   = capturedByAllStages stepPlan0 ranking0 method0 gaps0 pros0 papers0
                /\ rawTextsAreStrings
                     (capturedByAllStages stepPlan ranking method gaps pros papers)
                   = false
                /\ requestsOf s = requestsOf t60).
  { intros s Rs F.
    exists stepPlan, t1, papers, t2, ranking, t3, method, t4, gaps, t5, pros, t6.
    repeat (split; [assumption || reflexivity|]).
    split; [|exact Rs].
    apply one_is_no_string. exact F. }
  apply bodyBind_Throw in H. destruct H as [H | (p1 & ? & s1 & X1 & H)].
  { apply run_extract_Throw in H as (-> & -> & -> & F). right. right.
    split; [reflexivity|]. apply (Refused _ R0). auto. }
  apply run_extract in X1 as (-> & -> & R1 & _). rewrite R0 in R1.
  apply bodyBind_Throw in H. destruct H as [H | (p2 & ? & s2 & X2 & H)].
  { apply run_extract_Throw in H as (-> & -> & -> & F). right. right.
    split; [reflexivity|]. apply (Refused _ R1). auto. }
  apply run_extract in X2 as (-> & -> & R2 & _). rewrite R1 in R2.
  apply bodyBind_Throw in H. destruct H as [H | (p3 & ? & s3 & X3 & H)].
  { apply run_extract_Throw in H as (-> & -> & -> & F). right. right.
    split; [reflexivity|]. apply (Refused _ R2). auto. }
  apply run_extract in X3 as (-> & -> & R3 & _). rewrite R2 in R3.
  apply bodyBind_Throw in H. destruct H as [H | (p4 & ? & s4 & X4 & H)].
  { apply run_extract_Throw in H as (-> & -> & -> & F). right. right.
    split; [reflexivity|]. apply (Refused _ R3). auto. }
  apply run_extract in X4 as (-> & -> & R4 & _). rewrite R3 in R4.
  apply bodyBind_Throw in H. destruct H as [H | (p5 & ? & s5 & X5 & H)].
  { apply run_extract_Throw in H as (-> & -> & -> & F). right. right.
    split; [reflexivity|]. apply (Refused _ R4). auto 6. }
  apply bodyBind_Throw in H. destruct H as [H | (? & ? & ? & _ & H)].
  { exfalso. apply run_Throw in H as [H _]. discriminate. }
  exfalso.
  match type of H with
  | (if ?c then _ else _) _ _ = _ => destruct c
  end.
  - apply bodyBind_Throw in H. destruct H as [H | (? & ? & ? & _ & H)].
    + apply run_Throw in H as [H _]. discriminate.
    + discriminate.
  - discriminate.
Qed.

Lemma catch_reports_failure (tail : jsstring) :
  js "Failed to generate thesis roadmap: " ++ tail <> [].
Proof. discriminate. Qed.

Lemma generateThesisRoadmap_after_throw (W : World) (PG : PromptGenerator.Templates)
    (topic : jsstring) (t : trace) (e : exn) (vars : Locals.t) (t1 : trace) :
  tryBlock W PG topic Locals.initial t = (Throw e, vars, t1) ->
  rawTextsAreStrings vars = true ->
  exists roadmap t',
    generateThesisRoadmap W PG topic t = (Return roadmap, t')
    /\ thesisDescription roadmap = topic
    /\ parsedFrom vars roadmap
    /\ reportsFailure roadmap
    /\ requestsOf t' = requestsOf t1.
Proof.
  intros H S. unfold generateThesisRoadmap. rewrite H.
  destruct (catchBlock_returns topic vars e t1 S)
    as (roadmap & events & E & R & T & P & F).
  exists roadmap, (t1 ++ events). split; [exact E|]. split; [exact T|].
  split; [exact P|]. split.
  - eexists. split; [exact F | apply catch_reports_failure].
  - rewrite requestsOf_app, R. apply app_nil_r.
Qed.

(** A captured value that is truthy and not a string makes the whole call
    throw: the [catch] block parses the same variables again. *)
Lemma generateThesisRoadmap_rejects (W : World) (PG : PromptGenerator.Templates)
    (topic : jsstring) (t : trace) (e : exn) (vars : Locals.t) (t1 : trace) :
  tryBlock W PG topic Locals.initial t = (Throw e, vars, t1) ->
  rawTextsAreStrings vars = false ->
  exists t',
    generateThesisRoadmap W PG topic t = (Throw notAFunction, t')
    /\ requestsOf t' = requestsOf t1.
Proof.
  intros H S. unfold generateThesisRoadmap. rewrite H.
  destruct (catchBlock_throws topic vars e t1 S) as (events & E & R).
  exists (t1 ++ events). split; [exact E|].
  rewrite requestsOf_app, R. apply app_nil_r.
Qed.

(** With a service that sends strings, every value the [try] block
    captures is one the helper can take. *)
Lemma tryBlock_Throw_strings (W : World) (PG : PromptGenerator.Templates)
    (topic : jsstring) (t : trace) (e : exn) (vars : Locals.t) (t' : trace) :
  textsAreStrings W ->
  tryBlock W PG topic Locals.initial t = (Throw e, vars, t') ->
  rawTextsAreStrings vars = true.
Proof.
  intros S H. apply tryBlock_Throw in H.
  destruct H as [(_ & -> & _)
                | [(_ & stepPlan & t1 & papers & t2 & ranking & t3
                    & E1 & _ & E3 & _ & ->)
                  | (_ & stepPlan & t1 & papers & t2 & ranking & t3 & method & t4
                     & gaps & t5 & pros & t6 & E1 & _ & E3 & E4 & E5 & E6 & -> & F & _)]].
  - reflexivity.
  - unfold rawTextsAreStrings, capturedBeforeMethodology.
    cbn [Locals.stepByStepRaw Locals.rankedPapersRaw Locals.methodologyRaw
         Locals.researchGapAnalysisRaw Locals.prosAndConsRaw].
    rewrite (callGemini_string _ _ _ _ _ _ S E1).
    rewrite (guarded_stage_string _ _ _ _ _ _ _ _ S E3). reflexivity.
  - unfold rawTextsAreStrings, capturedByAllStages.
    cbn [Locals.stepByStepRaw Locals.rankedPapersRaw Locals.methodologyRaw
         Locals.researchGapAnalysisRaw Locals.prosAndConsRaw].
    rewrite (callGemini_string _ _ _ _ _ _ S E1).
    rewrite (guarded_stage_string _ _ _ _ _ _ _ _ S E3).
    rewrite (callGemini_string _ _ _ _ _ _ S E4).
    rewrite (guarded_stage_string _ _ _ _ _ _ _ _ S E5).
    rewrite (guarded_stage_string _ _ _ _ _ _ _ _ S E6). reflexivity.
Qed.

(** C1, counterexample.  The service answers every request with the number
    42 where the text should be.  The gateway hands the number on, the
    helper calls [replace] on it and throws, and the [catch] block, which
    parses the same variable again, throws in its turn: the call rejects. *)
Lemma always_resolves_counterexample :
  fst (generateThesisRoadmap numericPayloadWorld plainTemplates (js "topic") [])
    = Throw notAFunction
  /\ fst (callGemini numericPayloadWorld (js "topic") (js "step-by-step guide") [])
       = Return fortyTwo
  /\ fst (extractAndParseJson fortyTwo (js "stepByStep") []) = Throw notAFunction.
Proof. repeat split; vm_compute; reflexivity. Qed.

(** C1, amended.  For every topic and every world in which the text
    payloads of the generative service are strings (whatever else the
    literature providers and the service do, throwing included),
    [generateThesisRoadmap] returns a result and does not throw.  The
    result carries the topic unchanged; each of its five content fields is
    what the extractor makes of the raw text the run captured for it, a
    parsed value or [null]; and its error string is present and not empty
    whenever one of the five fields is [null], and whenever the sequence of
    stages was cut short by an exception. *)
Theorem generateThesisRoadmap_always_resolves :
  forall (W : World) (PG : PromptGenerator.Templates) (topic : jsstring) (t : trace),
    textsAreStrings W ->
    exists roadmap t',
      generateThesisRoadmap W PG topic t = (Return roadmap, t')
      /\ thesisDescription roadmap = topic
      /\ parsedFrom (capturedBy W PG topic t) roadmap
      /\ (someFieldNull roadmap -> reportsFailure roadmap)
      /\ ((exists e vars t1,
             tryBlock W PG topic Locals.initial t = (Throw e, vars, t1)) ->
          reportsFailure roadmap).
Proof.
  intros W PG topic t S. unfold capturedBy.
  destruct (tryBlock W PG topic Locals.initial t) as [[[roadmap|e] vars] t1] eqn:E.
  - exists roadmap, t1.
    destruct (tryBlock_Return _ _ _ _ _ _ _ _ E) as (T & P & N).
    split; [unfold generateThesisRoadmap; rewrite E; reflexivity|].
    split; [exact T|]. split; [exact P|]. split; [exact N|].
    intros (e & vars' & t1' & X). discriminate.
  - destruct (generateThesisRoadmap_after_throw _ _ _ _ _ _ _ E
                (tryBlock_Throw_strings _ _ _ _ _ _ _ S E))
      as (roadmap & t' & G & T & P & F & _).
    exists roadmap, t'. split; [exact G|]. split; [exact T|].
    split; [exact P|]. split; intros _; exact F.
Qed.

Lemma generateThesisRoadmap_always_resolves_witness :
  exists roadmap t',
    generateThesisRoadmap methodologyFailsWorld plainTemplates (js "topic") []
      = (Return roadmap, t')
    /\ thesisDescription roadmap = js "topic"
    /\ reportsFailure roadmap.
Proof.
  assert (S : textsAreStrings methodologyFailsWorld).
  { intros t r data. cbn [axios_post methodologyFailsWorld].
    destruct (length (requestsOf t)) as [|[|[|[|[|n]]]]]; intro H;
      inversion H; reflexivity. }
  destruct (generateThesisRoadmap_always_resolves methodologyFailsWorld plainTemplates
              (js "topic") [] S) as (roadmap & t' & G & T & _ & _ & F).
  exists roadmap, t'. split; [exact G|]. split; [exact T|].
  apply F. do 3 eexists. vm_compute. reflexivity.
Defined.




(* ================================================================== *)
(** * Further properties *)
(* ================================================================== *)

(** ** The requests of the adapters and of the fallback chain *)

Lemma normalizeResults_requests (provider : jsstring)
    (toPaper : jsval -> outcome ResearchPaper) (results : jsval) (t : trace) :
  requestsOf (snd (normalizeResults provider toPaper results t)) = requestsOf t.
Proof.
  unfold normalizeResults.
  assert (G : forall b : bool,
             requestsOf
               (snd ((if b
                      then console LOG [Text provider; Text (js " returned 0 results.")] ;;
                           ret ([] : list ResearchPaper)
                      else throw (Error (js "Invalid data format received from "
                                           ++ provider))) t))
             = requestsOf t).
  { intros [|]; unfold bind, console, ret, throw; cbn [snd].
    - rewrite requestsOf_app. apply app_nil_r.
    - reflexivity. }
  destruct results as [| | | | |[|first more]|]; try apply G.
  reflexivity.
Qed.

Lemma adapter_requests (W : World) (r : request) (field provider : jsstring)
    (toPaper : jsval -> outcome ResearchPaper) (t : trace) :
  requestsOf
    (snd ((data <- axiosGet W r ;;
           results <- lift (get data field) ;;
           normalizeResults provider toPaper results) t))
  = requestsOf t ++ [r].
Proof.
  unfold bind at 1. unfold axiosGet.
  destruct (axios_get W t r) as [data|e]; cbn [snd].
  - unfold bind, lift. destruct (get data field) as [results|e]; cbn [snd].
    + rewrite normalizeResults_requests. apply requestsOf_app.
    + apply requestsOf_app.
  - apply requestsOf_app.
Qed.

Lemma fetchFromCORE_requests (W : World) (query : jsstring) (t : trace) :
  requestsOf (snd (fetchFromCORE W query t))
  = requestsOf t ++ (if coreConfigured W then [coreRequest W query] else []).
Proof.
  unfold fetchFromCORE, coreConfigured.
  destruct (jsstring_eqb (CORE_API_KEY W) [] || _); cbn [negb].
  - unfold bind, console, ret. cbn [snd]. rewrite requestsOf_app. reflexivity.
  - apply adapter_requests.
Qed.

Lemma afterNoPapers_requests (provider : PaperProvider)
    (result : outcome (list ResearchPaper)) (t : trace) :
  requestsOf (afterNoPapers provider result t) = requestsOf t.
Proof.
  destruct result as [papers|err]; cbn [afterNoPapers].
  - rewrite requestsOf_app. apply app_nil_r.
  - rewrite requestsOf_app.
    replace (requestsOf (errorLogged provider err)) with (@nil request);
      [apply app_nil_r|].
    unfold errorLogged. destruct err as [m|m|m|m [[status data]|]]; try reflexivity.
    destruct (jsstring_eqb (name provider) (js "Semantic Scholar") && (status =? 429)%N);
      reflexivity.
Qed.

(** One turn of the loop asks what the provider's adapter asks, and gives
    papers only when the adapter returned some. *)
Lemma attempt_requests (provider : PaperProvider) (topic : jsstring) (t : trace)
    (asked : list request) :
  (forall t0, requestsOf (snd (fetchFunction provider topic t0)) = requestsOf t0 ++ asked) ->
  exists found t',
    attempt provider topic t = (Return found, t')
    /\ requestsOf t' = requestsOf t ++ asked
    /\ match found with
       | Some papers =>
           papers <> []
           /\ exists t0 t1, fetchFunction provider topic t0 = (Return papers, t1)
       | None => True
       end.
Proof.
  intro H. rewrite attempt_step.
  specialize (H (t ++ [attempting provider])).
  rewrite requestsOf_app in H. cbn [requestsOf attempting] in H.
  rewrite app_nil_r in H.
  destruct (fetchFunction provider topic (t ++ [attempting provider]))
    as [[[|p ps]|err] t1] eqn:E; cbn [snd] in H.
  - eexists. eexists. split; [reflexivity|].
    split; [rewrite afterNoPapers_requests; exact H | exact I].
  - eexists. eexists. split; [reflexivity|]. split.
    + rewrite requestsOf_app. cbn [requestsOf fetched]. rewrite app_nil_r. exact H.
    + split; [discriminate|]. eexists. eexists. exact E.
  - eexists. eexists. split; [reflexivity|].
    split; [rewrite afterNoPapers_requests; exact H | exact I].
Qed.

(** What the chain asks: Semantic Scholar, then OpenAlex and CORE for as
    long as no papers came; and where its papers come from. *)
Lemma fetchRelatedPapers_asks (W : World) (topic : jsstring) (t : trace) :
  exists papers t' searches later,
    fetchRelatedPapers W topic t = (Return papers, t')
    /\ requestsOf t' = requestsOf t ++ searches
    /\ searches ++ later = searchRequests W topic
    /\ searches <> []
    /\ (papers = [] -> later = [])
    /\ (papers <> [] ->
        exists t0 t1,
          fetchFromSemanticScholar W topic t0 = (Return papers, t1)
          \/ fetchFromOpenAlex W topic t0 = (Return papers, t1)
          \/ fetchFromCORE W topic t0 = (Return papers, t1)).
Proof.
  unfold fetchRelatedPapers, providers. cbn [fallbackChain].
  set (semanticScholar :=
         {| name := js "Semantic Scholar"; fetchFunction := fetchFromSemanticScholar W |}).
  set (openAlex := {| name := js "OpenAlex"; fetchFunction := fetchFromOpenAlex W |}).
  set (core := {| name := js "CORE"; fetchFunction := fetchFromCORE W |}).
  destruct (attempt_requests semanticScholar topic t [semanticScholarRequest topic])
    as (f1 & t1 & E1 & R1 & P1).
  { intro t0. apply adapter_requests. }
  unfold bind at 1. rewrite E1.
  destruct f1 as [papers|].
  { destruct P1 as [Hne (t0 & t0' & Hf)].
    exists papers, t1, [semanticScholarRequest topic].
    eexists. split; [reflexivity|]. split; [exact R1|].
    split; [reflexivity|]. split; [discriminate|].
    split; [intro; contradiction|].
    intros _. exists t0, t0'. left. exact Hf. }
  destruct (attempt_requests openAlex topic t1 [openAlexRequest topic])
    as (f2 & t2 & E2 & R2 & P2).
  { intro t0. apply adapter_requests. }
  unfold bind at 1. rewrite E2.
  destruct f2 as [papers|].
  { destruct P2 as [Hne (t0 & t0' & Hf)].
    exists papers, t2, [semanticScholarRequest topic; openAlexRequest topic].
    eexists. split; [reflexivity|].
    split; [rewrite R2, R1, <- app_assoc; reflexivity|].
    split; [reflexivity|]. split; [discriminate|].
    split; [intro; contradiction|].
    intros _. exists t0, t0'. right. left. exact Hf. }
  destruct (attempt_requests core topic t2
              (if coreConfigured W then [coreRequest W topic] else []))
    as (f3 & t3 & E3 & R3 & P3).
  { intro t0. apply fetchFromCORE_requests. }
  unfold bind at 1. rewrite E3.
  assert (R : requestsOf t3 = requestsOf t ++ searchRequests W topic).
  { rewrite R3, R2, R1, <- !app_assoc. reflexivity. }
  destruct f3 as [papers|].
  { destruct P3 as [Hne (t0 & t0' & Hf)].
    exists papers, t3, (searchRequests W topic), [].
    split; [reflexivity|]. split; [exact R|].
    split; [apply app_nil_r|]. split; [discriminate|].
    split; [reflexivity|].
    intros _. exists t0, t0'. right. right. exact Hf. }
  exists [], (t3 ++ [exhausted]), (searchRequests W topic), [].
  split; [reflexivity|]. split.
  { rewrite requestsOf_app. cbn [requestsOf exhausted]. rewrite app_nil_r. exact R. }
  split; [apply app_nil_r|]. split; [discriminate|].
  split; [reflexivity|]. intro N. contradiction.
Qed.

(** X1.  Whatever the providers answer, [fetchRelatedPapers] sends only
    literature searches for the topic, in the order Semantic Scholar,
    OpenAlex, CORE, each at most once.  Semantic Scholar is always asked;
    OpenAlex is asked exactly when the Semantic Scholar adapter gave no
    papers, and CORE exactly when neither of the two gave papers and a key
    is configured.  So what is sent is a non-empty initial part of
    [searchRequests], and the whole of it when no papers came back. *)
Theorem fetchRelatedPapers_requests :
  forall (W : World) (topic : jsstring) (t : trace),
    let semanticScholar :=
      {| name := js "Semantic Scholar"; fetchFunction := fetchFromSemanticScholar W |} in
    let openAlex := {| name := js "OpenAlex"; fetchFunction := fetchFromOpenAlex W |} in
    let r1 := fetchFromSemanticScholar W topic (t ++ [attempting semanticScholar]) in
    let t1 := afterNoPapers semanticScholar (fst r1) (snd r1) in
    let r2 := fetchFromOpenAlex W topic (t1 ++ [attempting openAlex]) in
    exists searches later,
      requestsOf (snd (fetchRelatedPapers W topic t)) = requestsOf t ++ searches
      /\ searches
         = semanticScholarRequest topic
             :: (if gavePapers (fst r1) then []
                 else openAlexRequest topic
                        :: (if gavePapers (fst r2) then []
                            else if coreConfigured W then [coreRequest W topic]
                                 else []))
      /\ searches ++ later = searchRequests W topic
      /\ (fst (fetchRelatedPapers W topic t) = Return [] -> later = [])
      /\ length searches <= 3.
Proof.
  intros W topic t semanticScholar openAlex r1 t1 r2.
  pose proof (fetchRelatedPapers_unfolded W topic t) as E. cbv zeta in E.
  fold semanticScholar in E. fold openAlex in E.
  set (core := {| name := js "CORE"; fetchFunction := fetchFromCORE W |}) in E.
  fold r1 in E. fold t1 in E. fold r2 in E.
  set (t2 := afterNoPapers openAlex (fst r2) (snd r2)) in E.
  set (r3 := fetchFromCORE W topic (t2 ++ [attempting core])) in E.
  assert (Q1 : requestsOf (snd r1) = requestsOf t ++ [semanticScholarRequest topic]).
  { unfold r1, fetchFromSemanticScholar.
    rewrite (adapter_requests W (semanticScholarRequest topic)).
    rewrite requestsOf_app. cbn [requestsOf attempting]. rewrite app_nil_r.
    reflexivity. }
  assert (Q2 : requestsOf (snd r2) = requestsOf t1 ++ [openAlexRequest topic]).
  { unfold r2, fetchFromOpenAlex.
    rewrite (adapter_requests W (openAlexRequest topic)).
    rewrite requestsOf_app. cbn [requestsOf attempting]. rewrite app_nil_r.
    reflexivity. }
  assert (Q3 : requestsOf (snd r3)
               = requestsOf t2 ++ (if coreConfigured W then [coreRequest W topic]
                                   else [])).
  { unfold r3. rewrite fetchFromCORE_requests.
    rewrite requestsOf_app. cbn [requestsOf attempting]. rewrite app_nil_r.
    reflexivity. }
  assert (P1 : requestsOf t1 = requestsOf (snd r1))
    by apply afterNoPapers_requests.
  assert (P2 : requestsOf t2 = requestsOf (snd r2))
    by apply afterNoPapers_requests.
  assert (P3 : requestsOf (afterNoPapers core (fst r3) (snd r3)) = requestsOf (snd r3))
    by apply afterNoPapers_requests.
  rewrite P1, Q1 in Q2. rewrite P2, Q2 in Q3. rewrite Q3 in P3.
  clearbody r1 r2 r3 t1 t2.
  rewrite E. clear E.
  eexists. exists (skipn
                     (length (if gavePapers (fst r1) then []
                              else openAlexRequest topic
                                     :: (if gavePapers (fst r2) then []
                                         else if coreConfigured W
                                              then [coreRequest W topic] else [])) + 1)
                     (searchRequests W topic)).
  split; [|split; [reflexivity|]].
  - destruct (fst r1) as [[|p ps]|err]; cbn [gavePapers snd].
    2: { rewrite requestsOf_app. cbn [requestsOf fetched]. rewrite app_nil_r.
         exact Q1. }
    all: destruct (fst r2) as [[|p2 ps2]|err2]; cbn [gavePapers snd].
    all: try (rewrite requestsOf_app; cbn [requestsOf fetched]; rewrite app_nil_r;
              rewrite Q2, <- app_assoc; reflexivity).
    all: destruct (fst r3) as [[|p3 ps3]|err3]; cbn [snd].
    all: rewrite requestsOf_app; cbn [requestsOf fetched exhausted];
         rewrite app_nil_r; rewrite ?P3, ?Q3, <- !app_assoc; reflexivity.
  - unfold searchRequests.
    destruct (gavePapers (fst r1)) eqn:G1; [|destruct (gavePapers (fst r2)) eqn:G2].
    + split; [reflexivity|]. split; [|cbn [length]; lia].
      destruct (fst r1) as [[|p ps]|err]; try discriminate G1. discriminate.
    + split; [reflexivity|]. split; [|cbn [length]; lia].
      destruct (fst r1) as [[|p ps]|err]; try discriminate G1;
        destruct (fst r2) as [[|p2 ps2]|err2]; try discriminate G2; discriminate.
    + destruct (coreConfigured W); (split; [reflexivity|]);
        (split; [reflexivity | cbn [length]; lia]).
Qed.

(** ** The requests of the gateway and of the stages *)

Lemma callGemini_requests (W : World) (prompt context : jsstring) (t : trace) :
  requestsOf (snd (callGemini W prompt context t))
  = requestsOf t ++ [geminiRequest W prompt].
Proof.
  unfold callGemini, bind, tryCatch, axiosPost, console.
  set (called := t ++ [Console LOG [Text (js "Calling Gemini API for: "); Text context]]).
  assert (C : requestsOf (called ++ [Request (geminiRequest W prompt)])
              = requestsOf t ++ [geminiRequest W prompt]).
  { subst called. rewrite !requestsOf_app. cbn [requestsOf]. rewrite app_nil_r.
    reflexivity. }
  destruct (axios_post W called (geminiRequest W prompt)) as [data|e].
  - destruct (checkEnvelope_spec data context
                (called ++ [Request (geminiRequest W prompt)])) as (events & S & R & _).
    destruct (checkEnvelope data context _) as [[text|e] t1]; cbn [snd] in S |- *;
      subst t1.
    + rewrite requestsOf_app, R, app_nil_r. exact C.
    + unfold throw. cbn [snd].
      rewrite (requestsOf_app (_ ++ events)). cbn [requestsOf]. rewrite app_nil_r.
      rewrite (requestsOf_app _ events), R, app_nil_r. exact C.
  - unfold throw. cbn [snd].
    rewrite (requestsOf_app (called ++ _)). cbn [requestsOf].
    rewrite app_nil_r. exact C.
Qed.

Lemma guarded_stage_requests (W : World) (prompt context label marker : jsstring)
    (t : trace) :
  requestsOf
    (snd (tryCatch (callGemini W prompt context)
            (fun error => console ERROR [Text label; messageOrError error] ;;
                          ret (VStr marker))
            t))
  = requestsOf t ++ [geminiRequest W prompt].
Proof.
  pose proof (callGemini_requests W prompt context t) as R.
  unfold tryCatch.
  destruct (callGemini W prompt context t) as [[text|e] t1]; cbn [snd] in R |- *.
  - exact R.
  - unfold bind, console, ret. cbn [snd]. rewrite requestsOf_app. cbn [requestsOf].
    rewrite app_nil_r. exact R.
Qed.

(** *** The [try] block when it ends normally *)

Lemma bodyRet_Return {A} (a : A) vars t r vars' t' :
  bodyRet a vars t = (Return r, vars', t') -> r = a /\ vars' = vars /\ t' = t.
Proof. unfold bodyRet. intro H. inversion H. repeat split. Qed.

Lemma console_Return (l : level) (args : list logArg) (t : trace) (u : unit)
    (t' : trace) :
  console l args t = (Return u, t') -> t' = t ++ [Console l args].
Proof. unfold console. intro H. inversion H. reflexivity. Qed.

Lemma some_section_falsy (a b c d e : bool) :
  negb a || negb b || negb c || negb d || negb e
  = negb (a && (b && (c && (d && (e && true))))).
Proof. destruct a, b, c, d, e; reflexivity. Qed.

Lemma tryBlock_stages (W : World) (PG : PromptGenerator.Templates) (topic : jsstring)
    (t : trace) (roadmap : ThesisRoadmapOutput) (vars : Locals.t) (t' : trace) :
  tryBlock W PG topic Locals.initial t = (Return roadmap, vars, t') ->
  exists stepPlan t1 papers t2 ranking t3 method t4 gaps t5 pros t6,
    callGemini W (PromptGenerator.stepByStep PG topic) (js "step-by-step guide") t
      = (Return stepPlan, t1)
    /\ fetchRelatedPapers W topic t1 = (Return papers, t2)
    /\ rankAndSummarizePapersLLM W PG topic papers t2 = (Return ranking, t3)
    /\ callGemini W (PromptGenerator.methodology PG topic) (js "methodology") t3
       = (Return method, t4)
    /\ generateResearchGapAnalysisLLM W PG papers topic t4 = (Return gaps, t5)
    /\ generateProsAndConsLLM W PG papers topic t5 = (Return pros, t6)
    /\ requestsOf t' = requestsOf t6
    /\ thesisDescription roadmap = topic
    /\ stepByStep roadmap = extracted stepPlan
    /\ relatedPapers roadmap = extracted ranking
    /\ methodology roadmap = extracted method
    /\ researchGapAnalysis roadmap = extracted gaps
    /\ prosAndCons roadmap = extracted pros
    /\ error roadmap
       = if forallb (fun section => truthy (fst section)) (sections roadmap)
         then None
         else Some (js "Failed to parse the following sections from the AI: "
                    ++ errorDetails (sections roadmap)
                    ++ js ". The structure might be invalid.").
Proof.
  unfold tryBlock. intro H.
  apply bodyBind_Return in H. destruct H as (? & ? & t1 & H1 & H).
  apply awaitInto_Return in H1 as (stepPlan & H1 & ->).
  apply bodyBind_Return in H. destruct H as (? & ? & t2 & H2 & H).
  apply awaitInto_Return in H2 as (papers & H2 & ->).
  apply bodyBind_Return in H. destruct H as (? & ? & t3 & H3 & H).
  apply awaitInto_Return in H3 as (ranking & H3 & ->).
  cbn [Locals.relatedPapers] in H3.
  apply bodyBind_Return in H. destruct H as (? & ? & t4 & H4 & H).
  apply awaitInto_Return in H4 as (method & H4 & ->).
  apply bodyBind_Return in H. destruct H as (? & ? & t5 & H5 & H).
  apply awaitInto_Return in H5 as (gaps & H5 & ->).
  cbn [Locals.relatedPapers] in H5.
  apply bodyBind_Return in H. destruct H as (? & ? & t6 & H6 & H).
  apply awaitInto_Return in H6 as (pros & H6 & ->).
  cbn [Locals.relatedPapers] in H6.
  exists stepPlan, t1, papers, t2, ranking, t3, method, t4, gaps, t5, pros, t6.
  do 6 (split; [assumption|]).
  apply bodyBind_Return in H. destruct H as (? & ? & s0 & Hlog0 & H).
  apply run_Return in Hlog0 as [Hlog0 ->].
  apply console_Return in Hlog0 as T0.
  apply bodyBind_Return in H. destruct H as (p1 & ? & s1 & X1 & H).
  apply run_extract in X1 as (-> & -> & R1 & _).
  apply bodyBind_Return in H. destruct H as (p2 & ? & s2 & X2 & H).
  apply run_extract in X2 as (-> & -> & R2 & _).
  apply bodyBind_Return in H. destruct H as (p3 & ? & s3 & X3 & H).
  apply run_extract in X3 as (-> & -> & R3 & _).
  apply bodyBind_Return in H. destruct H as (p4 & ? & s4 & X4 & H).
  apply run_extract in X4 as (-> & -> & R4 & _).
  apply bodyBind_Return in H. destruct H as (p5 & ? & s5 & X5 & H).
  apply run_extract in X5 as (-> & -> & R5 & _).
  apply bodyBind_Return in H. destruct H as (? & ? & s6 & Hlog1 & H).
  apply run_Return in Hlog1 as [Hlog1 ->].
  apply console_Return in Hlog1 as T1.
  cbn [Locals.stepByStepRaw Locals.rankedPapersRaw Locals.methodologyRaw
       Locals.researchGapAnalysisRaw Locals.prosAndConsRaw] in *.
  assert (R : requestsOf s6 = requestsOf t6).
  { rewrite T1, requestsOf_app. cbn [requestsOf]. rewrite app_nil_r.
    rewrite R5, R4, R3, R2, R1, T0, requestsOf_app. cbn [requestsOf].
    apply app_nil_r. }
  match type of H with
  | (if ?c then _ else _) _ _ = _ => destruct c eqn:C
  end.
  - apply bodyBind_Return in H. destruct H as (? & ? & s7 & Hlog2 & H).
    apply run_Return in Hlog2 as [Hlog2 ->].
    apply console_Return in Hlog2 as T2.
    apply bodyRet_Return in H as (-> & _ & ->).
    cbn [thesisDescription stepByStep relatedPapers methodology researchGapAnalysis
         prosAndCons error sections forallb fst].
    split.
    { rewrite T2, requestsOf_app. cbn [requestsOf]. rewrite app_nil_r. exact R. }
    do 6 (split; [reflexivity|]).
    rewrite some_section_falsy in C. apply negb_true_iff in C. rewrite C.
    reflexivity.
  - apply bodyRet_Return in H as (-> & _ & ->).
    cbn [thesisDescription stepByStep relatedPapers methodology researchGapAnalysis
         prosAndCons error sections forallb fst].
    split; [exact R|].
    do 6 (split; [reflexivity|]).
    rewrite some_section_falsy in C. apply negb_false_iff in C. rewrite C.
    reflexivity.
Qed.

(** With a service that sends strings, a run returns. *)
Lemma generateThesisRoadmap_returns (W : World) (PG : PromptGenerator.Templates)
    (topic : jsstring) (t : trace) :
  textsAreStrings W ->
  exists roadmap t',
    generateThesisRoadmap W PG topic t = (Return roadmap, t')
    /\ thesisDescription roadmap = topic.
Proof.
  intro S. unfold generateThesisRoadmap.
  destruct (tryBlock W PG topic Locals.initial t) as [[[roadmap|e] vars] t'] eqn:E.
  - exists roadmap, t'. split; [reflexivity|].
    exact (proj1 (tryBlock_Return _ _ _ _ _ _ _ _ E)).
  - destruct (catchBlock_returns topic vars e t'
                (tryBlock_Throw_strings _ _ _ _ _ _ _ S E))
      as (roadmap & events & C & _ & T & _).
    exists roadmap, (t' ++ events). split; [exact C | exact T].
Qed.

(** A result a run returns carries the topic. *)
Lemma generateThesisRoadmap_topic (W : World) (PG : PromptGenerator.Templates)
    (topic : jsstring) (t : trace) (roadmap : ThesisRoadmapOutput) (t' : trace) :
  generateThesisRoadmap W PG topic t = (Return roadmap, t') ->
  thesisDescription roadmap = topic.
Proof.
  unfold generateThesisRoadmap.
  destruct (tryBlock W PG topic Locals.initial t) as [[[result|e] vars] t1] eqn:E.
  - intro H. inversion H. subst.
    exact (proj1 (tryBlock_Return _ _ _ _ _ _ _ _ E)).
  - intro C. destruct (rawTextsAreStrings vars) eqn:S.
    + destruct (catchBlock_returns topic vars e t1 S)
        as (result & events & X & _ & T & _).
      rewrite X in C. injection C as <- _. exact T.
    + destruct (catchBlock_throws topic vars e t1 S) as (events & X & _).
      rewrite X in C. discriminate.
Qed.

(** ** The network traffic of a whole run *)

Lemma catchBlock_requests (topic : jsstring) (vars : Locals.t) (err : exn) (t : trace) :
  requestsOf (snd (catchBlock topic vars err t)) = requestsOf t.
Proof.
  destruct (rawTextsAreStrings vars) eqn:S.
  - destruct (catchBlock_returns topic vars err t S) as (roadmap & events & E & R & _).
    rewrite E. cbn [snd]. rewrite requestsOf_app, R. apply app_nil_r.
  - destruct (catchBlock_throws topic vars err t S) as (events & E & R).
    rewrite E. cbn [snd]. rewrite requestsOf_app, R. apply app_nil_r.
Qed.

Ltac requests_of E R lemma :=
  pose proof lemma as R; rewrite E in R; cbn [snd] in R.

(** The requests of the six stages when all of them return. *)
Lemma all_stages_requests (W : World) (PG : PromptGenerator.Templates)
    (topic : jsstring) (t : trace) stepPlan t1 papers t2 ranking t3 method t4
    gaps t5 pros t6 :
  callGemini W (PromptGenerator.stepByStep PG topic) (js "step-by-step guide") t
    = (Return stepPlan, t1) ->
  fetchRelatedPapers W topic t1 = (Return papers, t2) ->
  rankAndSummarizePapersLLM W PG topic papers t2 = (Return ranking, t3) ->
  callGemini W (PromptGenerator.methodology PG topic) (js "methodology") t3
    = (Return method, t4) ->
  generateResearchGapAnalysisLLM W PG papers topic t4 = (Return gaps, t5) ->
  generateProsAndConsLLM W PG papers topic t5 = (Return pros, t6) ->
  exists searches later,
    searches ++ later = searchRequests W topic
    /\ searches <> []
    /\ (papers = [] -> later = [])
    /\ requestsOf t6
       = requestsOf t
           ++ stepPlanRequest W PG topic :: searches
           ++ [rankingRequest W PG topic papers; methodologyRequest W PG topic;
               gapRequest W PG topic papers; prosConsRequest W PG topic papers].
Proof.
  intros E1 E2 E3 E4 E5 E6.
  requests_of E1 R1 (callGemini_requests W (PromptGenerator.stepByStep PG topic)
                       (js "step-by-step guide") t).
  destruct (fetchRelatedPapers_asks W topic t1)
    as (papers' & t2' & searches & later & E2' & R2 & S & N & L & _).
  rewrite E2 in E2'. injection E2' as <- <-.
  pose proof (guarded_stage_requests W (rankPrompt W PG topic papers)
                (js "rank and summarize papers")
                (js "Error preparing data for rankAndSummarizePapersLLM:")
                (rankingFailed W) t2) as R3.
  change (tryCatch _ _ t2) with (rankAndSummarizePapersLLM W PG topic papers t2) in R3.
  rewrite E3 in R3. cbn [snd] in R3.
  requests_of E4 R4 (callGemini_requests W (PromptGenerator.methodology PG topic)
                       (js "methodology") t3).
  pose proof (guarded_stage_requests W (gapPrompt W PG papers topic)
                (js "research gap analysis")
                (js "Error preparing data for generateResearchGapAnalysisLLM:")
                (gapAnalysisFailed W) t4) as R5.
  change (tryCatch _ _ t4) with (generateResearchGapAnalysisLLM W PG papers topic t4)
    in R5.
  rewrite E5 in R5. cbn [snd] in R5.
  pose proof (guarded_stage_requests W (prosConsPrompt W PG papers topic)
                (js "pros and cons")
                (js "Error preparing data for generateProsAndConsLLM:")
                (prosConsFailed W) t5) as R6.
  change (tryCatch _ _ t5) with (generateProsAndConsLLM W PG papers topic t5) in R6.
  rewrite E6 in R6. cbn [snd] in R6.
  exists searches, later.
  split; [exact S|]. split; [exact N|]. split; [exact L|].
  rewrite R6, R5, R4, R3, R2, R1. rewrite <- !app_assoc. reflexivity.
Qed.

(** The requests of a run, in order. *)
Lemma run_requests :
  forall (W : World) (PG : PromptGenerator.Templates) (topic : jsstring) (t : trace),
    exists issued,
      requestsOf (snd (generateThesisRoadmap W PG topic t)) = requestsOf t ++ issued
      /\ (issued = [stepPlanRequest W PG topic]
          \/ exists papers searches later,
               searches ++ later = searchRequests W topic
               /\ searches <> []
               /\ (papers = [] -> later = [])
               /\ (issued
                   = stepPlanRequest W PG topic :: searches
                       ++ [rankingRequest W PG topic papers;
                           methodologyRequest W PG topic]
                   \/ issued
                      = stepPlanRequest W PG topic :: searches
                          ++ [rankingRequest W PG topic papers;
                              methodologyRequest W PG topic;
                              gapRequest W PG topic papers;
                              prosConsRequest W PG topic papers]))
      /\ length issued <= 8.
Proof.
  intros W PG topic t.
  assert (B : forall searches later,
             searches ++ later = searchRequests W topic -> length searches <= 3).
  { intros searches later S. apply (f_equal (@length request)) in S.
    rewrite length_app in S. unfold searchRequests in S.
    destruct (coreConfigured W); cbn [length] in S; lia. }
  assert (Full : forall stepPlan t1 papers t2 ranking t3 method t4 gaps t5 pros t6 t',
             callGemini W (PromptGenerator.stepByStep PG topic)
               (js "step-by-step guide") t = (Return stepPlan, t1) ->
             fetchRelatedPapers W topic t1 = (Return papers, t2) ->
             rankAndSummarizePapersLLM W PG topic papers t2 = (Return ranking, t3) ->
             callGemini W (PromptGenerator.methodology PG topic) (js "methodology") t3
               = (Return method, t4) ->
             generateResearchGapAnalysisLLM W PG papers topic t4 = (Return gaps, t5) ->
             generateProsAndConsLLM W PG papers topic t5 = (Return pros, t6) ->
             requestsOf t' = requestsOf t6 ->
             exists issued,
               requestsOf t' = requestsOf t ++ issued
               /\ (issued = [stepPlanRequest W PG topic]
                   \/ exists papers searches later,
                        searches ++ later = searchRequests W topic
                        /\ searches <> []
                        /\ (papers = [] -> later = [])
                        /\ (issued
                            = stepPlanRequest W PG topic :: searches
                                ++ [rankingRequest W PG topic papers;
                                    methodologyRequest W PG topic]
                            \/ issued
                               = stepPlanRequest W PG topic :: searches
                                   ++ [rankingRequest W PG topic papers;
                                       methodologyRequest W PG topic;
                                       gapRequest W PG topic papers;
                                       prosConsRequest W PG topic papers]))
               /\ length issued <= 8).
  { intros stepPlan t1 papers t2 ranking t3 method t4 gaps t5 pros t6 t'
           E1 E2 E3 E4 E5 E6 R.
    destruct (all_stages_requests W PG topic t _ _ _ _ _ _ _ _ _ _ _ _
                E1 E2 E3 E4 E5 E6) as (searches & later & S & N & L & R6).
    exists (stepPlanRequest W PG topic :: searches
              ++ [rankingRequest W PG topic papers; methodologyRequest W PG topic;
                  gapRequest W PG topic papers; prosConsRequest W PG topic papers]).
    split; [rewrite R; exact R6|]. split.
    - right. exists papers, searches, later.
      split; [exact S|]. split; [exact N|]. split; [exact L|]. right. reflexivity.
    - specialize (B _ _ S). cbn [length]. rewrite length_app. cbn [length]. lia. }
  unfold generateThesisRoadmap.
  destruct (tryBlock W PG topic Locals.initial t) as [[[roadmap|e] vars] t'] eqn:E.
  - apply tryBlock_stages in E.
    destruct E as (stepPlan & t1 & papers & t2 & ranking & t3 & method & t4 & gaps
                   & t5 & pros & t6 & E1 & E2 & E3 & E4 & E5 & E6 & R & _).
    cbn [snd]. exact (Full _ _ _ _ _ _ _ _ _ _ _ _ _ E1 E2 E3 E4 E5 E6 R).
  - rewrite catchBlock_requests.
    apply tryBlock_Throw in E.
    destruct E as [(_ & _ & E1)
                  | [(_ & stepPlan & t1 & papers & t2 & ranking & t3
                      & E1 & E2 & E3 & E4 & _)
                    | (_ & stepPlan & t1 & papers & t2 & ranking & t3 & method & t4
                       & gaps & t5 & pros & t6 & E1 & E2 & E3 & E4 & E5 & E6 & _ & _
                       & R)]].
    + requests_of E1 R1 (callGemini_requests W (PromptGenerator.stepByStep PG topic)
                           (js "step-by-step guide") t).
      exists [stepPlanRequest W PG topic].
      split; [exact R1|]. split; [left; reflexivity | cbn [length]; lia].
    + requests_of E1 R1 (callGemini_requests W (PromptGenerator.stepByStep PG topic)
                           (js "step-by-step guide") t).
      destruct (fetchRelatedPapers_asks W topic t1)
        as (papers' & t2' & searches & later & E2' & R2 & S & N & L & _).
      rewrite E2 in E2'. injection E2' as <- <-.
      pose proof (guarded_stage_requests W (rankPrompt W PG topic papers)
                    (js "rank and summarize papers")
                    (js "Error preparing data for rankAndSummarizePapersLLM:")
                    (rankingFailed W) t2) as R3.
      change (tryCatch _ _ t2) with (rankAndSummarizePapersLLM W PG topic papers t2)
        in R3.
      rewrite E3 in R3. cbn [snd] in R3.
      requests_of E4 R4 (callGemini_requests W (PromptGenerator.methodology PG topic)
                           (js "methodology") t3).
      exists (stepPlanRequest W PG topic :: searches
                ++ [rankingRequest W PG topic papers; methodologyRequest W PG topic]).
      split; [|split].
      * rewrite R4, R3, R2, R1. rewrite <- !app_assoc. reflexivity.
      * right. exists papers, searches, later.
        split; [exact S|]. split; [exact N|]. split; [exact L|]. left. reflexivity.
      * specialize (B _ _ S). cbn [length]. rewrite length_app. cbn [length]. lia.
    + exact (Full _ _ _ _ _ _ _ _ _ _ _ _ _ E1 E2 E3 E4 E5 E6 R).
Qed.



Lemma searchRequest_shape (W : World) (topic : jsstring) (r : request) :
  In r (searchRequests W topic) -> literatureSearch r.
Proof.
  unfold searchRequests, literatureSearch. intro H.
  destruct H as [<-|[<-|H]].
  - repeat split; try reflexivity. left. reflexivity.
  - repeat split; try reflexivity. right. left. reflexivity.
  - destruct (coreConfigured W); [|contradiction].
    destruct H as [<-|[]].
    repeat split; try reflexivity. right. right. left. reflexivity.
Qed.

(** X3.  Every request of a run is of one of two kinds.  It is a [POST] to
    the gateway URL that carries the Google key as its only query
    parameter and a timeout of 60 seconds; or it is a [GET] to one of the
    three literature APIs, without a body and without a timeout.  The
    program sends nothing anywhere else. *)
Theorem request_shapes :
  forall (W : World) (PG : PromptGenerator.Templates) (topic : jsstring) (t : trace)
         (r : request),
    In r (requestsOf (snd (generateThesisRoadmap W PG topic t))) ->
    In r (requestsOf t) \/ gatewayCall W r \/ literatureSearch r.
Proof.
  intros W PG topic t r H.
  destruct (run_requests W PG topic t) as (issued & R & F & _).
  rewrite R in H. apply in_app_or in H. destruct H as [H|H]; [left; exact H|].
  right.
  assert (G : forall prompt, gatewayCall W (geminiRequest W prompt)).
  { intro prompt. repeat split. }
  destruct F as [-> | (papers & searches & later & S & _ & _ & F)].
  - destruct H as [<-|[]]. left. apply G.
  - assert (Hs : In r searches -> literatureSearch r).
    { intro Hin. apply (searchRequest_shape W topic). rewrite <- S.
      apply in_or_app. left. exact Hin. }
    destruct F as [-> | ->]; destruct H as [<-|H]; try (left; apply G);
      apply in_app_or in H; destruct H as [H|H]; try (right; exact (Hs H));
      left; cbn [In] in H;
      repeat (destruct H as [<-|H]; [apply G|]); contradiction.
Qed.

Lemma request_shapes_witness :
  gatewayCall offlineWorld (stepPlanRequest offlineWorld plainTemplates (js "topic"))
  \/ literatureSearch (stepPlanRequest offlineWorld plainTemplates (js "topic")).
Proof.
  destruct (request_shapes offlineWorld plainTemplates (js "topic") []
              (stepPlanRequest offlineWorld plainTemplates (js "topic")))
    as [H|H].
  - vm_compute. left. reflexivity.
  - contradiction.
  - exact H.
Defined.

(** The four forms of the [error] field. *)
Lemma error_forms (W : World) (PG : PromptGenerator.Templates) (topic : jsstring)
    (t : trace) (roadmap : ThesisRoadmapOutput) (t' : trace) :
  generateThesisRoadmap W PG topic t = (Return roadmap, t') ->
  (error roadmap = None
   /\ forallb (fun section => truthy (fst section)) (sections roadmap) = true)
  \/ (error roadmap
        = Some (js "Failed to parse the following sections from the AI: "
                ++ errorDetails (sections roadmap)
                ++ js ". The structure might be invalid.")
      /\ forallb (fun section => truthy (fst section)) (sections roadmap) = false)
  \/ (error roadmap
        = Some (js "Failed to generate thesis roadmap: Failed to get response from AI for step-by-step guide.")
      /\ List.map fst (sections roadmap) = [VNull; VNull; VNull; VNull; VNull])
  \/ (error roadmap
        = Some (js "Failed to generate thesis roadmap: Failed to get response from AI for methodology.")
      /\ methodology roadmap = VNull
      /\ researchGapAnalysis roadmap = VNull
      /\ prosAndCons roadmap = VNull).
Proof.
  unfold generateThesisRoadmap.
  destruct (tryBlock W PG topic Locals.initial t) as [[[result|e] vars] t1] eqn:E.
  - intro H. inversion H. subst result t1. clear H.
    apply tryBlock_stages in E.
    destruct E as (stepPlan & t1 & papers & t2 & ranking & t3 & method & t4 & gaps
                   & t5 & pros & t6 & _ & _ & _ & _ & _ & _ & _ & _ & _ & _ & _ & _ & _
                   & Herr).
    destruct (forallb _ (sections roadmap)).
    + left. split; [exact Herr | reflexivity].
    + right. left. split; [exact Herr | reflexivity].
  - intro C.
    destruct (rawTextsAreStrings vars) eqn:S.
    2: { destruct (catchBlock_throws topic vars e t1 S) as (events & X & _).
         rewrite X in C. discriminate. }
    destruct (catchBlock_returns topic vars e t1 S)
      as (result & events & X & _ & _ & P & Herr).
    rewrite X in C. inversion C. subst result. clear C.
    destruct P as (P1 & P2 & P3 & P4 & P5).
    apply tryBlock_Throw in E.
    destruct E as [(-> & -> & _)
                  | [(-> & stepPlan & t2 & papers & t3 & ranking & t4
                      & _ & _ & _ & _ & ->)
                    | (_ & ? & ? & ? & ? & ? & ? & ? & ? & ? & ? & ? & ?
                       & _ & _ & _ & _ & _ & _ & _ & F & _)]].
    + right. right. left. split; [exact Herr|].
      unfold sections. cbn [List.map fst].
      rewrite P1, P2, P3, P4, P5. reflexivity.
    + right. right. right. split; [exact Herr|].
      rewrite P3, P4, P5. repeat split.
    + rewrite S in F. discriminate.
Qed.

(** X4.  A run returns a result whenever the text payloads of the service
    are strings, and the [error] field of every result a run returns has
    one of four forms.  It is absent exactly when the sequence ran to its
    end and all five content fields are truthy.  When the sequence ran to
    its end and some field is falsy (a text that parses to [0], [false] or
    the empty string counts, not only [null]), it names those fields.  When
    the step-plan stage failed it is the fixed step-plan message and all
    five fields are [null]; when the methodology stage failed it is the
    fixed methodology message and the last three fields are [null].  No
    text from a provider or from the gateway's own failure ever enters
    it. *)
Theorem roadmap_error_forms :
  forall (W : World) (PG : PromptGenerator.Templates) (topic : jsstring) (t : trace),
    (textsAreStrings W ->
     exists roadmap t', generateThesisRoadmap W PG topic t = (Return roadmap, t'))
    /\ (forall roadmap t',
          generateThesisRoadmap W PG topic t = (Return roadmap, t') ->
          (error roadmap = None
           /\ forallb (fun section => truthy (fst section)) (sections roadmap) = true)
          \/ (error roadmap
                = Some (js "Failed to parse the following sections from the AI: "
                        ++ errorDetails (sections roadmap)
                        ++ js ". The structure might be invalid.")
              /\ forallb (fun section => truthy (fst section)) (sections roadmap)
                 = false)
          \/ (error roadmap
                = Some (js "Failed to generate thesis roadmap: Failed to get response from AI for step-by-step guide.")
              /\ List.map fst (sections roadmap) = [VNull; VNull; VNull; VNull; VNull])
          \/ (error roadmap
                = Some (js "Failed to generate thesis roadmap: Failed to get response from AI for methodology.")
              /\ methodology roadmap = VNull
              /\ researchGapAnalysis roadmap = VNull
              /\ prosAndCons roadmap = VNull)).
Proof.
  intros W PG topic t. split.
  - intro S. destruct (generateThesisRoadmap_returns W PG topic t S)
      as (roadmap & t' & E & _).
    exists roadmap, t'. exact E.
  - intros roadmap t'. apply error_forms.
Qed.

(** ** The papers the chain hands on *)

Lemma adapter_papers_complete (W : World) (query : jsstring) (t : trace)
    (papers : list ResearchPaper) (t' : trace) :
  fetchFromSemanticScholar W query t = (Return papers, t')
  \/ fetchFromOpenAlex W query t = (Return papers, t')
  \/ fetchFromCORE W query t = (Return papers, t') ->
  Forall complete papers.
Proof.
  assert (G : forall (rel : jsval -> ResearchPaper -> Prop) items,
             (forall item p, rel item p -> complete p) ->
             Forall2 rel items papers -> Forall complete papers).
  { intros rel items Hrel F. induction F; constructor; eauto. }
  intros [H|[H|H]].
  - apply adapter_records in H.
    eapply (G normalizedFromSemanticScholar); [intros ? ? N; apply N|].
    exact (Forall2_impl _ _ _ _ (semanticScholarPaper_normalizes W) H).
  - apply adapter_records in H.
    eapply (G normalizedFromOpenAlex); [intros ? ? N; apply N|].
    exact (Forall2_impl _ _ _ _ (openAlexPaper_normalizes W) H).
  - unfold fetchFromCORE in H.
    destruct (jsstring_eqb (CORE_API_KEY W) [] || _).
    + unfold bind, console, ret in H. inversion H. constructor.
    + apply adapter_records in H.
      eapply (G normalizedFromCORE); [intros ? ? N; apply N|].
      exact (Forall2_impl _ _ _ _ (corePaper_normalizes W) H).
Qed.

(** X5.  Whatever the three providers answer, every paper that
    [fetchRelatedPapers] returns has all six fields present: none is
    [undefined]. *)
Theorem fetchRelatedPapers_complete :
  forall (W : World) (topic : jsstring) (t : trace),
    exists papers t',
      fetchRelatedPapers W topic t = (Return papers, t')
      /\ Forall complete papers.
Proof.
  intros W topic t.
  destruct (fetchRelatedPapers_asks W topic t)
    as (papers & t' & _ & _ & E & _ & _ & _ & _ & P).
  exists papers, t'. split; [exact E|].
  destruct papers as [|p ps]; [constructor|].
  destruct P as (t0 & t1 & P); [discriminate|].
  exact (adapter_papers_complete W topic t0 _ t1 P).
Qed.

(** ** [invertAbstract] undoes the inverted index of a text *)

Lemma seq_positions_sorted (n start : nat) :
  StronglySorted Z.lt (List.map Z.of_nat (seq start n)).
Proof.
  revert start. induction n as [|n IH]; intro start; cbn [seq List.map].
  - constructor.
  - constructor; [apply IH|].
    apply Forall_forall. intros x Hx. apply in_map_iff in Hx.
    destruct Hx as [i [<- Hi]]. apply in_seq in Hi. lia.
Qed.

Lemma map_seq_words {A} (f : nat -> A) (words : list A) (start : nat) :
  (forall i w, nth_error words i = Some w -> f (start + i) = w) ->
  List.map f (seq start (length words)) = words.
Proof.
  revert start. induction words as [|w words IH]; intros start H; [reflexivity|].
  cbn [length seq List.map]. f_equal.
  - rewrite <- (Nat.add_0_r start). apply H. reflexivity.
  - apply IH. intros i w' Hi. replace (S start + i) with (start + S i) by lia.
    apply H. exact Hi.
Qed.

(** X6.  For a text of [n] words, take any index that lists every position
    from [0] to [n - 1] under the word standing there, and lists nothing
    else; the order of its keys and of the positions under a key is free,
    and a word that occurs several times has one key.  [invertAbstract]
    returns the text: its words in their order, joined by single spaces. *)
Theorem invertAbstract_round_trip :
  forall (words : list jsstring) (entries : list (jsstring * list Z)),
    (forall q w, listedUnder entries q w ->
                 (0 <= q)%Z /\ nth_error words (Z.to_nat q) = Some w) ->
    (forall i, i < length words -> exists w, listedUnder entries (Z.of_nat i) w) ->
    invertAbstract (Some entries) = join (js " ") words.
Proof.
  intros words entries Hlisted Hall.
  destruct (sorted_positions entries) as [S K].
  assert (P : sortNumeric (List.map fst (positionMap entries))
              = List.map Z.of_nat (seq 0 (length words))).
  { apply ascending_unique; [exact S | apply seq_positions_sorted|].
    intro q. rewrite K. split.
    - intros [w Hw]. destruct (Hlisted q w Hw) as [Hq Hn].
      apply in_map_iff. exists (Z.to_nat q). split; [lia|].
      apply in_seq. split; [lia|]. cbn [plus].
      apply nth_error_Some. rewrite Hn. discriminate.
    - intro Hq. apply in_map_iff in Hq. destruct Hq as [i [<- Hi]].
      apply in_seq in Hi. apply Hall. lia. }
  cbn [invertAbstract]. cbv zeta. rewrite P, map_map. f_equal.
  apply map_seq_words. intros i w Hi. cbn [plus].
  assert (Hlt : i < length words) by (apply nth_error_Some; rewrite Hi; discriminate).
  assert (Hin : In (Z.of_nat i) (List.map fst (positionMap entries))).
  { apply positionMap_keys. apply Hall. exact Hlt. }
  apply wordAt_in_keys in Hin. destruct Hin as [w' Hw']. rewrite Hw'.
  apply positionMap_wordAt in Hw'. destruct (Hlisted _ _ Hw') as [_ Hn].
  rewrite Nat2Z.id, Hi in Hn. congruence.
Qed.

Lemma invertAbstract_round_trip_witness :
  invertAbstract (Some theCatTheMat) = js "the cat on the mat".
Proof.
  apply (invertAbstract_round_trip
           [js "the"; js "cat"; js "on"; js "the"; js "mat"] theCatTheMat).
  - intros q w (ps & Hin & Hq). cbn in Hin.
    repeat (destruct Hin as [Hin|Hin];
            [inversion Hin; subst; cbn in Hq;
             repeat (destruct Hq as [<-|Hq]; [split; [lia | reflexivity]|]);
             contradiction|]).
    contradiction.
  - intros i Hi. cbn [length] in Hi.
    destruct i as [|[|[|[|[|i]]]]]; [| | | | |lia].
    + exists (js "the"), [3%Z; 0%Z]. split; cbn; auto.
    + exists (js "cat"), [1%Z]. split; cbn; auto.
    + exists (js "on"), [2%Z]. split; cbn; auto.
    + exists (js "the"), [3%Z; 0%Z]. split; cbn; auto.
    + exists (js "mat"), [4%Z]. split; cbn; auto.
Defined.

(** ** Links and lists of the adapters *)

Lemma split_last_piece (sep : char) (s : jsstring) :
  exists front piece,
    split sep s = front ++ [piece]
    /\ forallb (fun c => negb (c =? sep)%N) piece = true.
Proof.
  induction s as [|c s (front & piece & E & F)].
  - exists [], []. split; reflexivity.
  - cbn [split]. rewrite E. destruct (c =? sep)%N eqn:C.
    + exists ([] :: front), piece. split; [reflexivity | exact F].
    + destruct front as [|f fs]; cbn [app].
      * exists [], (c :: piece). split; [reflexivity|].
        cbn [forallb]. rewrite C, F. reflexivity.
      * exists ((c :: f) :: fs), piece. split; [reflexivity | exact F].
Qed.

Lemma split_free (sep : char) (w : jsstring) :
  forallb (fun c => negb (c =? sep)%N) w = true -> split sep w = [w].
Proof.
  induction w as [|c w IH]; [reflexivity|].
  cbn [forallb split]. intro H. apply andb_true_iff in H as [H1 H2].
  apply negb_true_iff in H1. rewrite H1, (IH H2). reflexivity.
Qed.

Lemma split_last_segment (sep : char) (a w : jsstring) :
  forallb (fun c => negb (c =? sep)%N) w = true ->
  exists front, split sep (a ++ sep :: w) = front ++ [w].
Proof.
  intro F. induction a as [|c a [front E]].
  - exists [[]]. cbn [app split]. rewrite N.eqb_refl, (split_free _ _ F). reflexivity.
  - change ((c :: a) ++ sep :: w) with (c :: (a ++ sep :: w)).
    cbn [split]. rewrite E. destruct (c =? sep)%N.
    + exists ([] :: front). reflexivity.
    + destruct front as [|f fs]; cbn [app].
      * exfalso. clear -E F.
        assert (L : forall a, length (split sep (a ++ sep :: w)) >= 2).
        { clear. intro a. induction a as [|c a IH]; cbn [app split].
          - rewrite N.eqb_refl. cbn [length].
            destruct (split_last_piece sep w) as (fr & pc & -> & _).
            rewrite length_app. cbn [length]. lia.
          - destruct (c =? sep)%N; [cbn [length]; lia|].
            destruct (split sep (a ++ sep :: w)); cbn [length] in *; lia. }
        specialize (L a). rewrite E in L. cbn [length app] in L. lia.
      * exists ((c :: f) :: fs). reflexivity.
Qed.

Lemma lastSegment_slashFree (id : jsval) (segment : jsstring) :
  lastSegment id = Return segment -> slashFree segment = true.
Proof.
  destruct id; try discriminate. cbn [lastSegment]. intro H. inversion H.
  destruct (split_last_piece 47%N s) as (front & piece & E & F).
  rewrite E, last_last. exact F.
Qed.

Lemma lastSegment_of_path (host w : jsstring) :
  slashFree w = true -> lastSegment (VStr (host ++ SLASH :: w)) = Return w.
Proof.
  intro F. cbn [lastSegment]. unfold slashFree, SLASH in *.
  destruct (split_last_segment 47%N host w F) as [front E].
  rewrite E, last_last. reflexivity.
Qed.

(** The records behind the papers of an adapter that returned some. *)
Lemma adapter_items (W : World) (r : request) (field provider : jsstring)
    (toPaper : jsval -> outcome ResearchPaper) (t : trace)
    (papers : list ResearchPaper) (t' : trace) :
  (data <- axiosGet W r ;;
   results <- lift (get data field) ;;
   normalizeResults provider toPaper results) t = (Return papers, t') ->
  exists items, Forall2 (fun item p => toPaper item = Return p) items papers.
Proof.
  unfold bind at 1. unfold axiosGet.
  destruct (axios_get W t r) as [data|e]; [|discriminate].
  unfold bind, lift. destruct (get data field) as [results|e]; [|discriminate].
  apply normalizeResults_images.
Qed.

Lemma semanticScholarPaper_links (W : World) (paper : jsval) (p : ResearchPaper) :
  semanticScholarPaper W paper = Return p -> paperLink p = url p.
Proof.
  unfold semanticScholarPaper, obind. intro H. peel H.
  inversion H. reflexivity.
Qed.

Lemma openAlexPaper_url (W : World) (paper : jsval) (p : ResearchPaper) :
  openAlexPaper W paper = Return p ->
  openAlexUrl (url p)
  /\ forall host w,
       sourceValue paper (js "id") = VStr (host ++ SLASH :: w) ->
       slashFree w = true ->
       url p = VStr (js "https://openalex.org/" ++ w).
Proof.
  unfold openAlexPaper, sourceValue. intro H.
  destruct (get paper (js "display_name")) as [display_name|]; [|discriminate].
  cbn [obind] in H.
  destruct (get paper (js "id")) as [id|]; [|discriminate].
  cbn [obind] in H.
  destruct (truthy id) eqn:T.
  - destruct (lastSegment id) as [segment|] eqn:L; [|discriminate].
    cbn [obind] in H. unfold obind in H. peel H. inversion H. cbn [url].
    split.
    + right. exists segment. split; [reflexivity|].
      exact (lastSegment_slashFree _ _ L).
    + intros host w -> F. rewrite (lastSegment_of_path _ _ F) in L.
      inversion L. reflexivity.
  - cbn [obind] in H. unfold obind in H. peel H. inversion H. cbn [url].
    split; [left; reflexivity|].
    intros host w -> F. exfalso.
    destruct host; discriminate T.
Qed.

Lemma corePaper_links (W : World) (paper : jsval) (p : ResearchPaper) :
  corePaper W paper = Return p -> coreLinks W paper p.
Proof.
  unfold corePaper, coreLinks, sourceValue, obind. intro H. peel H.
  inversion H. cbn [url paperLink]. unfold or_else.
  destruct (truthy a0), (truthy a1); repeat split; try discriminate; reflexivity.
Qed.

(** X7.  Every paper the Semantic Scholar adapter emits has the same value
    in [paperLink] as in [url]. *)
Theorem semanticScholar_links :
  forall (W : World) (query : jsstring) (t : trace)
         (papers : list ResearchPaper) (t' : trace),
    fetchFromSemanticScholar W query t = (Return papers, t') ->
    Forall (fun p => paperLink p = url p) papers.
Proof.
  intros W query t papers t' H.
  apply adapter_items in H. destruct H as [items H].
  induction H as [|item p items papers Hp _ IH]; constructor.
  - exact (semanticScholarPaper_links W item p Hp).
  - exact IH.
Qed.

Lemma semanticScholar_links_witness :
  Forall (fun p => paperLink p = url p)
    [ {| title := VStr (js "Untitled");
         url := VStr (js "https://www.semanticscholar.org/paper/42");
         paperLink := VStr (js "https://www.semanticscholar.org/paper/42");
         abstract := VStr (js "No abstract available");
         citationCount := VNum (numberOfN 0);
         authors := VStr (js "Unknown authors") |} ].
Proof.
  apply (semanticScholar_links catalogueWorld (js "q") [] _
           [Request (semanticScholarRequest (js "q"))]).
  vm_compute. reflexivity.
Defined.

(** X8.  The papers the OpenAlex adapter emits correspond, one for one and
    in order, to the records the provider sent in answer to the adapter's
    request.  The [url] of each is empty or the OpenAlex site followed by
    one path segment, which holds no slash: of the identifier in the
    record, only what follows its last slash is kept.  An identifier that
    already is such a URL is passed on unchanged. *)
Theorem openAlex_urls :
  forall (W : World) (query : jsstring) (t : trace)
         (papers : list ResearchPaper) (t' : trace),
    fetchFromOpenAlex W query t = (Return papers, t') ->
    Forall2
      (fun item p =>
         openAlexUrl (url p)
         /\ forall host w,
              sourceValue item (js "id") = VStr (host ++ SLASH :: w) ->
              slashFree w = true ->
              url p = VStr (js "https://openalex.org/" ++ w))
      (recordsOf W t (openAlexRequest query) (js "results")) papers.
Proof.
  intros W query t papers t' H.
  apply adapter_records in H.
  exact (Forall2_impl _ _ _ _ (openAlexPaper_url W) H).
Qed.

Lemma openAlex_urls_witness :
  Forall2
    (fun item p =>
       openAlexUrl (url p)
       /\ forall host w,
            sourceValue item (js "id") = VStr (host ++ SLASH :: w) ->
            slashFree w = true ->
            url p = VStr (js "https://openalex.org/" ++ w))
    [sampleRecord]
      [ {| title := VStr (js "Untitled");
           url := VStr (js "https://openalex.org/W42");
           paperLink := VStr [];
           abstract := VStr (js "No abstract available");
           citationCount := VNum (numberOfN 0);
           authors := VStr (js "Unknown authors") |} ].
Proof.
  apply (openAlex_urls catalogueWorld (js "q") [] _
           [Request (openAlexRequest (js "q"))]).
  vm_compute. reflexivity.
Defined.

(** X9.  With a key configured, the papers the CORE adapter emits
    correspond, one for one and in order, to the records the provider sent
    in answer to the adapter's request; without a key there are none.  Of
    each paper, [url] is the DOI link when its record has a DOI,
    [paperLink] is the download URL when its record has one, and the two
    fields hold the same value unless the record has both. *)
Theorem core_links :
  forall (W : World) (query : jsstring) (t : trace)
         (papers : list ResearchPaper) (t' : trace),
    fetchFromCORE W query t = (Return papers, t') ->
    if coreConfigured W
    then Forall2 (coreLinks W)
           (recordsOf W t (coreRequest W query) (js "results")) papers
    else papers = [].
Proof.
  intros W query t papers t' H. unfold fetchFromCORE in H. unfold coreConfigured.
  destruct (jsstring_eqb (CORE_API_KEY W) [] || _); cbn [negb].
  - unfold bind, console, ret in H. inversion H. reflexivity.
  - apply adapter_records in H.
    exact (Forall2_impl _ _ _ _ (corePaper_links W) H).
Qed.

Lemma core_links_witness :
  Forall2 (coreLinks catalogueWorld) [sampleRecord]
      [ {| title := VStr (js "Untitled");
           url := VStr (js "https://doi.org/10.1000/42");
           paperLink := VStr (js "https://core.ac.uk/download/42.pdf");
           abstract := VStr (js "No abstract available");
           citationCount := VNum (numberOfN 0);
           authors := VStr (js "Unknown authors") |} ].
Proof.
  apply (core_links catalogueWorld (js "q") [] _
           [Request (coreRequest catalogueWorld (js "q"))]).
  vm_compute. reflexivity.
Defined.

(** *** One paper for each record, or none *)

Lemma mapOutcome_length {A B} (f : A -> outcome B) (xs : list A) (ys : list B) :
  mapOutcome f xs = Return ys -> length ys = length xs.
Proof.
  intro H. apply mapOutcome_images in H.
  induction H; cbn [length]; congruence.
Qed.

Lemma mapOutcome_poisoned {A B} (f : A -> outcome B) (xs : list A) (x : A) :
  In x xs -> (exists e, f x = Throw e) -> exists e, mapOutcome f xs = Throw e.
Proof.
  intros Hin [e He]. induction xs as [|y xs IH]; [contradiction|].
  cbn [mapOutcome]. unfold obind.
  destruct (f y) as [b|e'] eqn:Ey; [|exists e'; reflexivity].
  destruct Hin as [->|Hin]; [congruence|].
  destruct (IH Hin) as [e'' ->]. exists e''. reflexivity.
Qed.

Lemma normalizeResults_all_or_nothing (provider : jsstring)
    (toPaper : jsval -> outcome ResearchPaper) (items : list jsval) (t : trace) :
  (exists e, toPaper VNull = Throw e) ->
  (exists e, toPaper VUndefined = Throw e) ->
  allOrNothing items (fst (normalizeResults provider toPaper (VArr items) t)).
Proof.
  intros Hnull Hundef. unfold allOrNothing.
  destruct items as [|first more].
  - split; [reflexivity|]. intros [[]|[]].
  - cbn [normalizeResults]. unfold lift. cbn [fst]. split.
    + destruct (mapOutcome toPaper (first :: more)) eqn:E; [|exact I].
      exact (mapOutcome_length _ _ _ E).
    + intros [H|H].
      * exact (mapOutcome_poisoned toPaper _ _ H Hnull).
      * exact (mapOutcome_poisoned toPaper _ _ H Hundef).
Qed.

Lemma adapter_all_or_nothing (W : World) (r : request) (field provider : jsstring)
    (toPaper : jsval -> outcome ResearchPaper) (t : trace) (items : list jsval) :
  (exists e, toPaper VNull = Throw e) ->
  (exists e, toPaper VUndefined = Throw e) ->
  answers W t r field items ->
  allOrNothing items
    (fst ((data <- axiosGet W r ;;
           results <- lift (get data field) ;;
           normalizeResults provider toPaper results) t)).
Proof.
  intros Hnull Hundef (data & A & G).
  unfold bind at 1. unfold axiosGet. rewrite A.
  unfold bind, lift. rewrite G.
  apply normalizeResults_all_or_nothing; assumption.
Qed.

(** X10.  When a provider answers with a list of records, its adapter returns
    exactly one paper for each record, in the same number, or it throws and
    returns none: a record that is [null] or [undefined] makes the whole
    call throw, so that the papers of the well-formed records are lost with
    it. *)
Theorem adapters_all_or_nothing :
  forall (W : World) (query : jsstring) (t : trace) (items : list jsval),
    (answers W t (semanticScholarRequest query) (js "data") items ->
     allOrNothing items (fst (fetchFromSemanticScholar W query t)))
    /\ (answers W t (openAlexRequest query) (js "results") items ->
        allOrNothing items (fst (fetchFromOpenAlex W query t)))
    /\ (coreConfigured W = true ->
        answers W t (coreRequest W query) (js "results") items ->
        allOrNothing items (fst (fetchFromCORE W query t))).
Proof.
  intros W query t items. split; [|split].
  - apply adapter_all_or_nothing; eexists; reflexivity.
  - apply adapter_all_or_nothing; eexists; reflexivity.
  - intros C A. unfold fetchFromCORE. unfold coreConfigured in C.
    apply negb_true_iff in C. rewrite C.
    revert A. apply adapter_all_or_nothing; eexists; reflexivity.
Qed.

Lemma adapters_all_or_nothing_witness :
  allOrNothing [sampleRecord; VNull]
    (fst (fetchFromSemanticScholar poisonedWorld (js "q") [])).
Proof.
  apply (proj1 (adapters_all_or_nothing poisonedWorld (js "q") []
                  [sampleRecord; VNull])).
  eexists. split; reflexivity.
Defined.

(** ** More on [extractAndParseJson] *)

(** X11.  A text that parses at the first attempt is returned without a
    word on the console; every other run of [extractAndParseJson] on an
    input of the declared type starts its output with a warning. *)
Theorem extractAndParseJson_silent_on_success :
  (forall (s : jsstring) (v : jsval) (context : jsstring) (t : trace),
     s <> [] ->
     looksLikePlainText (stripFences s) = false ->
     JSON.parse (stripFences s) = Return v ->
     extractAndParseJson (VStr s) context t = (Return v, t))
  /\ (forall (rawString : maybeString) (context : jsstring) (t : trace),
        (exists s v,
           rawString = Str s /\ s <> []
           /\ looksLikePlainText (stripFences s) = false
           /\ JSON.parse (stripFences s) = Return v)
        \/ exists args more,
             snd (extractAndParseJson (valueOf rawString) context t)
             = t ++ Console WARN args :: more).
Proof.
  split.
  - intros s v context t Hs Hguard Hparse.
    destruct s as [|c r]; [contradiction|].
    unfold extractAndParseJson.
    cbn [truthy jsstring_eqb length Nat.eqb andb negb]. cbv zeta. rewrite Hguard.
    unfold parseWithRepair, tryCatch, lift. rewrite Hparse. reflexivity.
  - intros rawString context t.
    destruct rawString as [| |[|c r]];
      try (right; eexists; eexists; reflexivity).
    cbn [valueOf]. unfold extractAndParseJson.
    cbn [truthy jsstring_eqb length Nat.eqb andb negb]. cbv zeta.
    destruct (looksLikePlainText (stripFences (c :: r))) eqn:Hguard;
      [right; eexists; eexists; reflexivity|].
    destruct (JSON.parse (stripFences (c :: r))) as [v|e] eqn:Hparse.
    + left. exists (c :: r), v. repeat split; try assumption. discriminate.
    + right. unfold parseWithRepair, tryCatch, lift. rewrite Hparse.
      unfold bind at 1. unfold console at 1.
      destruct (jsstring_eqb (cleanedString (stripFences (c :: r)))
                  (stripFences (c :: r)));
        unfold bind, console, lift, ret;
        destruct (JSON.parse (cleanedString (stripFences (c :: r))));
        cbn [snd]; rewrite <- ?app_assoc; cbn [app];
        eexists; eexists; reflexivity.
Qed.

Lemma extractAndParseJson_silent_on_success_witness :
  extractAndParseJson (VStr (fenced (js "[1]"))) (js "stepByStep") []
  = (Return (VArr [VNum (numberOfN 1)]), []).
Proof.
  apply (proj1 extractAndParseJson_silent_on_success);
    [discriminate | reflexivity | reflexivity].
Defined.

(** *** Variants of the fence lines *)

Lemma whiteSpace_not_backtick (c : char) :
  isWhiteSpace c = true -> (BACKTICK =? c)%N = false.
Proof.
  intro H. destruct (N.eqb_spec BACKTICK c) as [<-|]; [discriminate H | reflexivity].
Qed.

Lemma includes_fence_whiteSpace (ws : jsstring) :
  forallb isWhiteSpace ws = true -> includes fence ws = false.
Proof.
  induction ws as [|c ws IH]; [reflexivity|].
  cbn [forallb]. intro H. apply andb_true_iff in H as [Hc Hws].
  change (includes fence (c :: ws))
    with (((BACKTICK =? c)%N && startsWith [BACKTICK; BACKTICK] ws)
          || includes fence ws).
  rewrite (whiteSpace_not_backtick _ Hc), (IH Hws). reflexivity.
Qed.

Lemma includes_fence_app_whiteSpace (u ws : jsstring) :
  includes fence u = false -> forallb isWhiteSpace ws = true ->
  includes fence (u ++ ws) = false.
Proof.
  intros Hu Hws. induction u as [|c u IH].
  - apply includes_fence_whiteSpace, Hws.
  - destruct (includes_cons_false _ _ _ Hu) as [Hs Hi].
    change ((c :: u) ++ ws) with (c :: (u ++ ws)).
    cbn [includes]. rewrite (IH Hi), orb_false_r.
    destruct ws as [|w ws']; [rewrite app_nil_r; exact Hs|].
    destruct (startsWith fence (c :: u ++ w :: ws')) eqn:S; [|reflexivity].
    change (c :: u ++ w :: ws') with ((c :: u) ++ w :: ws') in S.
    apply startsWith_app_sep in S; [congruence|].
    cbn [forallb] in Hws. apply andb_true_iff in Hws as [Hw _].
    apply whiteSpace_not_backtick in Hw. apply N.eqb_neq in Hw.
    intros [X|[X|[X|[]]]]; apply Hw; exact X.
Qed.

Lemma trimEnd_app_whiteSpace (a ws : jsstring) :
  forallb isWhiteSpace ws = true -> trimEnd (a ++ ws) = trimEnd a.
Proof.
  intro H. induction a as [|c a IH].
  - apply trimEnd_all, H.
  - change ((c :: a) ++ ws) with (c :: (a ++ ws)). cbn [trimEnd].
    change (c :: a ++ ws) with ((c :: a) ++ ws).
    rewrite forallb_app, H, andb_true_r, IH. reflexivity.
Qed.

(** The closing fence after a white-space character, with nothing or a
    line break behind it, goes together with the white space before it. *)
Lemma removeEndFence_closing_line (u : jsstring) (w : char) (rest : jsstring) :
  includes fence u = false ->
  isWhiteSpace w = true ->
  atLineEnd rest = true ->
  removeEndFence (u ++ w :: fence ++ rest) = trimEnd u ++ rest.
Proof.
  intros H Hw Hrest.
  assert (Here : forall a, forallb isWhiteSpace a = true ->
                           endFenceHere (a ++ w :: fence ++ rest) = Some rest).
  { intros a Ha. unfold endFenceHere. rewrite (dropWhile_app_all _ _ _ Ha).
    cbn [dropWhile]. rewrite Hw.
    change (dropWhile isWhiteSpace (fence ++ rest)) with (fence ++ rest).
    rewrite startsWith_app.
    change (skipn (length fence) (fence ++ rest)) with rest.
    rewrite Hrest. reflexivity. }
  induction u as [|c u IH].
  - cbn [app trimEnd]. specialize (Here [] eq_refl). cbn [app] in Here.
    cbn [removeEndFence]. rewrite Here. reflexivity.
  - destruct (includes_cons_false _ _ _ H) as [_ Hi].
    change ((c :: u) ++ w :: fence ++ rest) with (c :: (u ++ w :: fence ++ rest)).
    cbn [removeEndFence trimEnd].
    change (c :: u ++ w :: fence ++ rest) with ((c :: u) ++ w :: fence ++ rest).
    destruct (forallb isWhiteSpace (c :: u)) eqn:E.
    + rewrite (Here _ E). reflexivity.
    + unfold endFenceHere. rewrite (dropWhile_app_some _ _ _ E).
      destruct (startsWith fence (dropWhile isWhiteSpace (c :: u) ++ w :: fence ++ rest))
        eqn:S.
      * apply startsWith_app_sep in S.
        -- pose proof (includes_startsWith_false _ _
                         (includes_dropWhile_false isWhiteSpace _ _ H)) as S'.
           congruence.
        -- apply whiteSpace_not_backtick in Hw. apply N.eqb_neq in Hw.
           intros [X|[X|[X|[]]]]; apply Hw; exact X.
      * cbn [andb app]. rewrite (IH Hi). reflexivity.
Qed.

Lemma startsWithCI_app (p a b : jsstring) :
  startsWithCI p a = true -> startsWithCI p (a ++ b) = true.
Proof.
  revert a. induction p as [|x p IH]; intros a H; [destruct a; reflexivity|].
  destruct a as [|y a]; [discriminate|].
  cbn [startsWithCI app] in *. apply andb_true_iff in H as [H1 H2].
  rewrite H1, (IH _ H2). reflexivity.
Qed.

Lemma removeStartFence_opening (opening rest : jsstring) :
  length opening = length fenceJson ->
  startsWithCI fenceJson opening = true ->
  removeStartFence true (opening ++ rest) = dropWhile isWhiteSpace rest.
Proof.
  intros L S. pose proof (startsWithCI_app _ _ rest S) as S'.
  destruct opening as [|c opening]; [discriminate|].
  change ((c :: opening) ++ rest) with (c :: (opening ++ rest)) in *.
  cbn [removeStartFence]. rewrite S'. cbn [andb].
  change (c :: opening ++ rest) with ((c :: opening) ++ rest).
  rewrite <- L, skipn_app, skipn_all, Nat.sub_diag. reflexivity.
Qed.

Lemma trim_whiteSpace (s : jsstring) : forallb isWhiteSpace s = true -> trim s = [].
Proof.
  intro H. unfold trim, trimStart.
  rewrite <- (app_nil_r s), (dropWhile_app_all _ _ _ H). reflexivity.
Qed.

Lemma stripFences_variant (opening ws1 s ws2 : jsstring) (w : char) (ws3 : jsstring) :
  length opening = length fenceJson ->
  startsWithCI fenceJson opening = true ->
  forallb isWhiteSpace ws1 = true ->
  forallb isWhiteSpace ws2 = true ->
  isWhiteSpace w = true ->
  forallb isWhiteSpace ws3 = true ->
  atLineEnd ws3 = true ->
  includes fence s = false ->
  stripFences (opening ++ ws1 ++ s ++ ws2 ++ w :: fence ++ ws3) = trim s.
Proof.
  intros L S H1 H2 Hw H3 Hend Hs. unfold stripFences.
  rewrite (removeStartFence_opening _ _ L S), (dropWhile_app_all _ _ _ H1).
  destruct (forallb isWhiteSpace s) eqn:E.
  - rewrite (dropWhile_app_all _ _ _ E), (dropWhile_app_all _ _ _ H2).
    cbn [dropWhile]. rewrite Hw.
    change (dropWhile isWhiteSpace (fence ++ ws3)) with (fence ++ ws3).
    assert (R : removeEndFence (fence ++ ws3) = ws3).
    { change (fence ++ ws3) with (BACKTICK :: ([BACKTICK; BACKTICK] ++ ws3)).
      cbn [removeEndFence]. unfold endFenceHere.
      change (dropWhile isWhiteSpace (BACKTICK :: [BACKTICK; BACKTICK] ++ ws3))
        with (fence ++ ws3).
      rewrite startsWith_app.
      change (skipn (length fence) (fence ++ ws3)) with ws3.
      rewrite Hend. reflexivity. }
    rewrite R, (trim_whiteSpace _ H3), (trim_whiteSpace _ E). reflexivity.
  - rewrite (dropWhile_app_some _ _ _ E).
    rewrite (app_assoc (dropWhile isWhiteSpace s) ws2).
    rewrite removeEndFence_closing_line; try assumption.
    + rewrite (trimEnd_app_whiteSpace _ _ H2).
      unfold trim at 1.
      destruct (dropWhile isWhiteSpace s) as [|c r] eqn:D.
      { exfalso. clear -E D. induction s as [|x s IH]; [discriminate|].
        cbn [forallb dropWhile] in *. destruct (isWhiteSpace x); [auto|discriminate]. }
      pose proof (dropWhile_head _ _ _ _ D) as Hc.
      assert (T : trimEnd (c :: r) = c :: trimEnd r).
      { cbn [trimEnd forallb]. rewrite Hc. reflexivity. }
      rewrite T. unfold trimStart. cbn [app dropWhile]. rewrite Hc.
      change (c :: trimEnd r ++ ws3) with ((c :: trimEnd r) ++ ws3).
      rewrite (trimEnd_app_whiteSpace _ _ H3), <- T, trimEnd_idempotent.
      unfold trim, trimStart. rewrite D. reflexivity.
    + apply includes_fence_app_whiteSpace; [|exact H2].
      apply includes_dropWhile_false. exact Hs.
Qed.

(** X12.  The fence lines are recognised in more than one spelling.  Take a
    text without a run of three backticks and put before it the opening
    marker in any letter case followed by any white space, and after it
    white space, the closing marker, and nothing more or a line break and
    white space.  [extractAndParseJson] returns for the wrapped text what
    it returns for the text alone. *)
Theorem fence_variants :
  forall (opening ws1 s ws2 : jsstring) (w : char) (ws3 context : jsstring)
         (t : trace),
    length opening = length fenceJson ->
    startsWithCI fenceJson opening = true ->
    forallb isWhiteSpace ws1 = true ->
    forallb isWhiteSpace ws2 = true ->
    isWhiteSpace w = true ->
    forallb isWhiteSpace ws3 = true ->
    atLineEnd ws3 = true ->
    includes fence s = false ->
    fst (extractAndParseJson
           (VStr (opening ++ ws1 ++ s ++ ws2 ++ w :: fence ++ ws3)) context t)
    = fst (extractAndParseJson (VStr s) context t).
Proof.
  intros opening ws1 s ws2 w ws3 context t L S H1 H2 Hw H3 Hend Hs.
  destruct (extractAndParseJson_returns
              (VStr (opening ++ ws1 ++ s ++ ws2 ++ w :: fence ++ ws3)) context t eq_refl)
    as [e1 [E1 _]].
  destruct (extractAndParseJson_returns (VStr s) context t eq_refl) as [e2 [E2 _]].
  rewrite E1, E2. cbn [fst]. f_equal. unfold extracted.
  pose proof (stripFences_variant opening ws1 s ws2 w ws3 L S H1 H2 Hw H3 Hend Hs)
    as V.
  destruct opening as [|c opening]; [discriminate|].
  cbn [app] in V |- *. cbv zeta. rewrite V.
  destruct s as [|x s]; [vm_compute; reflexivity|].
  rewrite (stripFences_no_fence _ Hs). reflexivity.
Qed.

Lemma fence_variants_witness :
  fst (extractAndParseJson (VStr crlfFenced) [] [])
  = fst (extractAndParseJson (VStr (js "[1]")) [] []).
Proof.
  apply (fence_variants (js "```JSON") [13%N; LF] (js "[1]") [13%N] LF [LF] [] []);
    reflexivity.
Defined.

(** ** The controller *)

(** X13.  [createThesisRoadmap] always returns and sends exactly one
    response.  The response is 400, with nothing logged and no request
    made, when the body has no truthy [thesisDescription].  For a
    description that is a non-empty string the response follows the
    pipeline: 200 with the roadmap of that description when
    [generateThesisRoadmap] returns one, which it does whenever the text
    payloads of the generative service are strings, and 500 with the fixed
    message when it throws.  The 500 branch is also reached when the body
    itself is [null] or [undefined]. *)
Theorem createThesisRoadmap_responds :
  forall (W : World) (PG : PromptGenerator.Templates)
         (untyped : jsval -> M jsval) (body : jsval)
         (sent : list response) (t : trace),
    exists reply t',
      createThesisRoadmap W PG untyped body sent t = (Return (tt, sent ++ [reply]), t')
      /\ (isNullish body = true -> statusCode reply = 500%N)
      /\ (isNullish body = false -> truthy (descriptionOf body) = false ->
          reply = {| statusCode := 400;
                     payload := VObj [(js "message",
                                       VStr (js "Thesis description is required"))] |}
          /\ t' = t)
      /\ (forall topic,
            descriptionOf body = VStr topic -> topic <> [] ->
            match fst (generateThesisRoadmap W PG topic t) with
            | Return roadmap =>
                reply = {| statusCode := 200;
                           payload := VObj [(js "roadmap", roadmapObject roadmap)] |}
                /\ thesisDescription roadmap = topic
            | Throw _ =>
                reply = {| statusCode := 500;
                           payload := VObj [(js "message",
                                             VStr (js "Failed to generate thesis roadmap"))] |}
            end
            /\ (textsAreStrings W -> statusCode reply = 200%N)).
Proof.
  intros W PG untyped body sent t.
  unfold createThesisRoadmap, tryCatch, descriptionOf, sourceValue.
  unfold bind at 1. unfold lift at 1.
  destruct (get body (js "thesisDescription")) as [description|e] eqn:G.
  - assert (Hbody : isNullish body = false) by (destruct body; try reflexivity; discriminate).
    destruct (truthy description) eqn:T; cbn [negb].
    + destruct description as [| | | |topic| |]; try discriminate T;
        (* not a string: the untyped pipeline answers or throws *)
        try (unfold bind;
             match goal with
             | |- context [untyped ?v t] =>
                 destruct (untyped v t) as [[roadmap|e] t1]
             end;
             eexists; eexists; (split; [reflexivity|]);
             (split; [rewrite Hbody; discriminate|]);
             (split; [discriminate|]); intros topic X; discriminate).
      (* a string *)
      unfold bind.
      destruct (generateThesisRoadmap W PG topic t) as [[roadmap|e] t1] eqn:E.
      * unfold ret, respond.
        eexists. eexists. split; [reflexivity|].
        split; [rewrite Hbody; discriminate|].
        split; [discriminate|].
        intros topic' X Hne. inversion X. subst topic'. rewrite E. cbn [fst].
        split; [|reflexivity].
        split; [reflexivity|]. exact (generateThesisRoadmap_topic _ _ _ _ _ _ E).
      * unfold console, respond, ret.
        eexists. eexists. split; [reflexivity|].
        split; [rewrite Hbody; discriminate|].
        split; [discriminate|].
        intros topic' X Hne. inversion X. subst topic'. rewrite E. cbn [fst].
        split; [reflexivity|].
        intro S. exfalso.
        destruct (generateThesisRoadmap_returns W PG topic t S) as (? & ? & R & _).
        rewrite R in E. discriminate.
    + unfold respond, ret.
      eexists. eexists. split; [reflexivity|].
      split; [rewrite Hbody; discriminate|].
      split; [intros _ _; split; reflexivity|].
      intros topic X Hne. subst description. exfalso.
      destruct topic; [contradiction | discriminate T].
  - assert (Hbody : isNullish body = true) by (destruct body; try reflexivity; discriminate).
    unfold bind, console, respond, ret.
    eexists. eexists. split; [reflexivity|].
    split; [reflexivity|].
    split; [rewrite Hbody; discriminate|].
    intros topic X. discriminate.
Qed.

Lemma createThesisRoadmap_responds_witness :
  (exists reply t',
     createThesisRoadmap offlineWorld plainTemplates unreached
       (VObj [(js "thesisDescription", VStr (js "remote work"))]) [] []
     = (Return (tt, [reply]), t')
     /\ statusCode reply = 200%N)
  /\ (exists reply t',
        createThesisRoadmap numericPayloadWorld plainTemplates unreached
          (VObj [(js "thesisDescription", VStr (js "remote work"))]) [] []
        = (Return (tt, [reply]), t')
        /\ statusCode reply = 500%N).
Proof.
  split.
  - destruct (createThesisRoadmap_responds offlineWorld plainTemplates unreached
                (VObj [(js "thesisDescription", VStr (js "remote work"))]) [] [])
      as (reply & t' & E & _ & _ & H).
    exists reply, t'. split; [exact E|].
    apply (H (js "remote work")); [reflexivity | discriminate |].
    intros t r data X. inversion X. reflexivity.
  - destruct (createThesisRoadmap_responds numericPayloadWorld plainTemplates unreached
                (VObj [(js "thesisDescription", VStr (js "remote work"))]) [] [])
      as (reply & t' & E & _ & _ & H).
    exists reply, t'. split; [exact E|].
    destruct (H (js "remote work") eq_refl) as [X _]; [discriminate|].
    assert (F : fst (generateThesisRoadmap numericPayloadWorld plainTemplates
                       (js "remote work") []) = Throw notAFunction)
      by (vm_compute; reflexivity).
    rewrite F in X. rewrite X. reflexivity.
Defined.

(** ** Failures that the result does not report *)

Lemma callGemini_answered (W : World) (prompt context text : jsstring) (t : trace) :
  (forall t0, axios_post W t0 (geminiRequest W prompt) = Return (answering text)) ->
  text <> [] ->
  fst (callGemini W prompt context t) = Return (VStr text).
Proof.
  intros A Htext. unfold callGemini, bind, tryCatch, axiosPost, console.
  rewrite A. destruct text as [|c r]; [contradiction|].
  cbn [checkEnvelope answering carrying truthyString blockReasonOf
       Gemini.promptFeedback Gemini.candidates Gemini.finishReason textOf
       Gemini.content Gemini.parts Gemini.text truthy jsstring_eqb length Nat.eqb
       andb negb].
  change (jsstring_eqb (js "STOP") (js "STOP")) with true.
  unfold bind, ret. reflexivity.
Qed.

Lemma callGemini_unanswered (W : World) (prompt context : jsstring) (t : trace) :
  (forall t0, exists e, axios_post W t0 (geminiRequest W prompt) = Throw e) ->
  fst (callGemini W prompt context t) = Throw (gatewayError context).
Proof.
  intro A. unfold callGemini, bind, tryCatch, axiosPost, console.
  destruct (A (t ++ [Console LOG [Text (js "Calling Gemini API for: "); Text context]]))
    as [e ->].
  reflexivity.
Qed.

Lemma truthy_extracted_text (text : jsstring) :
  truthy (extracted (VStr text)) = true -> text <> [].
Proof. intros H ->. discriminate H. Qed.

(** X14.  A failure of the ranking, gap-analysis or pros-and-cons stage does
    not show in the [error] field.  In a world where the generative service
    answers the step-plan and the methodology request with texts that parse
    to truthy values and fails every request of the other three stages, the
    result has no [error] at all: [relatedPapers], [researchGapAnalysis] and
    [prosAndCons] hold the stages' error markers, and a caller that looks
    at [error] alone takes the run for a complete success. *)
Theorem guarded_failures_leave_no_error :
  forall (W : World) (PG : PromptGenerator.Templates) (topic planText methodText : jsstring),
    (forall t0, axios_post W t0 (stepPlanRequest W PG topic) = Return (answering planText)) ->
    (forall t0, axios_post W t0 (methodologyRequest W PG topic)
                = Return (answering methodText)) ->
    (forall t0 papers,
       exists e, axios_post W t0 (rankingRequest W PG topic papers) = Throw e) ->
    (forall t0 papers,
       exists e, axios_post W t0 (gapRequest W PG topic papers) = Throw e) ->
    (forall t0 papers,
       exists e, axios_post W t0 (prosConsRequest W PG topic papers) = Throw e) ->
    truthy (extracted (VStr planText)) = true ->
    truthy (extracted (VStr methodText)) = true ->
    forall t,
      exists roadmap t',
        generateThesisRoadmap W PG topic t = (Return roadmap, t')
        /\ error roadmap = None
        /\ stepByStep roadmap = extracted (VStr planText)
        /\ methodology roadmap = extracted (VStr methodText)
        /\ relatedPapers roadmap
           = VArr [errorMarker (js "Failed to prepare data for research ranking.")]
        /\ researchGapAnalysis roadmap
           = errorMarker (js "Failed to prepare data for research gap analysis.")
        /\ prosAndCons roadmap
           = errorMarker (js "Failed to prepare data for pros and cons analysis.").
Proof.
  intros W PG topic planText methodText A1 A4 A3 A5 A6 T1 T4 t.
  pose proof (truthy_extracted_text _ T1) as N1.
  pose proof (truthy_extracted_text _ T4) as N4.
  unfold generateThesisRoadmap.
  destruct (tryBlock W PG topic Locals.initial t) as [[[roadmap|e] vars] t'] eqn:E.
  - exists roadmap, t'. split; [reflexivity|].
    apply tryBlock_stages in E.
    destruct E as (stepPlan & t1 & papers & t2 & ranking & t3 & method & t4 & gaps
                   & t5 & pros & t6 & E1 & E2 & E3 & E4 & E5 & E6 & _ & _
                   & F1 & F2 & F3 & F4 & F5 & Herr).
    pose proof (callGemini_answered W _ (js "step-by-step guide") planText t A1 N1) as G1.
    rewrite E1 in G1. injection G1 as ->.
    pose proof (callGemini_answered W _ (js "methodology") methodText t3 A4 N4) as G4.
    rewrite E4 in G4. injection G4 as ->.
    destruct (rank_returns W PG topic papers t2) as [s3 R3].
    rewrite (callGemini_unanswered W _ _ t2 (fun t0 => A3 t0 papers)) in R3.
    rewrite E3 in R3. injection R3 as -> _.
    destruct (gap_returns W PG topic papers t4) as [s5 R5].
    rewrite (callGemini_unanswered W _ _ t4 (fun t0 => A5 t0 papers)) in R5.
    rewrite E5 in R5. injection R5 as -> _.
    destruct (prosCons_returns W PG topic papers t5) as [s6 R6].
    rewrite (callGemini_unanswered W _ _ t5 (fun t0 => A6 t0 papers)) in R6.
    rewrite E6 in R6. injection R6 as -> _.
    assert (M2 : extracted (VStr (rankingFailed W))
                 = VArr [errorMarker (js "Failed to prepare data for research ranking.")])
      by (vm_compute; reflexivity).
    assert (M3 : extracted (VStr (gapAnalysisFailed W))
                 = errorMarker (js "Failed to prepare data for research gap analysis."))
      by (vm_compute; reflexivity).
    assert (M5 : extracted (VStr (prosConsFailed W))
                 = errorMarker (js "Failed to prepare data for pros and cons analysis."))
      by (vm_compute; reflexivity).
    rewrite M2 in F2. rewrite M3 in F4. rewrite M5 in F5.
    split; [|repeat split; assumption].
    rewrite Herr. unfold sections. cbn [forallb fst].
    rewrite F1, F2, F3, F4, F5, T1, T4. reflexivity.
  - exfalso. apply tryBlock_Throw in E.
    destruct E as [(_ & _ & E1)
                  | [(_ & stepPlan & t1 & papers & t2 & ranking & t3 & _ & _ & _ & E4 & _)
                    | (_ & stepPlan & t1 & papers & t2 & ranking & t3 & method & t4
                       & gaps & t5 & pros & t6 & E1 & _ & E3 & E4 & E5 & E6 & -> & F & _)]].
    + pose proof (callGemini_answered W _ (js "step-by-step guide") planText t A1 N1) as G.
      rewrite E1 in G. discriminate.
    + pose proof (callGemini_answered W _ (js "methodology") methodText t3 A4 N4) as G.
      rewrite E4 in G. discriminate.
    + pose proof (callGemini_answered W _ (js "step-by-step guide") planText t A1 N1)
        as G1.
      rewrite E1 in G1. injection G1 as ->.
      pose proof (callGemini_answered W _ (js "methodology") methodText t3 A4 N4) as G4.
      rewrite E4 in G4. injection G4 as ->.
      destruct (rank_returns W PG topic papers t2) as [s3 R3].
      rewrite (callGemini_unanswered W _ _ t2 (fun t0 => A3 t0 papers)) in R3.
      rewrite E3 in R3. injection R3 as -> _.
      destruct (gap_returns W PG topic papers t4) as [s5 R5].
      rewrite (callGemini_unanswered W _ _ t4 (fun t0 => A5 t0 papers)) in R5.
      rewrite E5 in R5. injection R5 as -> _.
      destruct (prosCons_returns W PG topic papers t5) as [s6 R6].
      rewrite (callGemini_unanswered W _ _ t5 (fun t0 => A6 t0 papers)) in R6.
      rewrite E6 in R6. injection R6 as -> _.
      unfold rawTextsAreStrings, capturedByAllStages in F.
      cbn [Locals.stepByStepRaw Locals.rankedPapersRaw Locals.methodologyRaw
           Locals.researchGapAnalysisRaw Locals.prosAndConsRaw stringOrFalsy andb] in F.
      discriminate F.
Qed.

Lemma guarded_failures_leave_no_error_witness :
  exists roadmap t',
    generateThesisRoadmap twoStagesWorld labelledTemplates (js "remote work") []
    = (Return roadmap, t')
    /\ error roadmap = None
    /\ prosAndCons roadmap
       = errorMarker (js "Failed to prepare data for pros and cons analysis.").
Proof.
  destruct (guarded_failures_leave_no_error twoStagesWorld labelledTemplates
              (js "remote work") (js "[1]") (js "[1]"))
    with (t := @nil event) as (roadmap & t' & E & Herr & _ & _ & _ & _ & P).
  - intro t0. reflexivity.
  - intro t0. reflexivity.
  - intros t0 papers. eexists. reflexivity.
  - intros t0 papers. eexists. reflexivity.
  - intros t0 papers. eexists. reflexivity.
  - reflexivity.
  - reflexivity.
  - exists roadmap, t'. repeat split; assumption.
Defined.

(* ================================================================== *)
(** * Properties of the authentication handlers *)
(* ================================================================== *)

Module AuthFacts.

Import Auth AuthSpec.

Local Open Scope auth_scope.

Lemma since_app (s s' : state) (new : list event) :
  events s' = events s ++ new -> since s s' = new.
Proof.
  intro E. unfold since. rewrite E, skipn_app, skipn_all, Nat.sub_diag. reflexivity.
Qed.

Lemma get_field (body : jsval) (name : jsstring) :
  isNullish body = false -> get body name = Return (fieldOf body name).
Proof.
  intro H. unfold fieldOf. destruct body; try discriminate H; reflexivity.
Qed.

Lemma get_nullish (body : jsval) (name : jsstring) :
  isNullish body = true -> get body name = Throw readOfNullish.
Proof. intro H. destruct body; try discriminate H; reflexivity. Qed.

Ltac run_handler :=
  unfold loginUser, registerUser, authenticateUser, logoutUser, save, preSave,
         comparePassword, generateToken, findOne, json, tryCatch, bind, emit,
         lift, ask, ret, throw;
  cbn [events headersSent fst snd].

Ltac added :=
  cbn [events headersSent fst snd]; rewrite <- ?app_assoc; cbn [app];
  apply since_app; cbn [events]; rewrite <- ?app_assoc; reflexivity.

(** X15.  [loginUser] answers an unknown address and a wrong password alike:
    in both cases the client receives the one response 400 with the message
    [Invalid credentials.], and no cookie. *)
Theorem login_rejections_alike :
  forall (W W' : World) (body : jsval) (known : User) (s s' : state),
    isNullish body = false ->
    headersSent s = false ->
    headersSent s' = false ->
    (forall h, User_findOne W h (fieldOf body (js "email")) = Return None) ->
    (forall h, User_findOne W' h (fieldOf body (js "email")) = Return (Some known)) ->
    (forall h, bcrypt_compare W' h (fieldOf body (js "password")) (storedPassword known)
               = Return false) ->
    fst (loginUser W body s) = Return tt
    /\ fst (loginUser W' body s') = Return tt
    /\ clientSees (since s (snd (loginUser W body s)))
       = [Json 400 (js "Invalid credentials.") None]
    /\ clientSees (since s' (snd (loginUser W' body s')))
       = [Json 400 (js "Invalid credentials.") None].
Proof.
  intros W W' body known s s' Hbody Hs Hs' Hnone Hsome Hwrong.
  run_handler.
  rewrite !(get_field body _ Hbody). cbn [fst snd events headersSent].
  rewrite Hnone, Hsome. cbn [fst snd events headersSent].
  rewrite Hwrong. cbn [negb fst snd events headersSent].
  rewrite Hs, Hs'. cbn [fst snd events].
  split; [reflexivity|]. split; [reflexivity|]. split.
  - erewrite since_app; [|cbn [events]; rewrite <- !app_assoc; reflexivity].
    reflexivity.
  - erewrite since_app; [|cbn [events]; rewrite <- !app_assoc; reflexivity].
    reflexivity.
Qed.

Lemma login_rejections_alike_witness :
  clientSees (since fresh (snd (loginUser (libraries None false) credentials fresh)))
  = clientSees
      (since fresh (snd (loginUser (libraries (Some sampleUser) false) credentials fresh))).
Proof.
  destruct (login_rejections_alike (libraries None false)
              (libraries (Some sampleUser) false) credentials sampleUser fresh fresh
              eq_refl eq_refl eq_refl (fun _ => eq_refl) (fun _ => eq_refl)
              (fun _ => eq_refl))
    as (_ & _ & A & B).
  rewrite A, B. reflexivity.
Defined.

Ltac oracle_cases :=
  repeat match goal with
         | |- context [User_findOne ?W ?h ?x] =>
             let F := fresh "F" in
             destruct (User_findOne W h x) as [[?known|]|?e] eqn:F;
             cbn [negb fst snd events headersSent]
         | |- context [bcrypt_compare ?W ?h ?x ?y] =>
             let C := fresh "C" in
             destruct (bcrypt_compare W h x y) as [[|]|?e] eqn:C;
             cbn [negb fst snd events headersSent]
         | |- context [jwt_sign ?W ?h ?x ?y] =>
             let J := fresh "J" in
             destruct (jwt_sign W h x y) as [?token|?e] eqn:J;
             cbn [negb fst snd events headersSent]
         end.

Ltac since_here :=
  erewrite since_app; [|cbn [events]; rewrite <- ?app_assoc; reflexivity].

Ltac since_in H :=
  erewrite since_app in H; [|cbn [events]; rewrite <- ?app_assoc; reflexivity].

Ltac not_among H :=
  cbn [In app] in H;
  repeat (destruct H as [H|H]; [discriminate H|]); try contradiction.

(** X16.  [loginUser] sets the session cookie only after the address was
    found, bcrypt confirmed the password and jsonwebtoken signed the id of
    that user: the cookie is named [token], carries that token with the
    options [httpOnly], [sameSite: strict] and a life of one hour ([secure]
    in production), and is followed by the one response 200. *)
Theorem login_cookie_needs_match :
  forall (W : World) (body : jsval) (s : state) (name value : jsstring)
         (options : CookieOptions),
    headersSent s = false ->
    In (Cookie name value options) (since s (snd (loginUser W body s))) ->
    (exists known h1 h2 h3,
       User_findOne W h1 (fieldOf body (js "email")) = Return (Some known)
       /\ bcrypt_compare W h2 (fieldOf body (js "password")) (storedPassword known)
          = Return true
       /\ jwt_sign W h3 (id known) (env_JWT_SECRET W) = Return value)
    /\ name = js "token"
    /\ options = cookieOptions W
    /\ httpOnly options = true
    /\ sameSite options = js "strict"
    /\ maxAge options = 3600000%N
    /\ clientSees (since s (snd (loginUser W body s)))
       = [Cookie (js "token") value (cookieOptions W);
          Json 200 (js "Login successful") None].
Proof.
  intros W body s name value options Hs H. revert H. run_handler.
  destruct (isNullish body) eqn:Hbody.
  - rewrite (get_nullish body _ Hbody). cbn [fst snd events headersSent].
    rewrite Hs. intro H. since_in H. not_among H.
  - rewrite !(get_field body _ Hbody). cbn [fst snd events headersSent].
    oracle_cases; rewrite ?Hs; cbn [fst snd events headersSent];
      intro H; since_in H; try (not_among H; fail).
    cbn [In app] in H.
    repeat (destruct H as [H|H]; [try discriminate H|]); try contradiction.
    injection H as <- <- <-.
    split.
    { exists known. do 3 eexists. repeat split; eassumption. }
    repeat (split; [reflexivity|]).
    since_here. reflexivity.
Qed.

Lemma login_cookie_needs_match_witness :
  clientSees (since fresh (snd (loginUser (libraries (Some sampleUser) true)
                                  credentials fresh)))
  = [Cookie (js "token") (js "token-1")
       {| httpOnly := true; secure := true; sameSite := js "strict";
          maxAge := 3600000 |};
     Json 200 (js "Login successful") None].
Proof.
  apply (login_cookie_needs_match (libraries (Some sampleUser) true) credentials fresh
           (js "token") (js "token-1")
           {| httpOnly := true; secure := true; sameSite := js "strict";
              maxAge := 3600000 |} eq_refl).
  vm_compute. auto 10.
Defined.

(** X17.  [loginUser] never throws and answers every request exactly once,
    with status 200, 400 or 500; the response with 500 is the one that
    carries a caught error (the body could not be read, or a library call
    threw), the others carry none. *)
Theorem login_answers_once :
  forall (W : World) (body : jsval) (s : state),
    headersSent s = false ->
    fst (loginUser W body s) = Return tt
    /\ headersSent (snd (loginUser W body s)) = true
    /\ exists status message caught,
         filter (fun e => match e with Json _ _ _ => true | _ => false end)
           (since s (snd (loginUser W body s)))
         = [Json status message caught]
         /\ (status = 200%N \/ status = 400%N \/ status = 500%N)
         /\ (status = 500%N <-> caught <> None).
Proof.
  intros W body s Hs. run_handler.
  destruct (isNullish body) eqn:Hbody.
  - rewrite (get_nullish body _ Hbody). cbn [fst snd events headersSent].
    rewrite Hs. cbn [fst snd events headersSent].
    split; [reflexivity|]. split; [reflexivity|].
    eexists. eexists. eexists. split; [since_here; reflexivity|].
    split; [auto|]. split; [discriminate | reflexivity].
  - rewrite !(get_field body _ Hbody). cbn [fst snd events headersSent].
    oracle_cases; rewrite ?Hs; cbn [fst snd events headersSent];
      (split; [reflexivity|]); (split; [reflexivity|]);
      eexists; eexists; eexists; (split; [since_here; reflexivity|]);
      (split; [auto|]);
      (split; [try discriminate; try reflexivity
              | try (intro X; exfalso; apply X; reflexivity); try reflexivity]).
Qed.

Lemma login_answers_once_witness :
  fst (loginUser (libraries None false) VNull fresh) = Return tt.
Proof.
  apply (login_answers_once (libraries None false) VNull fresh). reflexivity.
Defined.

(** X18.  Every login attempt writes the request body, password included, to
    the console before anything else; and when the address is on file, the
    submitted password and the stored hash are written side by side. *)
Theorem login_logs_credentials :
  forall (W : World) (body : jsval) (s : state),
    exists more,
      since s (snd (loginUser W body s))
      = Log [Text (js "Login attempt:"); Value body] :: more
      /\ forall known,
           isNullish body = false ->
           User_findOne W
             (events s ++ [Log [Text (js "Login attempt:"); Value body];
                           FindOne (fieldOf body (js "email"))])
             (fieldOf body (js "email")) = Return (Some known) ->
           In (Log [Text (js "Comparing:"); Value (fieldOf body (js "password"));
                    Value (storedPassword known)]) more.
Proof.
  intros W body s. run_handler.
  destruct (isNullish body) eqn:Hbody.
  - rewrite (get_nullish body _ Hbody). cbn [fst snd events headersSent].
    destruct (headersSent s); cbn [fst snd events headersSent];
      try destruct (json_again W); cbn [fst snd events headersSent];
      eexists; (split; [since_here; reflexivity|]); intros known X; discriminate X.
  - rewrite !(get_field body _ Hbody). cbn [fst snd events headersSent].
    rewrite <- !app_assoc. cbn [app].
    oracle_cases; destruct (headersSent s); cbn [fst snd events headersSent];
      try destruct (json_again W); cbn [fst snd events headersSent];
      eexists; (split; [since_here; reflexivity|]); intros known' _ X;
      try discriminate X; injection X as <-; cbn [In app]; auto 8.
Qed.

(** X19.  [registerUser] goes on after it has answered.  With a field
    missing it answers 400 and still queries the database for the address.
    With all fields given and the address on file it answers 400 and then,
    validation and hashing succeeding, hands the new user with the hashed
    password to the database all the same, so that only the database
    itself can refuse the duplicate; the client sees the 400 alone. *)
Theorem register_goes_on_after_answering :
  forall (W : World) (body : jsval) (s : state),
    isNullish body = false ->
    headersSent s = false ->
    (allFieldsGiven body = false ->
     exists more,
       since s (snd (registerUser W body s))
       = Json 400 (js "All fields are required.") None
           :: FindOne (fieldOf body (js "email")) :: more)
    /\ (forall known salt hash,
          allFieldsGiven body = true ->
          (forall h, User_findOne W h (fieldOf body (js "email")) = Return (Some known)) ->
          (forall h, validate W h (submitted body) = Return tt) ->
          isModified_password W (submitted body) = true ->
          (forall h, bcrypt_genSalt W h 10 = Return salt) ->
          (forall h, bcrypt_hash W h (fieldOf body (js "password")) salt = Return hash) ->
          exists more,
            since s (snd (registerUser W body s))
            = FindOne (fieldOf body (js "email"))
                :: Json 400 (js "User already exists.") None
                :: Insert {| username := fieldOf body (js "username");
                             email := fieldOf body (js "email");
                             password := VStr hash |}
                :: more
            /\ clientSees (since s (snd (registerUser W body s)))
               = [Json 400 (js "User already exists.") None]).
Proof.
  intros W body s Hbody Hs. split.
  - intro Hmissing. run_handler.
    rewrite !(get_field body _ Hbody). cbn [fst snd events headersSent].
    unfold allFieldsGiven in Hmissing.
    assert (C : negb (truthy (fieldOf body (js "username")))
                || negb (truthy (fieldOf body (js "email")))
                || negb (truthy (fieldOf body (js "password"))) = true).
    { destruct (truthy (fieldOf body (js "username"))),
               (truthy (fieldOf body (js "email"))),
               (truthy (fieldOf body (js "password"))); try discriminate; reflexivity. }
    rewrite C, Hs. cbn [fst snd events headersSent].
    rewrite <- !app_assoc. cbn [app].
    match goal with
    | |- context [User_findOne W ?h ?x] =>
        destruct (User_findOne W h x) as [[known|]|e]
    end; cbn [fst snd events headersSent].
    + destruct (json_again W); cbn [fst snd events headersSent].
      * match goal with
        | |- context [validate W ?h ?x] => destruct (validate W h x)
        end; cbn [fst snd events headersSent].
        -- destruct (isModified_password W _); cbn [negb fst snd events headersSent].
           ++ repeat match goal with
                     | |- context [bcrypt_genSalt W ?h ?x] =>
                         destruct (bcrypt_genSalt W h x);
                         cbn [fst snd events headersSent]
                     | |- context [bcrypt_hash W ?h ?x ?y] =>
                         destruct (bcrypt_hash W h x y);
                         cbn [fst snd events headersSent]
                     | |- context [insertOne W ?h ?x] =>
                         destruct (insertOne W h x);
                         cbn [fst snd events headersSent]
                     end;
                eexists; since_here; reflexivity.
           ++ repeat match goal with
                     | |- context [insertOne W ?h ?x] =>
                         destruct (insertOne W h x);
                         cbn [fst snd events headersSent]
                     end;
                eexists; since_here; reflexivity.
        -- eexists; since_here; reflexivity.
      * eexists; since_here; reflexivity.
    + match goal with
      | |- context [validate W ?h ?x] => destruct (validate W h x)
      end; cbn [fst snd events headersSent].
      * destruct (isModified_password W _); cbn [negb fst snd events headersSent];
          repeat match goal with
                 | |- context [bcrypt_genSalt W ?h ?x] =>
                     destruct (bcrypt_genSalt W h x);
                     cbn [fst snd events headersSent]
                 | |- context [bcrypt_hash W ?h ?x ?y] =>
                     destruct (bcrypt_hash W h x y);
                     cbn [fst snd events headersSent]
                 | |- context [insertOne W ?h ?x] =>
                     destruct (insertOne W h x);
                     cbn [fst snd events headersSent]
                 end;
          try destruct (json_again W); cbn [fst snd events headersSent];
          eexists; since_here; reflexivity.
      * eexists; since_here; reflexivity.
    + eexists; since_here; reflexivity.
  - intros known salt hash Hall Hfound Hvalid Hmod Hsalt Hhash. run_handler.
    rewrite !(get_field body _ Hbody). cbn [fst snd events headersSent].
    unfold allFieldsGiven in Hall.
    apply andb_true_iff in Hall as [Hall H3]. apply andb_true_iff in Hall as [H1 H2].
    rewrite H1, H2, H3. cbn [negb orb fst snd events headersSent].
    rewrite Hfound. cbn [fst snd events headersSent].
    rewrite Hs. cbn [fst snd events headersSent].
    change {| username := fieldOf body (js "username");
              email := fieldOf body (js "email");
              password := fieldOf body (js "password") |} with (submitted body).
    rewrite Hvalid. cbn [fst snd events headersSent].
    rewrite Hmod. cbn [negb fst snd events headersSent].
    rewrite Hsalt. cbn [fst snd events headersSent].
    cbn [password submitted].
    rewrite Hhash. cbn [fst snd events headersSent username email submitted].
    match goal with
    | |- context [insertOne W ?h ?x] => destruct (insertOne W h x)
    end; cbn [fst snd events headersSent];
      try destruct (json_again W); cbn [fst snd events headersSent];
      eexists; (split; [since_here; reflexivity|]); since_here; reflexivity.
Qed.

Lemma register_goes_on_after_answering_witness :
  exists more,
    since fresh (snd (registerUser (libraries (Some sampleUser) false) credentials fresh))
    = FindOne (VStr (js "ada@example.org"))
        :: Json 400 (js "User already exists.") None
        :: Insert {| username := VStr (js "ada");
                     email := VStr (js "ada@example.org");
                     password := VStr (js "$2b$10$new") |}
        :: more.
Proof.
  destruct (proj2 (register_goes_on_after_answering
                     (libraries (Some sampleUser) false) credentials fresh
                     eq_refl eq_refl)
              sampleUser (js "salt") (js "$2b$10$new") eq_refl
              (fun _ => eq_refl) (fun _ => eq_refl) eq_refl
              (fun _ => eq_refl) (fun _ => eq_refl)) as [more [E _]].
  exists more. exact E.
Defined.

Ltac no_such H :=
  first [ since_in H; not_among H
        | unfold since in H; rewrite skipn_all in H; contradiction ].

Ltac all_cases :=
  repeat match goal with
         | Hsent : headersSent ?s = _ |- context [headersSent ?s] =>
             rewrite Hsent; cbn [negb fst snd events headersSent]
         | |- context [User_findOne ?W ?h ?x] =>
             let F := fresh "F" in
             destruct (User_findOne W h x) as [[?known|]|?e] eqn:F;
             cbn [negb fst snd events headersSent]
         | |- context [validate ?W ?h ?x] =>
             let V := fresh "V" in
             destruct (validate W h x) as [[]|?e] eqn:V;
             cbn [negb fst snd events headersSent]
         | |- context [bcrypt_genSalt ?W ?h ?x] =>
             let G := fresh "G" in
             destruct (bcrypt_genSalt W h x) as [?salt|?e] eqn:G;
             cbn [negb fst snd events headersSent]
         | |- context [bcrypt_hash ?W ?h ?x ?y] =>
             let B := fresh "B" in
             destruct (bcrypt_hash W h x y) as [?hash|?e] eqn:B;
             cbn [negb fst snd events headersSent]
         | |- context [insertOne ?W ?h ?x] =>
             let I := fresh "I" in
             destruct (insertOne W h x) as [[]|?e] eqn:I;
             cbn [negb fst snd events headersSent]
         | |- context [jwt_verify ?W ?h ?x ?y] =>
             let J := fresh "J" in
             destruct (jwt_verify W h x y) as [?decoded|?e] eqn:J;
             cbn [negb fst snd events headersSent]
         | |- context [json_again ?W] =>
             let A := fresh "A" in
             destruct (json_again W) as [[]|?e] eqn:A;
             cbn [negb fst snd events headersSent]
         | |- context [isModified_password ?W ?d] =>
             let D := fresh "D" in
             destruct (isModified_password W d) eqn:D;
             cbn [negb fst snd events headersSent]
         end.

(** X20.  When [registerUser] answers 201, every field was given, the
    address was not on file, and the new user has been inserted; the 201 is
    the only thing the client receives, and the handler returns without
    calling [next]. *)
Theorem register_created :
  forall (W : World) (body : jsval) (s : state) (message : jsstring)
         (caught : option exn),
    headersSent s = false ->
    In (Json 201 message caught) (since s (snd (registerUser W body s))) ->
    allFieldsGiven body = true
    /\ (exists h, User_findOne W h (fieldOf body (js "email")) = Return None)
    /\ (exists doc h,
          In (Insert doc) (since s (snd (registerUser W body s)))
          /\ insertOne W h doc = Return tt)
    /\ clientSees (since s (snd (registerUser W body s)))
       = [Json 201 (js "User registered successfully!") None]
    /\ fst (registerUser W body s) = Return tt
    /\ forall error, ~ In (Next error) (since s (snd (registerUser W body s))).
Proof.
  intros W body s message caught Hs H. revert H. run_handler.
  destruct (isNullish body) eqn:Hbody.
  { rewrite (get_nullish body _ Hbody). cbn [fst snd events headersSent].
    intro H. since_in H. not_among H. }
  rewrite !(get_field body _ Hbody). cbn [fst snd events headersSent].
  unfold allFieldsGiven.
  destruct (truthy (fieldOf body (js "username"))),
           (truthy (fieldOf body (js "email"))),
           (truthy (fieldOf body (js "password")));
    cbn [negb orb andb fst snd events headersSent]; rewrite ?Hs;
    cbn [fst snd events headersSent];
    all_cases; rewrite ?Hs; cbn [fst snd events headersSent];
    intro H; since_in H; try (not_among H; fail).
  all: split; [reflexivity|].
  all: split; [eexists; eassumption|].
  all: split; [eexists; eexists; split;
               [since_here; cbn [In app]; auto 8 | eassumption]|].
  all: split; [since_here; reflexivity|].
  all: split; [reflexivity|].
  all: intros error X; since_in X; not_among X.
Qed.

Lemma register_created_witness :
  clientSees (since fresh (snd (registerUser (libraries None false) credentials fresh)))
  = [Json 201 (js "User registered successfully!") None].
Proof.
  apply (register_created (libraries None false) credentials fresh
           (js "User registered successfully!") None eq_refl).
  vm_compute. auto 10.
Defined.

(** X21.  The document [registerUser] hands to the database carries the
    submitted name and address; its password, when Mongoose counts the
    password as modified, is what [bcrypt.hash] returned for the submitted
    password and a salt from [bcrypt.genSalt(10)], and the submitted
    password itself only when it does not. *)
Theorem register_stores_hash :
  forall (W : World) (body : jsval) (s : state) (doc : NewUser),
    In (Insert doc) (since s (snd (registerUser W body s))) ->
    username doc = fieldOf body (js "username")
    /\ email doc = fieldOf body (js "email")
    /\ if isModified_password W (submitted body)
       then exists h salt h' hash,
              bcrypt_genSalt W h 10 = Return salt
              /\ bcrypt_hash W h' (fieldOf body (js "password")) salt = Return hash
              /\ password doc = VStr hash
       else password doc = fieldOf body (js "password").
Proof.
  intros W body s doc H. revert H. run_handler.
  destruct (isNullish body) eqn:Hbody.
  { rewrite (get_nullish body _ Hbody). cbn [fst snd events headersSent].
    intro H. since_in H. not_among H. }
  rewrite !(get_field body _ Hbody). cbn [fst snd events headersSent].
  change {| username := fieldOf body (js "username");
            email := fieldOf body (js "email");
            password := fieldOf body (js "password") |} with (submitted body).
  destruct (negb (truthy (fieldOf body (js "username")))
            || negb (truthy (fieldOf body (js "email")))
            || negb (truthy (fieldOf body (js "password"))));
    destruct (headersSent s) eqn:Hs; cbn [fst snd events headersSent];
    all_cases; cbn [password submitted]; all_cases;
    intro H; since_in H; try (not_among H; fail);
    cbn [In app] in H;
    repeat (destruct H as [H|H]; [try discriminate H|]); try contradiction;
    injection H as <-; cbn [username email password submitted];
    (split; [reflexivity|]); (split; [reflexivity|]);
    try reflexivity;
    eexists; eexists; eexists; eexists;
    (split; [eassumption|]); (split; [eassumption|]); reflexivity.
Qed.

Lemma register_stores_hash_witness :
  password {| username := VStr (js "ada"); email := VStr (js "ada@example.org");
              password := VStr (js "$2b$10$new") |}
  <> VStr (js "pass phrase").
Proof.
  destruct (register_stores_hash (libraries None false) credentials fresh
              {| username := VStr (js "ada"); email := VStr (js "ada@example.org");
                 password := VStr (js "$2b$10$new") |})
    as (_ & _ & h & salt & h' & hash & _ & B & P).
  - vm_compute. auto 10.
  - rewrite P. cbn in B. injection B as <-. discriminate.
Defined.

(** X22.  [authenticateUser] calls [next] only after [jwt.verify] returned a
    payload for the token of the request, and then the user it attached is
    the [id] of that payload.  The check for a missing token stops nothing:
    the middleware answers 401 and still hands the missing token to
    [jwt.verify], and lets the request through if that returns a
    payload. *)
Theorem authenticate_needs_verified_token :
  forall (W : World) (cookies : jsval) (s : state),
    (In (Next None) (since s (snd (authenticateUser W cookies s))) ->
     exists h decoded user,
       jwt_verify W h (fieldOf cookies (js "token")) (env_JWT_SECRET W) = Return decoded
       /\ get decoded (js "id") = Return user
       /\ fst (authenticateUser W cookies s) = Return (Some user))
    /\ (isNullish cookies = false ->
        headersSent s = false ->
        truthy (fieldOf cookies (js "token")) = false ->
        exists more,
          since s (snd (authenticateUser W cookies s))
          = Json 401 (js "Not authorized, token missing") None :: more
          /\ forall decoded user,
               jwt_verify W (events s ++ [Json 401 (js "Not authorized, token missing") None])
                 (fieldOf cookies (js "token")) (env_JWT_SECRET W)
               = Return decoded ->
               get decoded (js "id") = Return user ->
               more = [Next None]
               /\ fst (authenticateUser W cookies s) = Return (Some user)).
Proof.
  intros W cookies s. split.
  - run_handler.
    destruct (isNullish cookies) eqn:Hc.
    { rewrite (get_nullish cookies _ Hc). cbn [fst snd events headersSent].
      intro H. unfold since in H. rewrite skipn_all in H. contradiction. }
    rewrite (get_field cookies _ Hc). cbn [fst snd events headersSent].
    destruct (truthy (fieldOf cookies (js "token")));
      cbn [negb fst snd events headersSent];
      destruct (headersSent s) eqn:Hs; cbn [fst snd events headersSent];
      all_cases;
      try (intro H; no_such H; fail);
      match goal with
      | |- context [get ?d (js "id")] =>
          destruct (get d (js "id")) as [user|e'] eqn:D
      end;
      cbn [fst snd events headersSent]; all_cases;
      try (intro H; no_such H; fail);
      intros _; eexists; eexists; exists user;
      (split; [eassumption|]); (split; [eassumption|]); reflexivity.
  - intros Hc Hs Htoken. run_handler.
    rewrite (get_field cookies _ Hc). cbn [fst snd events headersSent].
    rewrite Htoken. cbn [negb fst snd events headersSent].
    rewrite Hs. cbn [negb fst snd events headersSent].
    match goal with
    | |- context [jwt_verify W ?h ?x ?y] =>
        destruct (jwt_verify W h x y) as [decoded|e] eqn:J
    end; cbn [fst snd events headersSent].
    + destruct (get decoded (js "id")) as [user|e'] eqn:D;
        cbn [fst snd events headersSent]; all_cases;
        eexists; (split; [since_here; reflexivity|]);
        intros decoded' user' X Y; injection X as <-;
        rewrite D in Y; try discriminate Y; injection Y as <-;
        split; reflexivity.
    + all_cases; eexists; (split; [since_here; reflexivity|]);
        intros decoded' user' X; discriminate X.
Qed.

Lemma authenticate_needs_verified_token_witness :
  fst (authenticateUser (libraries None false)
         (VObj [(js "token", VStr (js "token-1"))]) fresh)
  = Return (Some (VStr (js "u1"))).
Proof.
  destruct (proj1 (authenticate_needs_verified_token (libraries None false)
                     (VObj [(js "token", VStr (js "token-1"))]) fresh))
    as (h & decoded & user & V & G & R).
  - vm_compute. auto.
  - rewrite R. cbn in V. injection V as <-. cbn in G. injection G as <-. reflexivity.
Defined.

End AuthFacts.
